(** * EMT Madrid wrapper: response parsing and snapshot state

    A shallow embedding of [emt_madrid/emt_madrid.py] (the [APIEMT] client
    with its private parsing methods) and of [emt_madrid/parser.py] (the
    free parsing functions), followed by the properties of the
    specification that concern them.

    Python objects are modelled as follows.
    - Decoded JSON payloads are immutable trees ([json]).  JSON numbers are
      integers; reals (binary64) are not represented.  A string is held as
      the bytes of its UTF-8 encoding (a lone surrogate as its three bytes);
      the operations that go by characters ([v[0]], iteration, [int])
      decode them.  Where the interpreter matters ([int] on strings, [/] on
      integers) the behaviour is that of CPython 3.11 with Unicode 14.0.
    - The objects the program mutates and hands out (the [arrivals] and
      [distance] lists and the per-line dictionaries) live in a store and
      are named by references, so that aliasing between what the snapshot
      holds and what an accessor returns is visible.
    - Exceptions are values of [exn]; a computation returns its result or
      the exception raised together with the store as mutated so far. *)

From Stdlib Require Import ZArith NArith Lia String Ascii List Bool.
From stdpp Require Import base list.
Import ListNotations.
Local Open Scope string_scope.
Local Open Scope Z_scope.
Set Warnings "-register-all".

(** ** Decoded JSON values *)

Inductive json : Type :=
| JNull
| JBool (b : bool)
| JInt (z : Z)
| JStr (s : string)
| JList (items : list json)
| JDict (members : list (string * json)).

(** Python exceptions that the modelled code can raise or let through.
    [InvalidLiteral s] and [DigitLimit n] are the two [ValueError]s of
    [int]: [ValueError("invalid literal for int() with base 10: " + repr(s))]
    and [ValueError("Exceeds the limit (4300 digits) for integer string
    conversion: value has n digits; ...")].
    [DanglingRef] is the only constructor without a Python counterpart: it is
    the outcome of following a reference that the store does not hold, which
    no state built by the program exhibits. *)
Inductive exn : Type :=
| KeyError
| IndexError
| TypeError
| AttributeError
| AssertionError
| ValueError (msg : string)
| InvalidLiteral (operand : string)
| DigitLimit (digits : Z)
| OverflowError
| HTTPError (msg : string)
| BusStopDisabled
| InvalidToken
| DanglingRef.

Inductive result (A : Type) : Type :=
| Ok (a : A)
| Raise (e : exn).
Arguments Ok {A} a.
Arguments Raise {A} e.

Definition rbind {A B} (r : result A) (k : A -> result B) : result B :=
  match r with
  | Ok a => k a
  | Raise e => Raise e
  end.

(** ** Characters

    [characters s] splits the bytes of [s] into the characters they encode,
    each with its code point.  A byte sequence that encodes no character (it
    is then not the encoding of a Python string) counts as one character
    without a code point. *)

(** For a first byte: the number of bytes that follow, the bits it
    contributes, and the least code point the sequence may encode. *)
Definition lead (b : N) : option (nat * N * N) :=
  (if b <? 128 then Some (0%nat, b, 0)
   else if (194 <=? b) && (b <=? 223) then Some (1%nat, b - 192, 128)
   else if (224 <=? b) && (b <=? 239) then Some (2%nat, b - 224, 2048)
   else if (240 <=? b) && (b <=? 244) then Some (3%nat, b - 240, 65536)
   else None)%N.

(** [cur] is the part of a character read so far, [need] the number of bytes
    it still lacks, [cp] the bits read and [lo] its least code point. *)
Fixpoint utf8 (s cur : string) (need : nat) (cp lo : N) {struct s}
  : list (string * option N) :=
  match s with
  | EmptyString =>
      match cur with
      | EmptyString => []
      | _ => [(cur, None)]
      end
  | String c s' =>
      let b := N_of_ascii c in
      let fresh (pre : list (string * option N)) :=
        match lead b with
        | Some (O, v, _) => pre ++ (String c "", Some v) :: utf8 s' "" 0 0%N 0%N
        | Some (S n, v, l) => pre ++ utf8 s' (String c "") (S n) v l
        | None => pre ++ (String c "", None) :: utf8 s' "" 0 0%N 0%N
        end%list in
      match need with
      | O => fresh []
      | S n =>
          if ((128 <=? b) && (b <? 192))%N then
            let v := (cp * 64 + (b - 128))%N in
            match n with
            | O => (cur ++ String c "",
                    if ((lo <=? v) && (v <=? 1114111))%N then Some v else None)
                   :: utf8 s' "" 0 0%N 0%N
            | S _ => utf8 s' (cur ++ String c "") n v lo
            end
          else fresh [(cur, None)]
      end
  end.

Definition characters (s : string) : list (string * option N) :=
  utf8 s "" 0 0%N 0%N.

(** ** Python primitives on decoded values *)

Fixpoint dict_lookup (k : string) (d : list (string * json)) : option json :=
  match d with
  | [] => None
  | (k', v) :: d' => if String.eqb k k' then Some v else dict_lookup k d'
  end.

(** [v[k]] for a string key [k]. *)
Definition py_getitem (v : json) (k : string) : result json :=
  match v with
  | JDict d => match dict_lookup k d with
               | Some x => Ok x
               | None => Raise KeyError
               end
  | _ => Raise TypeError
  end.

(** [v[0]]. *)
Definition py_index0 (v : json) : result json :=
  match v with
  | JList (x :: _) => Ok x
  | JList [] => Raise IndexError
  | JStr s => match characters s with
              | (c, _) :: _ => Ok (JStr c)
              | [] => Raise IndexError
              end
  | JDict _ => Raise KeyError
  | _ => Raise TypeError
  end.

(** [v.get(k, default)]; only dictionaries have a [get] attribute. *)
Definition py_get_default (v : json) (k : string) (default : json) : result json :=
  match v with
  | JDict d => Ok (match dict_lookup k d with
                   | Some x => x
                   | None => default
                   end)
  | _ => Raise AttributeError
  end.

(** [v.get(k)]. *)
Definition py_get (v : json) (k : string) : result json :=
  py_get_default v k JNull.

Definition chars (s : string) : list json :=
  map (fun c => JStr (fst c)) (characters s).

(** The items visited by [for x in v]. *)
Definition py_iter (v : json) : result (list json) :=
  match v with
  | JList l => Ok l
  | JDict d => Ok (map (fun kv => JStr (fst kv)) d)
  | JStr s => Ok (chars s)
  | _ => Raise TypeError
  end.

(** [v == s] for a string literal [s]. *)
Definition str_eq (v : json) (s : string) : bool :=
  match v with
  | JStr t => String.eqb t s
  | _ => false
  end.

Fixpoint is_prefix (p s : string) : bool :=
  match p, s with
  | EmptyString, _ => true
  | String a p', String b s' => Ascii.eqb a b && is_prefix p' s'
  | String _ _, EmptyString => false
  end.

(** [p in s] on strings: [p] occurs as a contiguous substring of [s]. *)
Fixpoint contains (p s : string) : bool :=
  is_prefix p s ||
  match s with
  | EmptyString => false
  | String _ s' => contains p s'
  end.

(** [p in v] for a string literal [p]: substring test on a string,
    membership on a list, key membership on a dictionary. *)
Definition py_in (p : string) (v : json) : result bool :=
  match v with
  | JStr s => Ok (contains p s)
  | JList l => Ok (existsb (fun x => str_eq x p) l)
  | JDict d => Ok (existsb (fun kv => String.eqb (fst kv) p) d)
  | _ => Raise TypeError
  end.

(** *** [int(v)]

    On a string, [int] skips blanks, reads a sign, then decimal digits with
    single underscores between them, then blanks up to the end.  The digits
    are those of any script (the characters with a decimal value); the blanks
    are tab, line feed, vertical tab, form feed, carriage return and space,
    and the Unicode white space above U+007F.  The separators U+001C to
    U+001F are not blanks to [int]. *)

(** The code points of the digits zero, one per script. *)
Definition decimal_zeros : list N :=
  [48; 1632; 1776; 1984; 2406; 2534; 2662; 2790; 2918; 3046; 3174; 3302;
   3430; 3558; 3664; 3792; 3872; 4160; 4240; 6112; 6160; 6470; 6608; 6784;
   6800; 6992; 7088; 7232; 7248; 42528; 43216; 43264; 43472; 43504; 43600;
   44016; 65296; 66720; 68912; 69734; 69872; 69942; 70096; 70384; 70736;
   70864; 71248; 71360; 71472; 71904; 72016; 72784; 73040; 73120; 92768;
   92864; 93008; 120782; 120792; 120802; 120812; 120822; 123200; 123632;
   125264; 130032]%N.

Definition decimal_value (cp : N) : option Z :=
  match List.find (fun z => (z <=? cp) && (cp <? z + 10))%N decimal_zeros with
  | Some z => Some (Z.of_N (cp - z))
  | None => None
  end.

Definition ascii_space (cp : N) : bool :=
  ((9 <=? cp) && (cp <=? 13) || (cp =? 32))%N.

Definition unicode_space (cp : N) : bool :=
  ((cp =? 133) || (cp =? 160) || (cp =? 5760) ||
   (8192 <=? cp) && (cp <=? 8202) || (cp =? 8232) || (cp =? 8233) ||
   (cp =? 8239) || (cp =? 8287) || (cp =? 12288))%N.

(** What a character is to [int]. *)
Inductive int_char : Type :=
| Blank
| Digit (d : Z)
| Underscore
| Plus
| Minus
| Other.

Definition classify (ch : option N) : int_char :=
  match ch with
  | None => Other
  | Some cp =>
      if (cp <? 127)%N then
        if ascii_space cp then Blank
        else if (cp =? 95)%N then Underscore
        else if (cp =? 43)%N then Plus
        else if (cp =? 45)%N then Minus
        else if ((48 <=? cp) && (cp <=? 57))%N then Digit (Z.of_N cp - 48)
        else Other
      else if unicode_space cp then Blank
      else match decimal_value cp with
           | Some d => Digit d
           | None => Other
           end
  end.

Fixpoint skip_blanks (l : list int_char) : list int_char :=
  match l with
  | Blank :: l' => skip_blanks l'
  | _ => l
  end.

(** The run of digits and underscores at the head of [l]: the number of
    digits, their value and what follows; nothing when two underscores meet
    or the run ends in one.  [n] and [acc] are the count and the value so
    far. *)
Fixpoint scan (l : list int_char) (after_underscore : bool) (n acc : Z)
  : option (Z * Z * list int_char) :=
  match l with
  | Digit d :: l' => scan l' false (n + 1) (10 * acc + d)
  | Underscore :: l' => if after_underscore then None else scan l' true n acc
  | _ => if after_underscore then None else Some (n, acc, l)
  end.

(** The limit on the number of digits is checked once the digits have been
    read, before what follows them is looked at. *)
Definition int_of_string (s : string) : result Z :=
  let l := skip_blanks (map (fun c => classify (snd c)) (characters s)) in
  let '(sign, l) := match l with
                    | Plus :: l' => (1, l')
                    | Minus :: l' => (-1, l')
                    | _ => (1, l)
                    end in
  match l with
  | Underscore :: _ => Raise (InvalidLiteral s)
  | _ =>
      match scan l false 0 0 with
      | None => Raise (InvalidLiteral s)
      | Some (n, v, rest) =>
          if 4300 <? n then Raise (DigitLimit n)
          else if n =? 0 then Raise (InvalidLiteral s)
          else match skip_blanks rest with
               | [] => Ok (sign * v)
               | _ => Raise (InvalidLiteral s)
               end
      end
  end.

Definition py_int (v : json) : result Z :=
  match v with
  | JInt z => Ok z
  | JBool b => Ok (if b then 1 else 0)
  | JStr s => int_of_string s
  | _ => Raise TypeError
  end.

(** *** [math.trunc(v / 60)]

    [/] on two integers gives the binary64 number nearest to their quotient,
    ties going to the even significand, and raises [OverflowError] when that
    number would reach 2^1024.  [math.trunc] of a binary64 number is exact. *)

Definition round_half_even (n d : Z) : Z :=
  let q := n / d in
  let r := n mod d in
  if 2 * r <? d then q
  else if d <? 2 * r then q + 1
  else if Z.even q then q else q + 1.

Definition pow2 (k : Z) : Z := 2 ^ Z.max 0 k.

(** For [a > 0]: [e] is the exponent of [a / 60] (2^e <= a / 60 < 2^(e+1)),
    [m] its significand of 53 bits, rounded, so that [a / 60] is
    [m * 2^(e - 52)] in binary64; the result is that number truncated. *)
Definition trunc_div_60 (a : Z) : Z :=
  let e0 := Z.log2 a - 6 in
  let e := if 60 * pow2 (e0 + 1) <=? a * pow2 (- (e0 + 1)) then e0 + 1 else e0 in
  let shift := e - 52 in
  let m := round_half_even (a * pow2 (- shift)) (60 * pow2 shift) in
  (m * pow2 shift) / pow2 (- shift).

(** The least magnitude whose quotient by 60 rounds to 2^1024: 60 times the
    midpoint of the largest binary64 number and 2^1024. *)
Definition overflow_60 : Z := 60 * (2 ^ 1024 - 2 ^ 970).

Definition int_div_60 (x : Z) : result Z :=
  if overflow_60 <=? Z.abs x then Raise OverflowError
  else Ok (Z.sgn x * trunc_div_60 (Z.abs x)).

(** [min(math.trunc(v / 60), 45)].  A boolean counts as 0 or 1; any other
    operand that is not an integer makes [/] raise [TypeError]. *)
Definition arrival_minutes (v : json) : result Z :=
  match v with
  | JInt z => rbind (int_div_60 z) (fun t => Ok (Z.min t 45))
  | JBool b => rbind (int_div_60 (if b then 1 else 0)) (fun t => Ok (Z.min t 45))
  | _ => Raise TypeError
  end.

(** ** Dictionary keys

    The [lines] mapping is keyed by whatever [line["label"]] holds.  Python
    hashes [True] and [1] (and [False] and [0]) to the same key; lists and
    dictionaries are unhashable. *)

Inductive key : Type :=
| KNone
| KInt (z : Z)
| KStr (s : string).

Definition key_eqb (a b : key) : bool :=
  match a, b with
  | KNone, KNone => true
  | KInt x, KInt y => Z.eqb x y
  | KStr s, KStr t => String.eqb s t
  | _, _ => false
  end.

Definition py_hash (v : json) : result key :=
  match v with
  | JNull => Ok KNone
  | JBool b => Ok (KInt (if b then 1 else 0))
  | JInt z => Ok (KInt z)
  | JStr s => Ok (KStr s)
  | JList _ | JDict _ => Raise TypeError
  end.

(** ** The store and the client object *)

Definition loc := nat.

(** A per-line dictionary.  The scalar entries are values; the two sequences
    are references to list objects of the store. *)
Record LineInfo : Type := mkLineInfo {
  destination : json;
  origin : json;
  max_freq : json;
  min_freq : json;
  start_time : json;
  end_time : json;
  day_type : json;
  distance : loc;
  arrivals : loc
}.

Inductive pyobj : Type :=
| PyList (xs : list json)
| PyLine (li : LineInfo).

(** The five entries [__init__] gives the snapshot dictionary [_stop_info],
    which are those the class reads and writes. *)
Record StopSnapshot : Type := mkSnapshot {
  bus_stop_id : json;
  bus_stop_name : json;
  bus_stop_coordinates : json;
  bus_stop_address : json;
  lines : list (key * loc)
}.

Record request : Type := mkRequest {
  method : string;
  url : string;
  headers : list (string * json);
  body : option json
}.

Inductive level : Type := WARNING | ERROR.

(** An [APIEMT] instance together with the part of the world it acts on:
    the object store, the log records emitted and the requests sent.
    [other_entries] holds what the snapshot dictionary has under keys other
    than the five of [StopSnapshot]: the class creates none, the function
    [parse_stop_info] of [parser.py] writes four. *)
Record APIEMT : Type := mkAPIEMT {
  token : json;
  stop_info : StopSnapshot;
  other_entries : list (string * json);
  store : list pyobj;
  logged : list (level * string);
  sent : list request
}.

Definition set_token (t : json) (s : APIEMT) : APIEMT :=
  mkAPIEMT t (stop_info s) (other_entries s) (store s) (logged s) (sent s).
Definition set_stop_info (i : StopSnapshot) (s : APIEMT) : APIEMT :=
  mkAPIEMT (token s) i (other_entries s) (store s) (logged s) (sent s).
Definition set_other_entries (d : list (string * json)) (s : APIEMT) : APIEMT :=
  mkAPIEMT (token s) (stop_info s) d (store s) (logged s) (sent s).
Definition set_store (h : list pyobj) (s : APIEMT) : APIEMT :=
  mkAPIEMT (token s) (stop_info s) (other_entries s) h (logged s) (sent s).
Definition set_logged (l : list (level * string)) (s : APIEMT) : APIEMT :=
  mkAPIEMT (token s) (stop_info s) (other_entries s) (store s) l (sent s).
Definition set_sent (r : list request) (s : APIEMT) : APIEMT :=
  mkAPIEMT (token s) (stop_info s) (other_entries s) (store s) (logged s) r.

(** [APIEMT.__init__] *)
Definition init : APIEMT :=
  mkAPIEMT JNull (mkSnapshot JNull JNull JNull JNull []) [] [] [] [].

(** ** Computations

    A computation runs from a state and yields a value or the exception
    raised, and the state it leaves: what was mutated before an exception
    stays mutated. *)

Definition M (A : Type) : Type := APIEMT -> result A * APIEMT.

Definition ret {A} (a : A) : M A := fun s => (Ok a, s).
Definition raise {A} (e : exn) : M A := fun s => (Raise e, s).
Definition bind {A B} (m : M A) (k : A -> M B) : M B :=
  fun s => match m s with
           | (Ok a, s') => k a s'
           | (Raise e, s') => (Raise e, s')
           end.
Definition lift {A} (r : result A) : M A := fun s => (r, s).

Declare Scope py_scope.
Delimit Scope py_scope with py.
Notation "x <- m ;; k" := (bind m (fun x => k))
  (at level 100, m at next level, right associativity) : py_scope.
Notation "m ;;; k" := (bind m (fun _ => k))
  (at level 100, right associativity) : py_scope.
Local Open Scope py_scope.

Definition get_state : M APIEMT := fun s => (Ok s, s).
Definition modify (f : APIEMT -> APIEMT) : M unit := fun s => (Ok tt, f s).

Definition log (l : level) (msg : string) : M unit :=
  modify (fun s => set_logged (logged s ++ [(l, msg)]) s).

(** Creating an object: it gets the next free reference. *)
Definition alloc (o : pyobj) : M loc :=
  fun s => (Ok (length (store s)), set_store (store s ++ [o]) s).

Definition read_list (l : loc) : M (list json) :=
  fun s => match store s !! l with
           | Some (PyList xs) => (Ok xs, s)
           | _ => (Raise DanglingRef, s)
           end.

Definition read_line (l : loc) : M LineInfo :=
  fun s => match store s !! l with
           | Some (PyLine li) => (Ok li, s)
           | _ => (Raise DanglingRef, s)
           end.

Definition write (l : loc) (o : pyobj) : M unit :=
  modify (fun s => set_store (<[l := o]> (store s)) s).

(** [xs.append(x)] on the list object at [l]. *)
Definition list_append (l : loc) (x : json) : M unit :=
  xs <- read_list l ;;
  write l (PyList (xs ++ [x])).

(** [except (KeyError, IndexError) as error: raise ValueError(msg) from error] *)
Definition reraise_lookup {A} (msg : string) (m : M A) : M A :=
  fun s => match m s with
           | (Raise KeyError, s') | (Raise IndexError, s') => (Raise (ValueError msg), s')
           | r => r
           end.

(** *** The [lines] dictionary *)

Fixpoint lines_get (k : key) (d : list (key * loc)) : option loc :=
  match d with
  | [] => None
  | (k', l) :: d' => if key_eqb k k' then Some l else lines_get k d'
  end.

(** [d[k] = l]: an existing key keeps its place, a new one goes last. *)
Fixpoint lines_set (k : key) (l : loc) (d : list (key * loc)) : list (key * loc) :=
  match d with
  | [] => [(k, l)]
  | (k', l') :: d' => if key_eqb k k' then (k, l) :: d' else (k', l') :: lines_set k l d'
  end.

(** ** Line records ([parse_lines], identical in both modules) *)

(** The dictionary display built for one line record, entries evaluated in
    source order.  The two empty lists are fresh objects. *)
Definition line_entry (line : json) : M LineInfo :=
  direction <- lift (py_getitem line "direction") ;;
  destination <- lift (if str_eq direction "A"
                       then py_getitem line "headerA"
                       else py_getitem line "headerB") ;;
  direction <- lift (py_getitem line "direction") ;;
  origin <- lift (if str_eq direction "B"
                  then py_getitem line "headerA"
                  else py_getitem line "headerB") ;;
  maxFreq <- lift (py_getitem line "maxFreq") ;;
  max_freq <- lift (py_int maxFreq) ;;
  minFreq <- lift (py_getitem line "minFreq") ;;
  min_freq <- lift (py_int minFreq) ;;
  start_time <- lift (py_getitem line "startTime") ;;
  end_time <- lift (py_getitem line "stopTime") ;;
  day_type <- lift (py_getitem line "dayType") ;;
  distance <- alloc (PyList []) ;;
  arrivals <- alloc (PyList []) ;;
  ret (mkLineInfo destination origin (JInt max_freq) (JInt min_freq)
         start_time end_time day_type distance arrivals).

Fixpoint parse_lines_loop (items : list json) (line_info : list (key * loc))
  : M (list (key * loc)) :=
  match items with
  | [] => ret line_info
  | line :: rest =>
      line_number <- lift (py_getitem line "label") ;;
      entry <- line_entry line ;;
      l <- alloc (PyLine entry) ;;
      k <- lift (py_hash line_number) ;;
      parse_lines_loop rest (lines_set k l line_info)
  end.

Definition parse_lines (lines : json) : M (list (key * loc)) :=
  items <- lift (py_iter lines) ;;
  parse_lines_loop items [].

(** ** Arrival records (the loops shared by both [parse_arrivals]) *)

(** [li] with its [distance] and [arrivals] entries rebound. *)
Definition set_lists (li : LineInfo) (d a : loc) : LineInfo :=
  mkLineInfo (destination li) (origin li) (max_freq li) (min_freq li)
    (start_time li) (end_time li) (day_type li) d a.

(** [for line_info in lines.values(): line_info["arrivals"] = [];
    line_info["distance"] = []] *)
Fixpoint clear_lines (values : list loc) : M unit :=
  match values with
  | [] => ret tt
  | l :: rest =>
      a <- alloc (PyList []) ;;
      li <- read_line l ;;
      write l (PyLine (set_lists li (distance li) a)) ;;;
      d <- alloc (PyList []) ;;
      li <- read_line l ;;
      write l (PyLine (set_lists li d (arrivals li))) ;;;
      clear_lines rest
  end.

(** The body of [for arrival in arrivals].  A stored line dictionary is
    never empty, hence truthy: [if line_info] tests that the line is known. *)
Definition store_arrival (arrival : json) : M unit :=
  line <- lift (py_get arrival "line") ;;
  k <- lift (py_hash line) ;;
  s <- get_state ;;
  let line_info := lines_get k (lines (stop_info s)) in
  estimate <- lift (py_get arrival "estimateArrive") ;;
  arrival_time <- lift (arrival_minutes estimate) ;;
  match line_info with
  | Some l =>
      li <- read_line l ;;
      list_append (arrivals li) (JInt arrival_time) ;;;
      li <- read_line l ;;
      bus <- lift (py_get arrival "DistanceBus") ;;
      list_append (distance li) bus
  | None => ret tt
  end.

Fixpoint store_arrivals (items : list json) : M unit :=
  match items with
  | [] => ret tt
  | arrival :: rest => store_arrival arrival ;;; store_arrivals rest
  end.

(** Lines 160-172 of [emt_madrid.py], lines 90-100 of [parser.py]. *)
Definition rebuild_arrivals (response : json) : M unit :=
  s <- get_state ;;
  clear_lines (map snd (lines (stop_info s))) ;;;
  data <- lift (py_getitem response "data") ;;
  first <- lift (py_index0 data) ;;
  arrive <- lift (py_get_default first "Arrive" (JList [])) ;;
  items <- lift (py_iter arrive) ;;
  store_arrivals items.

(** ** [parser.py]: the free parsing functions *)

(** What a parsing function hands back: the snapshot object it was given,
    or a value of its own ([None], or the error dictionary). *)
Inductive returned : Type :=
| TheSnapshot
| Value (v : json).

Definition invalid_token_marker : json :=
  JDict [("error", JStr "Invalid token")].

(** The two [except] clauses closing [parse_stop_info] and
    [parse_arrivals]. *)
Definition handle_signals (m : M returned) : M returned :=
  fun s => match m s with
           | (Raise BusStopDisabled, s') =>
               (log WARNING "Bus Stop disabled or does not exist" ;;;
                ret (Value JNull)) s'
           | (Raise InvalidToken, s') =>
               (log WARNING "Invalid or expired token" ;;;
                ret (Value invalid_token_marker)) s'
           | r => r
           end.

Definition parse_token (response : json) : M json :=
  code <- lift (py_get response "code") ;;
  if str_eq code "01" then
    data <- lift (py_getitem response "data") ;;
    first <- lift (py_index0 data) ;;
    lift (py_get first "accessToken")
  else
    log WARNING "Invalid login credentials" ;;;
    ret JNull.

(** [d[k] = v] on the entries of a dictionary: an existing key keeps its
    place, a new one goes last. *)
Fixpoint dict_set (k : string) (v : json) (d : list (string * json))
  : list (string * json) :=
  match d with
  | [] => [(k, v)]
  | (k', v') :: d' =>
      if String.eqb k k' then (k, v) :: d' else (k', v') :: dict_set k v d'
  end.

(** [stop_info.update({"stop_id": ..., "stop_name": ..., "stop_coordinates":
    ..., "stop_address": ..., "lines": ...})] on the snapshot dictionary: of
    the five entries of the class only [lines] is written, the
    [bus_stop_...] ones stay as they are. *)
Definition update_parsed (stop name coordinates address : json)
    (parsed : list (key * loc)) (s : APIEMT) : APIEMT :=
  let i := stop_info s in
  set_other_entries
    (dict_set "stop_address" address
       (dict_set "stop_coordinates" coordinates
          (dict_set "stop_name" name
             (dict_set "stop_id" stop (other_entries s)))))
    (set_stop_info
       (mkSnapshot (bus_stop_id i) (bus_stop_name i) (bus_stop_coordinates i)
          (bus_stop_address i) parsed) s).

(** The dictionary passed is the snapshot of the state, which is never
    [None]: the opening [assert] holds. *)
Definition parse_stop_info (response : json) : M returned :=
  handle_signals (
    code <- lift (py_get response "code") ;;
    (if str_eq code "90" then raise BusStopDisabled else ret tt) ;;;
    code <- lift (py_get response "code") ;;
    (if str_eq code "80" then raise InvalidToken else ret tt) ;;;
    data <- lift (py_getitem response "data") ;;
    first <- lift (py_index0 data) ;;
    stops <- lift (py_getitem first "stops") ;;
    response_stop <- lift (py_index0 stops) ;;
    stop <- lift (py_getitem response_stop "stop") ;;
    name <- lift (py_getitem response_stop "name") ;;
    geometry <- lift (py_getitem response_stop "geometry") ;;
    coordinates <- lift (py_getitem geometry "coordinates") ;;
    address <- lift (py_getitem response_stop "postalAddress") ;;
    dataLine <- lift (py_getitem response_stop "dataLine") ;;
    parsed <- parse_lines dataLine ;;
    modify (update_parsed stop name coordinates address parsed) ;;;
    ret TheSnapshot).

Definition parse_arrivals (response : json) : M returned :=
  handle_signals (
    code <- lift (py_get response "code") ;;
    (if str_eq code "80" then
       description <- lift (py_get response "description") ;;
       has_token <- lift (py_in "token" description) ;;
       if (has_token : bool) then raise InvalidToken else ret tt
     else ret tt) ;;;
    code <- lift (py_get response "code") ;;
    (if str_eq code "80" then raise BusStopDisabled else ret tt) ;;;
    rebuild_arrivals response ;;;
    ret TheSnapshot).

(** ** [emt_madrid.py]: the [APIEMT] client *)

Definition BASE_URL := "https://openapi.emtmadrid.es/".
Definition ENDPOINT_LOGIN := "v1/mobilitylabs/user/login/".
Definition ENDPOINT_ARRIVAL_TIME := "v2/transport/busemtmad/stops/".
Definition ENDPOINT_STOP_INFO := "v1/transport/busemtmad/stops/".

Definition _extract_token (response : json) : M json :=
  reraise_lookup "Unable to get token from the API" (
    code <- lift (py_get response "code") ;;
    if negb (str_eq code "01") then
      log ERROR "Invalid email or password" ;;;
      ret (JStr "Invalid token")
    else
      data <- lift (py_getitem response "data") ;;
      first <- lift (py_index0 data) ;;
      lift (py_getitem first "accessToken")).

(** Stop identifiers are taken as strings, as in [update_stop_info("1234")]. *)
Definition _parse_stop_info (response : json) (stop_id : string) : M unit :=
  reraise_lookup "Unable to get bus stop information" (
    code <- lift (py_get response "code") ;;
    if negb (str_eq code "00") then
      log WARNING "Bus stop disabled or does not exist"
    else
      data <- lift (py_getitem response "data") ;;
      first <- lift (py_index0 data) ;;
      stops <- lift (py_getitem first "stops") ;;
      stop_info <- lift (py_index0 stops) ;;
      name <- lift (py_getitem stop_info "name") ;;
      geometry <- lift (py_getitem stop_info "geometry") ;;
      coordinates <- lift (py_getitem geometry "coordinates") ;;
      address <- lift (py_getitem stop_info "postalAddress") ;;
      dataLine <- lift (py_getitem stop_info "dataLine") ;;
      parsed <- parse_lines dataLine ;;
      modify (set_stop_info
                (mkSnapshot (JStr stop_id) name coordinates address parsed))).

Definition _parse_arrivals (response : json) : M unit :=
  reraise_lookup "Unable to get the arrival times from the API" (
    code <- lift (py_get response "code") ;;
    if str_eq code "80" then
      log WARNING "Bus Stop disabled or does not exist"
    else
      rebuild_arrivals response).

(** [get_stop_info] returns the snapshot object itself; the result shows
    the five entries of the class. *)
Definition get_stop_info : M StopSnapshot :=
  s <- get_state ;;
  ret (stop_info s).

(** [while len(arrivals) < 2: arrivals.append(None)].  [n] bounds the number
    of iterations; two always suffice (lemma [pad_arrivals_runs]). *)
Fixpoint pad_arrivals (n : nat) (arrivals : loc) : M unit :=
  xs <- read_list arrivals ;;
  if (length xs <? 2)%nat then
    match n with
    | S n' => list_append arrivals JNull ;;; pad_arrivals n' arrivals
    | O => ret tt
    end
  else ret tt.

(** The result is a reference: for a known line, to the list the snapshot
    holds. *)
Definition get_arrival_time (line : json) : M loc :=
  k <- lift (py_hash line) ;;
  s <- get_state ;;
  match lines_get k (lines (stop_info s)) with
  | None => alloc (PyList [JNull; JNull])
  | Some l =>
      li <- read_line l ;;
      let arrivals := arrivals li in
      pad_arrivals 2 arrivals ;;;
      ret arrivals
  end.

(** The result is a reference to a line dictionary: for a known line, to
    the one the snapshot holds.  The warning is recorded by its format
    string; its argument is [line]. *)
Definition get_line_info (line : json) : M loc :=
  s <- get_state ;;
  k <- lift (py_hash line) ;;
  match lines_get k (lines (stop_info s)) with
  | Some l =>
      line_info <- read_line l ;;
      xs <- read_list (distance line_info) ;;
      (if (length xs =? 0)%nat
       then list_append (distance line_info) JNull
       else ret tt) ;;;
      ret l
  | None =>
      log WARNING "The bus line %s does not exist at this stop." ;;;
      distance <- alloc (PyList [JNull]) ;;
      arrivals <- alloc (PyList [JNull; JNull]) ;;
      alloc (PyLine (mkLineInfo JNull JNull JNull JNull JNull JNull JNull
                       distance arrivals))
  end.

Section Client.

(** The transport: what the [i]-th request of the session is answered
    with, a decoded body or an exception of [requests]. *)
Variable server : nat -> request -> result json.

(** [_make_request].  The body of a POST is the data before
    [json.dumps]; a GET carries none. *)
Definition _make_request (url : string) (headers : list (string * json))
    (data : json) (method : string) : M json :=
  (if negb (String.eqb method "POST" || String.eqb method "GET")
   then raise (ValueError ("Invalid HTTP method: " ++ method))
   else ret tt) ;;;
  s <- get_state ;;
  let r := mkRequest method url headers
             (if String.eqb method "POST" then Some data else None) in
  modify (set_sent (sent s ++ [r])) ;;;
  match server (length (sent s)) r with
  | Raise (HTTPError error) =>
      raise (HTTPError ("Error while connecting to EMT API: " ++ error))
  | answer => lift answer
  end.

Definition authenticate (user password : string) : M json :=
  let headers := [("email", JStr user); ("password", JStr password)] in
  let url := BASE_URL ++ ENDPOINT_LOGIN in
  response <- _make_request url headers JNull "GET" ;;
  t <- _extract_token response ;;
  modify (set_token t) ;;;
  ret t.

Definition update_stop_info (stop_id : string) : M unit :=
  s <- get_state ;;
  let url := BASE_URL ++ ENDPOINT_STOP_INFO ++ stop_id ++ "/detail/" in
  let headers := [("accessToken", token s)] in
  let data := JDict [("idStop", JStr stop_id)] in
  if negb (str_eq (token s) "Invalid token") then
    response <- _make_request url headers data "GET" ;;
    _parse_stop_info response stop_id
  else ret tt.

Definition update_arrival_times (stop : string) : M unit :=
  s <- get_state ;;
  let url := BASE_URL ++ ENDPOINT_ARRIVAL_TIME ++ stop ++ "/arrives/" in
  let headers := [("accessToken", token s)] in
  let data := JDict [("stopId", JStr stop);
                     ("Text_EstimationsRequired_YN", JStr "Y")] in
  if negb (str_eq (token s) "Invalid token") then
    response <- _make_request url headers data "POST" ;;
    _parse_arrivals response
  else ret tt.

End Client.

(** ** Reading a state *)

Definition line_at (s : APIEMT) (l : loc) : option LineInfo :=
  match store s !! l with
  | Some (PyLine li) => Some li
  | _ => None
  end.

Definition list_at (s : APIEMT) (l : loc) : option (list json) :=
  match store s !! l with
  | Some (PyList xs) => Some xs
  | _ => None
  end.

(** The line dictionary stored under a label. *)
Definition known_line (s : APIEMT) (k : key) : option LineInfo :=
  match lines_get k (lines (stop_info s)) with
  | Some l => line_at s l
  | None => None
  end.

(** The contents of a line's [arrivals] and [distance] lists, as a reader of
    [get_stop_info()] sees them. *)
Definition stored_arrivals (s : APIEMT) (k : key) : option (list json) :=
  match known_line s k with
  | Some li => list_at s (arrivals li)
  | None => None
  end.

Definition stored_distance (s : APIEMT) (k : key) : option (list json) :=
  match known_line s k with
  | Some li => list_at s (distance li)
  | None => None
  end.

(** The line dictionary an arrival record is stored into, if any. *)
Definition target (d : list (key * loc)) (arrival : json) : option loc :=
  match rbind (py_get arrival "line") py_hash with
  | Ok k => lines_get k d
  | Raise _ => None
  end.

Definition addressed_to (d : list (key * loc)) (l : loc) (arrival : json) : bool :=
  match target d arrival with
  | Some l' => Nat.eqb l' l
  | None => false
  end.

(** The arrival records of a response, in the order the server gave them. *)
Definition arrive_records (response : json) : result (list json) :=
  rbind (py_getitem response "data") (fun data =>
  rbind (py_index0 data) (fun first =>
  rbind (py_get_default first "Arrive" (JList [])) py_iter)).

(** The requests the two update methods build. *)
Definition stop_request (tok : json) (stop_id : string) : request :=
  mkRequest "GET" (BASE_URL ++ ENDPOINT_STOP_INFO ++ stop_id ++ "/detail/")
    [("accessToken", tok)] None.

Definition arrivals_request (tok : json) (stop : string) : request :=
  mkRequest "POST" (BASE_URL ++ ENDPOINT_ARRIVAL_TIME ++ stop ++ "/arrives/")
    [("accessToken", tok)]
    (Some (JDict [("stopId", JStr stop); ("Text_EstimationsRequired_YN", JStr "Y")])).

(** What [_make_request] leaves and what its caller goes on with, once the
    request [r] has been recorded in [s1]. *)
Definition answered {A} (answer : result json) (s1 : APIEMT) (k : json -> M A)
  : result A * APIEMT :=
  match answer with
  | Ok response => k response s1
  | Raise (HTTPError error) =>
      (Raise (HTTPError ("Error while connecting to EMT API: " ++ error)), s1)
  | Raise e => (Raise e, s1)
  end.

(** ** Sample payloads *)

Definition line_record (label direction headerA headerB : string) : json :=
  JDict [("label", JStr label); ("direction", JStr direction);
         ("headerA", JStr headerA); ("headerB", JStr headerB);
         ("maxFreq", JStr "12"); ("minFreq", JStr "4");
         ("startTime", JStr "07:00"); ("stopTime", JStr "22:58");
         ("dayType", JStr "LA")].

Definition stop_detail_ok : json :=
  JDict [("code", JStr "00");
         ("description", JStr "Data recovered OK");
         ("data", JList [JDict [("stops", JList [JDict [
            ("stop", JStr "72");
            ("name", JStr "Cibeles-Casa de America");
            ("geometry", JDict [("type", JStr "Point");
                                ("coordinates", JList [JInt (-3); JInt 40])]);
            ("postalAddress", JStr "Pza. de Cibeles, 2");
            ("dataLine", JList [line_record "27" "A" "EMBAJADORES" "PLAZA CASTILLA";
                                line_record "53" "B" "SOL SEVILLA" "ARTURO SORIA"])]])]])].

Definition arrival_record (line : string) (estimate distance : Z) : json :=
  JDict [("line", JStr line); ("estimateArrive", JInt estimate);
         ("DistanceBus", JInt distance)].

Definition arrivals_response (records : list json) : json :=
  JDict [("code", JStr "00");
         ("description", JStr "Data recovered OK");
         ("data", JList [JDict [("Arrive", JList records)]])].

Definition login_rejected : json :=
  JDict [("code", JStr "92"); ("description", JStr "Invalid user or password");
         ("data", JList [])].

Definition token_expired : json :=
  JDict [("code", JStr "80");
         ("description", JStr "Invalid token: token not found in cache");
         ("data", JList [])].

Definition stop_disabled : json :=
  JDict [("code", JStr "80");
         ("description", JStr "Bus stop disabled or not exists");
         ("data", JList [])].

(** A transport that rejects the login and would answer the other two
    endpoints with data. *)
Definition sample_server (i : nat) (r : request) : result json :=
  if String.eqb (method r) "POST" then
    Ok (arrivals_response [arrival_record "27" 30 120; arrival_record "27" 150 800])
  else if is_prefix (BASE_URL ++ ENDPOINT_LOGIN) (url r) then Ok login_rejected
  else Ok stop_detail_ok.

(** The state after one more warning has been logged. *)
Definition warn (msg : string) (s : APIEMT) : APIEMT :=
  set_logged (logged s ++ [(WARNING, msg)]) s.

(** A login answer that lacks its payload: no [data] entry, an empty [data]
    list, or a first entry without [accessToken]. *)
Definition lacks_token (response : json) : Prop :=
  py_getitem response "data" = Raise KeyError \/
  py_getitem response "data" = Ok (JList []) \/
  exists d rest, py_getitem response "data" = Ok (JList (JDict d :: rest)) /\
                 dict_lookup "accessToken" d = None.

(** The state in which the list object at [a] holds [xs]. *)
Definition with_list (a : loc) (xs : list json) (s : APIEMT) : APIEMT :=
  set_store (<[a := PyList xs]> (store s)) s.

(** A sequence with nulls appended up to length two; a sequence of two
    elements or more is left as it is. *)
Definition padded (xs : list json) : list json :=
  (xs ++ replicate (2 - length xs) JNull)%list.

(** A client whose snapshot holds the two lines of [stop_detail_ok], and the
    same after an answer with three buses for line 27. *)
Definition sample_stop : APIEMT :=
  snd (_parse_stop_info stop_detail_ok "72" init).

Definition sample_line_27 : LineInfo :=
  mkLineInfo (JStr "EMBAJADORES") (JStr "PLAZA CASTILLA") (JInt 12) (JInt 4)
    (JStr "07:00") (JStr "22:58") (JStr "LA") 0%nat 1%nat.

Definition three_buses : json :=
  arrivals_response [arrival_record "27" 30 120; arrival_record "27" 150 800;
                     arrival_record "27" 300 1500].

Definition sample_three : APIEMT := snd (_parse_arrivals three_buses sample_stop).

(** How a line dictionary relates to the record it was built from: the
    destination is [headerA] exactly for direction "A", the origin is
    [headerA] exactly for direction "B", and [headerB] is used otherwise. *)
Definition swapped (line : json) (li : LineInfo) : Prop :=
  exists direction,
    py_getitem line "direction" = Ok direction /\
    (direction = JStr "A" ->
     py_getitem line "headerA" = Ok (destination li) /\
     py_getitem line "headerB" = Ok (origin li)) /\
    (direction = JStr "B" ->
     py_getitem line "headerB" = Ok (destination li) /\
     py_getitem line "headerA" = Ok (origin li)) /\
    (direction <> JStr "A" -> direction <> JStr "B" ->
     py_getitem line "headerB" = Ok (destination li) /\
     py_getitem line "headerB" = Ok (origin li)).

(** The dictionary stored under label [k] at [l] was built from one of the
    records [items]. *)
Definition parsed_from (items : list json) (s : APIEMT) (k : key) (l : loc) : Prop :=
  exists line li,
    In line items /\
    rbind (py_getitem line "label") py_hash = Ok k /\
    line_at s l = Some li /\
    swapped line li.

(** [s'] has the objects of [s], unchanged, and possibly new ones. *)
Definition extends (s s' : APIEMT) : Prop :=
  exists ext, store s' = (store s ++ ext)%list.

(** What [parse_arrivals] appends for a record: the minutes, and the raw
    [DistanceBus] entry ([None] when the record has none). *)
Definition minutes_stored (arrival : json) : json :=
  match rbind (py_get arrival "estimateArrive") arrival_minutes with
  | Ok t => JInt t
  | Raise _ => JNull
  end.

Definition distance_stored (arrival : json) : json :=
  match py_get arrival "DistanceBus" with
  | Ok d => d
  | Raise _ => JNull
  end.

(** The two sequences that the records [items] give the line dictionary at
    [l], in the order of the records. *)
Definition arrivals_for (d : list (key * loc)) (l : loc) (items : list json) : list json :=
  map minutes_stored (List.filter (addressed_to d l) items).

Definition distances_for (d : list (key * loc)) (l : loc) (items : list json) : list json :=
  map distance_stored (List.filter (addressed_to d l) items).

(** [li'] is [li] up to the two list references. *)
Definition same_scalars (li li' : LineInfo) : Prop :=
  li' = set_lists li (distance li') (arrivals li').

(** Two line dictionaries share no list object. *)
Definition separate (li1 li2 : LineInfo) : Prop :=
  arrivals li1 <> arrivals li2 /\ arrivals li1 <> distance li2 /\
  distance li1 <> arrivals li2 /\ distance li1 <> distance li2.

(** The line dictionaries at [V] hold what the records [items] put into
    them and nothing else, each in two list objects of its own. *)
Definition rebuilt_from (d : list (key * loc)) (items : list json)
    (s : APIEMT) (V : list loc) : Prop :=
  (forall l, In l V ->
     exists li,
       line_at s l = Some li /\
       list_at s (arrivals li) = Some (arrivals_for d l items) /\
       list_at s (distance li) = Some (distances_for d l items) /\
       arrivals li <> distance li) /\
  (forall l1 l2 li1 li2,
     In l1 V -> In l2 V -> l1 <> l2 ->
     line_at s l1 = Some li1 -> line_at s l2 = Some li2 ->
     separate li1 li2).

(** The state after one iteration of [clear_lines] on the dictionary [li]
    at [l]: two new empty lists, bound to its [arrivals] and [distance]. *)
Definition clear_one (l : loc) (li : LineInfo) (s : APIEMT) : APIEMT :=
  let n := length (store s) in
  set_store (<[l := PyLine (set_lists li (S n) n)]>
               (store s ++ [PyList []; PyList []])%list) s.

(** The integer that [/ 60] sees in an [estimateArrive] entry. *)
Definition seconds (e : json) : option Z :=
  match e with
  | JInt x => Some x
  | JBool b => Some (if b then 1 else 0)
  | _ => None
  end.

(** What is known of the minutes [t] stored for [item]: its
    [estimateArrive] is an integer [x] whose quotient by 60 does not
    overflow, and [t] is at most 45.  For a magnitude below 2^53, [t] is the
    quotient truncated toward zero and capped at 45; for a non-negative [x],
    the floor of the quotient, capped. *)
Definition has_minutes (item : json) : Prop :=
  exists e x t,
    py_get item "estimateArrive" = Ok e /\
    seconds e = Some x /\
    Z.abs x < overflow_60 /\
    minutes_stored item = JInt t /\
    t <= 45 /\
    (Z.abs x < 2 ^ 53 -> t = Z.min (Z.quot x 60) 45) /\
    (0 <= x -> t = Z.min (x / 60) 45).

(** [s'] is [s] with every known line's two lists replaced by what the
    records of [response] give them. *)
Definition rebuilt (s : APIEMT) (response : json) (s' : APIEMT) : Prop :=
  exists items,
    arrive_records response = Ok items /\
    stop_info s' = stop_info s /\
    Forall has_minutes items /\
    forall k l,
      lines_get k (lines (stop_info s)) = Some l ->
      (exists li li', line_at s l = Some li /\ line_at s' l = Some li' /\
                      same_scalars li li') /\
      stored_arrivals s' k = Some (arrivals_for (lines (stop_info s)) l items) /\
      stored_distance s' k = Some (distances_for (lines (stop_info s)) l items).

(** A successful arrivals parse, by the free function or by the method. *)
Definition parsed_arrivals (response : json) (s s' : APIEMT) : Prop :=
  parse_arrivals response s = (Ok TheSnapshot, s') \/
  (exists c, py_get response "code" = Ok c /\ str_eq c "80" = false /\
             _parse_arrivals response s = (Ok tt, s')).

(** No two labels of the mapping share a line dictionary. *)
Definition distinct_lines (d : list (key * loc)) : Prop :=
  forall k1 k2 l, lines_get k1 d = Some l -> lines_get k2 d = Some l -> k1 = k2.

(** A computation that leaves a component of the state as it found it. *)
Definition keeps {A B} (field : APIEMT -> B) (m : M A) : Prop :=
  forall s, field (snd (m s)) = field s.

(** ** Notions used by the further properties *)

(** The request [authenticate] builds. *)
Definition login_request (user password : string) : request :=
  mkRequest "GET" (BASE_URL ++ ENDPOINT_LOGIN)%string
    [("email", JStr user); ("password", JStr password)] None.

(** The exceptions an [except (KeyError, IndexError)] clause catches, and
    what the clause with message [msg] makes of an exception. *)
Definition is_lookup_error (e : exn) : bool :=
  match e with
  | KeyError | IndexError => true
  | _ => false
  end.

Definition wrapped (msg : string) (e : exn) : exn :=
  if is_lookup_error e then ValueError msg else e.

(** The two exceptions of [parser.py]. *)
Definition signal (e : exn) : Prop := e = BusStopDisabled \/ e = InvalidToken.

(** A computation, or a result, that raises neither of them. *)
Definition plain {A} (m : M A) : Prop :=
  forall s e, fst (m s) = Raise e -> ~ signal e.

Definition plain_result {A} (r : result A) : Prop :=
  forall e, r = Raise e -> ~ signal e.

(** A computation that keeps every object of the store as it is and at most
    creates new ones. *)
Definition grows {A} (m : M A) : Prop := forall s, extends s (snd (m s)).

(** The lookups [_parse_stop_info] makes in an answer with code "00", in
    source order: the stop record [data[0]["stops"][0]], then its [name],
    [geometry]["coordinates"], [postalAddress] and [dataLine] entries. *)
Definition stop_detail_body (response : json) : result (json * json * json * json * json) :=
  rbind (py_getitem response "data") (fun data =>
  rbind (py_index0 data) (fun first =>
  rbind (py_getitem first "stops") (fun stops =>
  rbind (py_index0 stops) (fun stop_info =>
  rbind (py_getitem stop_info "name") (fun name =>
  rbind (py_getitem stop_info "geometry") (fun geometry =>
  rbind (py_getitem geometry "coordinates") (fun coordinates =>
  rbind (py_getitem stop_info "postalAddress") (fun address =>
  rbind (py_getitem stop_info "dataLine") (fun dataLine =>
  Ok (stop_info, name, coordinates, address, dataLine)))))))))).

(** The references [V] are line dictionaries, each with an [arrivals] list
    and a [distance] list of its own: the two are different objects, and no
    two dictionaries share one. *)
Definition owns (s : APIEMT) (V : list loc) : Prop :=
  (forall l, In l V ->
     exists li xs ys,
       line_at s l = Some li /\
       list_at s (arrivals li) = Some xs /\
       list_at s (distance li) = Some ys /\
       arrivals li <> distance li) /\
  (forall l1 l2 li1 li2,
     In l1 V -> In l2 V -> l1 <> l2 ->
     line_at s l1 = Some li1 -> line_at s l2 = Some li2 ->
     separate li1 li2).

(** A state whose snapshot holds one line dictionary per label, each with
    lists of its own. *)
Definition well_formed (s : APIEMT) : Prop :=
  NoDup (map snd (lines (stop_info s))) /\
  owns s (map snd (lines (stop_info s))).

(** The entries of a line dictionary that do not depend on the direction,
    against the record it was built from. *)
Definition copied (line : json) (li : LineInfo) : Prop :=
  py_getitem line "startTime" = Ok (start_time li) /\
  py_getitem line "stopTime" = Ok (end_time li) /\
  py_getitem line "dayType" = Ok (day_type li) /\
  (exists z, rbind (py_getitem line "maxFreq") py_int = Ok z /\ max_freq li = JInt z) /\
  (exists z, rbind (py_getitem line "minFreq") py_int = Ok z /\ min_freq li = JInt z).

(** An arrival record the loop of [_parse_arrivals] gets through: a
    dictionary whose [line] entry (or [None]) is hashable and whose
    [estimateArrive] entry is an integer that [/ 60] takes to a binary64
    number (its magnitude is below [overflow_60], about 1.08e310). *)
Definition well_shaped (item : json) : Prop :=
  exists v k e x,
    py_get item "line" = Ok v /\ py_hash v = Ok k /\
    py_get item "estimateArrive" = Ok e /\ seconds e = Some x /\
    Z.abs x < overflow_60.

(** [s] has the snapshot of [s0], and every line of it has empty [arrivals]
    and [distance] lists. *)
Definition all_cleared (s0 s : APIEMT) : Prop :=
  stop_info s = stop_info s0 /\
  forall k l, lines_get k (lines (stop_info s0)) = Some l ->
    stored_arrivals s k = Some [] /\ stored_distance s k = Some [].

(** The scalar entries of the dictionary [get_line_info] builds for a line
    the snapshot does not hold. *)
Definition placeholder (li : LineInfo) : Prop :=
  destination li = JNull /\ origin li = JNull /\ max_freq li = JNull /\
  min_freq li = JNull /\ start_time li = JNull /\ end_time li = JNull /\
  day_type li = JNull.

(** ** Further sample payloads *)

Definition login_ok : json :=
  JDict [("code", JStr "01");
         ("description", JStr "Token 3bd5855a extend into control-cache");
         ("data", JList [JDict [("accessToken", JStr "3bd5855a")]])].

(** A transport that accepts the login, and one that fails every request. *)
Definition accepting_server (i : nat) (r : request) : result json :=
  if String.eqb (method r) "POST" then
    Ok (arrivals_response [arrival_record "27" 30 120; arrival_record "27" 150 800])
  else if is_prefix (BASE_URL ++ ENDPOINT_LOGIN)%string (url r) then Ok login_ok
  else Ok stop_detail_ok.

Definition failing_server (i : nat) (r : request) : result json :=
  Raise (HTTPError "503 Server Error").

(** An arrivals answer without [data], and one whose first [data] entry has
    no [Arrive]. *)
Definition no_data : json := JDict [("code", JStr "00")].

Definition no_arrive : json :=
  JDict [("code", JStr "00"); ("data", JList [JDict [("Extra", JList [])]])].

(** Line 27 listed in both directions, then line 53. *)
Definition two_records : json :=
  JList [line_record "27" "A" "EMBAJADORES" "PLAZA CASTILLA";
         line_record "27" "B" "EMBAJADORES" "PLAZA CASTILLA";
         line_record "53" "B" "SOL SEVILLA" "ARTURO SORIA"].

(** The client after a login, and after the stop update that follows. *)
Definition authenticated : APIEMT :=
  snd (authenticate accepting_server "user" "secret" init).

Definition at_stop : APIEMT :=
  snd (update_stop_info accepting_server "72" authenticated).

(** * Properties *)

Local Open Scope list_scope.

(** ** What a computation leaves alone *)

Lemma keeps_bind {A B C} (field : APIEMT -> C) (m : M A) (k : A -> M B) :
  keeps field m -> (forall a, keeps field (k a)) -> keeps field (bind m k).
Proof.
  intros Hm Hk s. unfold bind. specialize (Hm s).
  destruct (m s) as [[a|e] s']; simpl in *; [|assumption].
  rewrite Hk. assumption.
Qed.

Lemma keeps_ret {A B} (field : APIEMT -> B) (a : A) : keeps field (ret a).
Proof. intros s. reflexivity. Qed.

Lemma keeps_raise {A B} (field : APIEMT -> B) e : keeps field (@raise A e).
Proof. intros s. reflexivity. Qed.

Lemma keeps_lift {A B} (field : APIEMT -> B) (r : result A) : keeps field (lift r).
Proof. intros s. reflexivity. Qed.

Lemma keeps_get_state {B} (field : APIEMT -> B) : keeps field get_state.
Proof. intros s. reflexivity. Qed.

Lemma keeps_modify {B} (field : APIEMT -> B) f :
  (forall s, field (f s) = field s) -> keeps field (modify f).
Proof. intros H s. apply H. Qed.

Lemma keeps_reraise {A B} (field : APIEMT -> B) msg (m : M A) :
  keeps field m -> keeps field (reraise_lookup msg m).
Proof.
  intros H s. unfold reraise_lookup. specialize (H s).
  destruct (m s) as [[a|[]] s']; assumption.
Qed.

Lemma keeps_if {A B} (field : APIEMT -> B) (b : bool) (m1 m2 : M A) :
  keeps field m1 -> keeps field m2 -> keeps field (if b then m1 else m2).
Proof. destruct b; auto. Qed.

(** Decomposes a [keeps] goal along the structure of the computation. *)
Create HintDb frame.

Ltac frame :=
  repeat first
    [ assumption
    | solve [ auto 2 with frame ]
    | apply keeps_ret | apply keeps_raise | apply keeps_lift
    | apply keeps_get_state
    | apply keeps_modify; solve [ auto | intros; reflexivity ]
    | apply keeps_reraise
    | apply keeps_if
    | apply keeps_bind; [ | intros ]
    | progress unfold log, write, list_append ].

Lemma keeps_alloc {B} (field : APIEMT -> B) o :
  (forall h s, field (set_store h s) = field s) -> keeps field (alloc o).
Proof. intros H s. apply H. Qed.

Lemma keeps_read_list {B} (field : APIEMT -> B) l : keeps field (read_list l).
Proof. intros s. unfold read_list. destruct (store s !! l) as [[]|]; reflexivity. Qed.

Lemma keeps_read_line {B} (field : APIEMT -> B) l : keeps field (read_line l).
Proof. intros s. unfold read_line. destruct (store s !! l) as [[]|]; reflexivity. Qed.

(** The computations below touch the state through the store only. *)
Ltac frame_store H :=
  repeat first
    [ apply keeps_read_list | apply keeps_read_line
    | apply keeps_alloc; exact H
    | apply keeps_modify; intros; apply H
    | progress frame ].

Lemma keeps_line_entry {B} (field : APIEMT -> B) line :
  (forall h s, field (set_store h s) = field s) -> keeps field (line_entry line).
Proof. intros H. unfold line_entry. frame_store H. Qed.
#[local] Hint Resolve keeps_line_entry : frame.

Lemma keeps_parse_lines_loop {B} (field : APIEMT -> B) items d :
  (forall h s, field (set_store h s) = field s) ->
  keeps field (parse_lines_loop items d).
Proof.
  intros H. revert d. induction items as [|line rest IH]; intros d; simpl.
  - frame.
  - pose proof (keeps_line_entry field line H). frame_store H.
Qed.

Lemma keeps_parse_lines {B} (field : APIEMT -> B) v :
  (forall h s, field (set_store h s) = field s) -> keeps field (parse_lines v).
Proof.
  intros H. unfold parse_lines. frame. apply keeps_parse_lines_loop, H.
Qed.
#[local] Hint Resolve keeps_parse_lines : frame.

Lemma keeps_clear_lines {B} (field : APIEMT -> B) values :
  (forall h s, field (set_store h s) = field s) -> keeps field (clear_lines values).
Proof.
  intros H. induction values as [|l rest IH]; simpl; frame_store H.
Qed.
#[local] Hint Resolve keeps_clear_lines : frame.

Lemma keeps_store_arrival {B} (field : APIEMT -> B) arrival :
  (forall h s, field (set_store h s) = field s) -> keeps field (store_arrival arrival).
Proof.
  intros H. unfold store_arrival. frame_store H.
  match goal with |- keeps _ (match ?o with _ => _ end) => destruct o end;
    frame_store H.
Qed.
#[local] Hint Resolve keeps_store_arrival : frame.

Lemma keeps_store_arrivals {B} (field : APIEMT -> B) items :
  (forall h s, field (set_store h s) = field s) -> keeps field (store_arrivals items).
Proof.
  intros H. induction items as [|a rest IH]; cbn [store_arrivals].
  - apply keeps_ret.
  - apply keeps_bind; [apply keeps_store_arrival, H | intros; apply IH].
Qed.
#[local] Hint Resolve keeps_store_arrivals : frame.

Lemma keeps_rebuild_arrivals {B} (field : APIEMT -> B) response :
  (forall h s, field (set_store h s) = field s) ->
  keeps field (rebuild_arrivals response).
Proof.
  intros H. unfold rebuild_arrivals. frame.
Qed.
#[local] Hint Resolve keeps_rebuild_arrivals : frame.

Lemma _parse_stop_info_keeps_sent response stop_id :
  keeps sent (_parse_stop_info response stop_id).
Proof.
  unfold _parse_stop_info. frame.
Qed.

Lemma _parse_arrivals_keeps_sent response : keeps sent (_parse_arrivals response).
Proof.
  unfold _parse_arrivals. frame.
Qed.

(** ** The guard on the stored token *)

Lemma update_stop_info_guard server stop_id s :
  update_stop_info server stop_id s =
  if str_eq (token s) "Invalid token" then (Ok tt, s)
  else answered (server (length (sent s)) (stop_request (token s) stop_id))
         (set_sent (sent s ++ [stop_request (token s) stop_id]) s)
         (fun response => _parse_stop_info response stop_id).
Proof.
  unfold update_stop_info, bind at 1, get_state.
  destruct (str_eq (token s) "Invalid token"); [reflexivity|].
  cbv beta iota delta [negb].
  unfold _make_request, bind, get_state, modify, ret, lift, raise.
  cbn [String.eqb Ascii.eqb Bool.eqb orb negb].
  unfold stop_request, answered.
  destruct (server _ _) as [response|[]]; reflexivity.
Qed.

Lemma update_arrival_times_guard server stop s :
  update_arrival_times server stop s =
  if str_eq (token s) "Invalid token" then (Ok tt, s)
  else answered (server (length (sent s)) (arrivals_request (token s) stop))
         (set_sent (sent s ++ [arrivals_request (token s) stop]) s)
         (fun response => _parse_arrivals response).
Proof.
  unfold update_arrival_times, bind at 1, get_state.
  destruct (str_eq (token s) "Invalid token"); [reflexivity|].
  cbv beta iota delta [negb].
  unfold _make_request, bind, get_state, modify, ret, lift, raise.
  cbn [String.eqb Ascii.eqb Bool.eqb orb negb].
  unfold arrivals_request, answered.
  destruct (server _ _) as [response|[]]; reflexivity.
Qed.

Lemma sent_answered {A} answer s1 (k : json -> M A) :
  (forall response, keeps sent (k response)) ->
  sent (snd (answered answer s1 k)) = sent s1.
Proof.
  intros H. unfold answered. destruct answer as [response|[]]; try reflexivity.
  apply H.
Qed.

(** C6: when the stored token is the invalid-token marker, [update_stop_info]
    and [update_arrival_times] return at once and leave the whole state as
    it was: token, snapshot, store, log, and the list of requests sent. *)
Theorem updates_are_noops_on_invalid_token server stop_id s :
  token s = JStr "Invalid token" ->
  update_stop_info server stop_id s = (Ok tt, s) /\
  update_arrival_times server stop_id s = (Ok tt, s).
Proof.
  intros H. rewrite update_stop_info_guard, update_arrival_times_guard, H.
  split; reflexivity.
Qed.

(** Scenario of the specification: a rejected login stores the marker, and
    the update that follows leaves the snapshot's lines empty. *)
Lemma updates_are_noops_on_invalid_token_witness :
  let s := snd (authenticate sample_server "user" "wrong" init) in
  token s = JStr "Invalid token" /\
  lines (stop_info s) = [] /\
  update_stop_info sample_server "1234" s = (Ok tt, s) /\
  update_arrival_times sample_server "1234" s = (Ok tt, s).
Proof.
  intros s. split; [reflexivity|]. split; [reflexivity|].
  apply (updates_are_noops_on_invalid_token sample_server "1234" s).
  reflexivity.
Defined.

(** ** Error codes *)

Ltac run :=
  unfold handle_signals, reraise_lookup, bind, lift, ret, raise, log, modify,
    get_state.

Lemma parse_arrivals_code_80 response d s :
  py_get response "code" = Ok (JStr "80") ->
  py_get response "description" = Ok (JStr d) ->
  parse_arrivals response s =
  if contains "token" d
  then (Ok (Value invalid_token_marker), warn "Invalid or expired token" s)
  else (Ok (Value JNull), warn "Bus Stop disabled or does not exist" s).
Proof.
  intros Hc Hd. unfold parse_arrivals. run. rewrite Hc.
  cbn [str_eq String.eqb Ascii.eqb Bool.eqb]. rewrite Hd. cbn [py_in].
  destruct (contains "token" d); reflexivity.
Qed.

(** Without a [description] entry the membership test of [parse_arrivals]
    is applied to [None] and raises. *)
Lemma parse_arrivals_code_80_no_description response d s :
  response = JDict d ->
  dict_lookup "code" d = Some (JStr "80") ->
  dict_lookup "description" d = None ->
  parse_arrivals response s = (Raise TypeError, s).
Proof.
  intros -> Hc Hd. unfold parse_arrivals. run.
  cbn [py_get py_get_default]. rewrite Hc, Hd. reflexivity.
Qed.

Lemma _parse_arrivals_code_80 response s :
  py_get response "code" = Ok (JStr "80") ->
  _parse_arrivals response s =
  (Ok tt, warn "Bus Stop disabled or does not exist" s).
Proof. intros Hc. unfold _parse_arrivals. run. rewrite Hc. reflexivity. Qed.

Lemma parse_stop_info_code_80 response s :
  py_get response "code" = Ok (JStr "80") ->
  parse_stop_info response s =
  (Ok (Value invalid_token_marker), warn "Invalid or expired token" s).
Proof. intros Hc. unfold parse_stop_info. run. rewrite Hc. reflexivity. Qed.

Lemma parse_stop_info_code_90 response s :
  py_get response "code" = Ok (JStr "90") ->
  parse_stop_info response s =
  (Ok (Value JNull), warn "Bus Stop disabled or does not exist" s).
Proof. intros Hc. unfold parse_stop_info. run. rewrite Hc. reflexivity. Qed.

Lemma _parse_stop_info_not_00 response c stop_id s :
  py_get response "code" = Ok c -> str_eq c "00" = false ->
  _parse_stop_info response stop_id s =
  (Ok tt, warn "Bus stop disabled or does not exist" s).
Proof.
  intros Hc Hn. unfold _parse_stop_info. run. rewrite Hc, Hn. reflexivity.
Qed.

(** C3: on an arrivals answer with code "80" and a string description,
    [parse_arrivals] tests the description first: with "token" in it the
    result is the invalid-token marker, without it [None] (stop disabled); in
    both cases only a warning is logged and the snapshot is untouched.  The
    method [APIEMT._parse_arrivals] has the stop-disabled outcome for every
    description: it has no invalid-token branch. *)
Theorem arrivals_code_80_branching response d s :
  py_get response "code" = Ok (JStr "80") ->
  py_get response "description" = Ok (JStr d) ->
  (contains "token" d = true ->
   parse_arrivals response s =
   (Ok (Value invalid_token_marker), warn "Invalid or expired token" s)) /\
  (contains "token" d = false ->
   parse_arrivals response s =
   (Ok (Value JNull), warn "Bus Stop disabled or does not exist" s)) /\
  _parse_arrivals response s =
  (Ok tt, warn "Bus Stop disabled or does not exist" s).
Proof.
  intros Hc Hd. rewrite (parse_arrivals_code_80 _ _ _ Hc Hd).
  rewrite (_parse_arrivals_code_80 _ _ Hc).
  repeat split; intros ->; reflexivity.
Qed.

Lemma arrivals_code_80_branching_witness :
  py_get token_expired "code" = Ok (JStr "80") /\
  py_get token_expired "description" =
    Ok (JStr "Invalid token: token not found in cache") /\
  parse_arrivals token_expired init =
    (Ok (Value invalid_token_marker), warn "Invalid or expired token" init) /\
  _parse_arrivals token_expired init =
    (Ok tt, warn "Bus Stop disabled or does not exist" init).
Proof.
  split; [reflexivity|]. split; [reflexivity|].
  destruct (arrivals_code_80_branching token_expired
              "Invalid token: token not found in cache" init eq_refl eq_refl)
    as (Htoken & _ & Hmethod).
  split; [apply Htoken; reflexivity | exact Hmethod].
Defined.

(** C4: on a stop-detail answer with code "80", [parse_stop_info] returns the
    invalid-token marker, a value and not an exception, which differs from
    the [None] it returns for a disabled stop (code "90").  The method
    [APIEMT._parse_stop_info] treats code "80" like every code other than
    "00": it logs the stop-disabled warning and returns nothing, exactly as
    for code "90". *)
Theorem invalid_token_on_stop_info response response' stop_id s :
  py_get response "code" = Ok (JStr "80") ->
  py_get response' "code" = Ok (JStr "90") ->
  parse_stop_info response s =
    (Ok (Value invalid_token_marker), warn "Invalid or expired token" s) /\
  fst (parse_stop_info response s) <> fst (parse_stop_info response' s) /\
  _parse_stop_info response stop_id s =
    (Ok tt, warn "Bus stop disabled or does not exist" s) /\
  _parse_stop_info response stop_id s = _parse_stop_info response' stop_id s.
Proof.
  intros Hc Hc'.
  rewrite (parse_stop_info_code_80 _ _ Hc), (parse_stop_info_code_90 _ _ Hc').
  rewrite (_parse_stop_info_not_00 _ _ _ _ Hc eq_refl).
  rewrite (_parse_stop_info_not_00 _ _ _ _ Hc' eq_refl).
  repeat split. discriminate.
Qed.

Lemma invalid_token_on_stop_info_witness :
  let response := JDict [("code", JStr "80"); ("description", JStr "Invalid token")] in
  let response' := JDict [("code", JStr "90"); ("description", JStr "Bus stop disabled")] in
  py_get response "code" = Ok (JStr "80") /\
  py_get response' "code" = Ok (JStr "90") /\
  parse_stop_info response init =
    (Ok (Value invalid_token_marker), warn "Invalid or expired token" init) /\
  _parse_stop_info response "72" init = _parse_stop_info response' "72" init.
Proof.
  intros response response'.
  split; [reflexivity|]. split; [reflexivity|].
  destruct (invalid_token_on_stop_info response response' "72" init eq_refl eq_refl)
    as (Hmarker & _ & _ & Hsame).
  split; [exact Hmarker | exact Hsame].
Defined.

(** ** Token extraction *)

Lemma _extract_token_lacking response s :
  py_get response "code" = Ok (JStr "01") ->
  lacks_token response ->
  _extract_token response s =
  (Raise (ValueError "Unable to get token from the API"), s).
Proof.
  intros Hc H. unfold _extract_token. run. rewrite Hc.
  cbn [str_eq String.eqb Ascii.eqb Bool.eqb negb].
  destruct H as [H|[H|(d & rest & H & Hd)]]; rewrite H; try reflexivity.
  cbn [py_index0 py_getitem]. rewrite Hd. reflexivity.
Qed.

Lemma parse_token_lacking response d rest s :
  py_get response "code" = Ok (JStr "01") ->
  py_getitem response "data" = Ok (JList (JDict d :: rest)) ->
  dict_lookup "accessToken" d = None ->
  parse_token response s = (Ok JNull, s).
Proof.
  intros Hc H Hd. unfold parse_token. run. rewrite Hc.
  cbn [str_eq String.eqb Ascii.eqb Bool.eqb]. rewrite H.
  cbn [py_index0 py_get py_get_default]. rewrite Hd. reflexivity.
Qed.

(** Without a [data] entry, or with an empty one, [parse_token] lets the
    lookup error through as it is. *)
Lemma parse_token_without_data response s :
  py_get response "code" = Ok (JStr "01") ->
  (py_getitem response "data" = Raise KeyError ->
   parse_token response s = (Raise KeyError, s)) /\
  (py_getitem response "data" = Ok (JList []) ->
   parse_token response s = (Raise IndexError, s)).
Proof.
  intros Hc. unfold parse_token. run. rewrite Hc.
  cbn [str_eq String.eqb Ascii.eqb Bool.eqb].
  split; intros ->; reflexivity.
Qed.

(** C8: on a login answer with the success code "01" that lacks its payload,
    [APIEMT._extract_token] raises [ValueError("Unable to get token from the
    API")] and stores nothing.  [parse_token] does not: for a first [data]
    entry without [accessToken] it returns [None], the value it also returns
    for rejected credentials, and raises nothing. *)
Theorem token_extraction_without_payload response s :
  py_get response "code" = Ok (JStr "01") ->
  lacks_token response ->
  _extract_token response s =
    (Raise (ValueError "Unable to get token from the API"), s) /\
  (forall d rest,
     py_getitem response "data" = Ok (JList (JDict d :: rest)) ->
     dict_lookup "accessToken" d = None ->
     parse_token response s = (Ok JNull, s)).
Proof.
  intros Hc H. split.
  - apply _extract_token_lacking; assumption.
  - intros d rest Hdata Hd. eapply parse_token_lacking; eassumption.
Qed.

Lemma token_extraction_without_payload_witness :
  let response := JDict [("code", JStr "01"); ("data", JList [JDict []])] in
  py_get response "code" = Ok (JStr "01") /\
  lacks_token response /\
  _extract_token response init =
    (Raise (ValueError "Unable to get token from the API"), init) /\
  parse_token response init = (Ok JNull, init) /\
  fst (parse_token login_rejected init) = Ok JNull.
Proof.
  intros response.
  assert (Hl : lacks_token response).
  { right. right. exists [], []. split; reflexivity. }
  split; [reflexivity|]. split; [exact Hl|].
  destruct (token_extraction_without_payload response init eq_refl Hl)
    as (Hmethod & Hfree).
  split; [exact Hmethod|]. split; [|reflexivity].
  apply (Hfree [] []); reflexivity.
Defined.

(** ** The store *)

Lemma set_store_same s : set_store (store s) s = s.
Proof. destruct s; reflexivity. Qed.

Lemma list_at_lt s a xs : list_at s a = Some xs -> (a < length (store s))%nat.
Proof.
  unfold list_at. intros H.
  destruct (store s !! a) eqn:E; [|discriminate].
  eapply lookup_lt_Some, E.
Qed.

Lemma list_at_store s a xs : list_at s a = Some xs <-> store s !! a = Some (PyList xs).
Proof.
  unfold list_at. destruct (store s !! a) as [[]|]; split; congruence.
Qed.

Lemma line_at_store s l li : line_at s l = Some li <-> store s !! l = Some (PyLine li).
Proof.
  unfold line_at. destruct (store s !! l) as [[]|]; split; congruence.
Qed.

Lemma with_list_same s a xs : list_at s a = Some xs -> with_list a xs s = s.
Proof.
  intros H. unfold with_list. apply list_at_store in H.
  rewrite list_insert_id by assumption. apply set_store_same.
Qed.

Lemma list_at_with_list_eq s a xs ys :
  list_at s a = Some xs -> list_at (with_list a ys s) a = Some ys.
Proof.
  intros H. apply list_at_lt in H. apply list_at_store.
  apply list_lookup_insert_eq. assumption.
Qed.

Lemma list_at_with_list_ne s a b ys :
  a <> b -> list_at (with_list a ys s) b = list_at s b.
Proof.
  intros H. unfold list_at, with_list. simpl.
  rewrite list_lookup_insert_ne by assumption. reflexivity.
Qed.

Lemma line_at_with_list s a xs ys l :
  list_at s a = Some xs -> line_at (with_list a ys s) l = line_at s l.
Proof.
  intros H. destruct (decide (a = l)) as [->|Hne].
  - unfold line_at. apply list_at_store in H as H'. rewrite H'.
    apply (list_at_with_list_eq _ _ _ ys), list_at_store in H. rewrite H. reflexivity.
  - unfold line_at, with_list. simpl.
    rewrite list_lookup_insert_ne by assumption. reflexivity.
Qed.

Lemma with_list_twice s a xs ys : with_list a ys (with_list a xs s) = with_list a ys s.
Proof.
  unfold with_list, set_store. simpl. rewrite list_insert_insert_eq. reflexivity.
Qed.

Lemma list_append_known s a xs x :
  list_at s a = Some xs ->
  list_append a x s = (Ok tt, with_list a (xs ++ [x]) s).
Proof.
  intros H. apply list_at_store in H.
  unfold list_append, bind, read_list, write, modify. rewrite H. reflexivity.
Qed.

Lemma read_list_known s a xs : list_at s a = Some xs -> read_list a s = (Ok xs, s).
Proof. intros H. apply list_at_store in H. unfold read_list. rewrite H. reflexivity. Qed.

Lemma read_line_known s l li : line_at s l = Some li -> read_line l s = (Ok li, s).
Proof. intros H. apply line_at_store in H. unfold read_line. rewrite H. reflexivity. Qed.

Lemma pad_arrivals_runs s a xs :
  list_at s a = Some xs ->
  pad_arrivals 2 a s = (Ok tt, with_list a (padded xs) s).
Proof.
  intros H. unfold padded.
  destruct xs as [|x [|y xs]].
  - cbn [pad_arrivals]. unfold bind at 1. rewrite (read_list_known _ _ _ H).
    cbn [length Nat.ltb Nat.leb]. unfold bind at 1.
    rewrite (list_append_known _ _ _ _ H). 
    pose proof (list_at_with_list_eq _ _ _ ([] ++ [JNull]) H) as H1.
    unfold bind at 1. rewrite (read_list_known _ _ _ H1).
    cbn [length app Nat.ltb Nat.leb]. unfold bind at 1.
    rewrite (list_append_known _ _ _ _ H1). 
    pose proof (list_at_with_list_eq _ _ _ (([] ++ [JNull]) ++ [JNull]) H1) as H2.
    unfold bind at 1. rewrite (read_list_known _ _ _ H2).
    rewrite with_list_twice. reflexivity.
  - cbn [pad_arrivals]. unfold bind at 1. rewrite (read_list_known _ _ _ H).
    cbn [length Nat.ltb Nat.leb]. unfold bind at 1.
    rewrite (list_append_known _ _ _ _ H). 
    pose proof (list_at_with_list_eq _ _ _ ([x] ++ [JNull]) H) as H1.
    unfold bind at 1. rewrite (read_list_known _ _ _ H1). reflexivity.
  - cbn [pad_arrivals]. unfold bind at 1. rewrite (read_list_known _ _ _ H).
    cbn [length Nat.ltb Nat.leb]. 
    replace (2 - _)%nat with 0%nat by (simpl; lia). cbn [replicate]. rewrite app_nil_r.
    rewrite with_list_same by assumption. reflexivity.
Qed.

(** ** The accessors *)

Lemma get_arrival_time_known s line k l li xs :
  py_hash line = Ok k ->
  lines_get k (lines (stop_info s)) = Some l ->
  line_at s l = Some li ->
  list_at s (arrivals li) = Some xs ->
  get_arrival_time line s = (Ok (arrivals li), with_list (arrivals li) (padded xs) s).
Proof.
  intros Hk Hl Hli Hxs. unfold get_arrival_time, bind at 1, lift. rewrite Hk.
  unfold bind at 1, get_state. rewrite Hl.
  unfold bind at 1. rewrite (read_line_known _ _ _ Hli).
  unfold bind. rewrite (pad_arrivals_runs _ _ _ Hxs). reflexivity.
Qed.

Lemma get_arrival_time_unknown s line k :
  py_hash line = Ok k ->
  lines_get k (lines (stop_info s)) = None ->
  get_arrival_time line s =
  (Ok (length (store s)), set_store (store s ++ [PyList [JNull; JNull]]) s).
Proof.
  intros Hk Hl. unfold get_arrival_time, bind at 1, lift. rewrite Hk.
  unfold bind at 1, get_state. rewrite Hl. reflexivity.
Qed.

Lemma get_line_info_known s line k l li ys :
  py_hash line = Ok k ->
  lines_get k (lines (stop_info s)) = Some l ->
  line_at s l = Some li ->
  list_at s (distance li) = Some ys ->
  get_line_info line s =
  (Ok l, match ys with [] => with_list (distance li) [JNull] s | _ => s end).
Proof.
  intros Hk Hl Hli Hys. unfold get_line_info, bind at 1, get_state.
  unfold bind at 1, lift. rewrite Hk, Hl.
  unfold bind at 1. rewrite (read_line_known _ _ _ Hli).
  unfold bind at 1. rewrite (read_list_known _ _ _ Hys).
  destruct ys as [|y ys]; cbn [length Nat.eqb].
  - unfold bind. rewrite (list_append_known _ _ _ _ Hys). reflexivity.
  - reflexivity.
Qed.

Lemma known_line_with_list s a xs ys k :
  list_at s a = Some xs -> known_line (with_list a ys s) k = known_line s k.
Proof.
  intros H. unfold known_line. 
  change (stop_info (with_list a ys s)) with (stop_info s).
  destruct (lines_get k (lines (stop_info s))); [|reflexivity].
  eapply line_at_with_list, H.
Qed.

Lemma padded_length xs : length (padded xs) = Nat.max 2 (length xs).
Proof. unfold padded. rewrite length_app, length_replicate. lia. Qed.

Lemma padded_long xs : (2 <= length xs)%nat -> padded xs = xs.
Proof.
  intros H. unfold padded. replace (2 - length xs)%nat with 0%nat by lia.
  apply app_nil_r.
Qed.

(** C9: the two accessors write to the list objects the snapshot holds.  For
    a known line with fewer than two stored arrivals, [get_arrival_time]
    returns the reference held in the line's [arrivals] entry, and the list
    at that reference has the nulls appended; for a known line with an empty
    stored distance list, [get_line_info] returns the stored line dictionary,
    whose [distance] list now holds one null.  The snapshot that
    [get_stop_info] returns afterwards shows the padded lists. *)
Theorem accessors_pad_in_place s line k l li :
  py_hash line = Ok k ->
  lines_get k (lines (stop_info s)) = Some l ->
  line_at s l = Some li ->
  (forall xs, list_at s (arrivals li) = Some xs -> (length xs < 2)%nat ->
     exists s',
       get_arrival_time line s = (Ok (arrivals li), s') /\
       list_at s' (arrivals li) = Some (padded xs) /\
       line_at s' l = Some li /\
       get_stop_info s' = (Ok (stop_info s), s') /\
       stored_arrivals s' k = Some (padded xs)) /\
  (list_at s (distance li) = Some [] ->
     exists s',
       get_line_info line s = (Ok l, s') /\
       list_at s' (distance li) = Some [JNull] /\
       line_at s' l = Some li /\
       get_stop_info s' = (Ok (stop_info s), s') /\
       stored_distance s' k = Some [JNull]).
Proof.
  intros Hk Hl Hli. split.
  - intros xs Hxs _. eexists. split; [eapply get_arrival_time_known; eassumption|].
    pose proof (list_at_with_list_eq _ _ _ (padded xs) Hxs) as Hp.
    assert (Hline : line_at (with_list (arrivals li) (padded xs) s) l = Some li)
      by (rewrite (line_at_with_list _ _ _ _ _ Hxs); assumption).
    repeat split; try assumption.
    unfold stored_arrivals, known_line.
    change (stop_info (with_list _ _ s)) with (stop_info s).
    rewrite Hl, Hline. assumption.
  - intros Hys. eexists. split; [eapply get_line_info_known; eassumption|].
    pose proof (list_at_with_list_eq _ _ _ [JNull] Hys) as Hp.
    assert (Hline : line_at (with_list (distance li) [JNull] s) l = Some li)
      by (rewrite (line_at_with_list _ _ _ _ _ Hys); assumption).
    repeat split; try assumption.
    unfold stored_distance, known_line.
    change (stop_info (with_list _ _ s)) with (stop_info s).
    rewrite Hl, Hline. assumption.
Qed.

Lemma accessors_pad_in_place_witness :
  py_hash (JStr "27") = Ok (KStr "27") /\
  lines_get (KStr "27") (lines (stop_info sample_stop)) = Some 2%nat /\
  line_at sample_stop 2%nat = Some sample_line_27 /\
  list_at sample_stop 1%nat = Some [] /\
  list_at sample_stop 0%nat = Some [] /\
  (exists s', get_arrival_time (JStr "27") sample_stop = (Ok 1%nat, s') /\
              stored_arrivals s' (KStr "27") = Some [JNull; JNull]) /\
  (exists s', get_line_info (JStr "27") sample_stop = (Ok 2%nat, s') /\
              stored_distance s' (KStr "27") = Some [JNull]).
Proof.
  do 5 (split; [reflexivity|]).
  destruct (accessors_pad_in_place sample_stop (JStr "27") (KStr "27") 2%nat
              sample_line_27 eq_refl eq_refl eq_refl) as [Ha Hd].
  split.
  - destruct (Ha [] eq_refl) as (s' & Hget & _ & _ & _ & Hs); [simpl; lia|].
    exists s'. split; assumption.
  - destruct (Hd eq_refl) as (s' & Hget & _ & _ & _ & Hs).
    exists s'. split; assumption.
Defined.

Lemma list_at_alloc s o : store (set_store (store s ++ [o]) s) !! length (store s) = Some o.
Proof. simpl. apply list_lookup_middle. reflexivity. Qed.

(** C2, as the code has it: for a line the snapshot knows, [get_arrival_time]
    returns the stored arrivals list itself, with nulls appended when it
    held fewer than two values, so that the result has two elements or more:
    a list that held more than two values is returned whole, nothing is cut.
    For a line it does not know, and whatever the snapshot holds, it returns
    a new list of two nulls. *)
Theorem get_arrival_time_pads s line k :
  py_hash line = Ok k ->
  (forall l li xs,
     lines_get k (lines (stop_info s)) = Some l ->
     line_at s l = Some li ->
     list_at s (arrivals li) = Some xs ->
     exists s',
       get_arrival_time line s = (Ok (arrivals li), s') /\
       list_at s' (arrivals li) = Some (padded xs) /\
       length (padded xs) = Nat.max 2 (length xs) /\
       ((2 <= length xs)%nat -> padded xs = xs /\ s' = s)) /\
  (lines_get k (lines (stop_info s)) = None ->
     exists a s',
       get_arrival_time line s = (Ok a, s') /\
       list_at s' a = Some [JNull; JNull] /\
       stop_info s' = stop_info s).
Proof.
  intros Hk. split.
  - intros l li xs Hl Hli Hxs. eexists.
    split; [eapply get_arrival_time_known; eassumption|].
    split; [eapply list_at_with_list_eq; eassumption|].
    split; [apply padded_length|].
    intros Hlong. split; [apply padded_long, Hlong|].
    rewrite padded_long by assumption. apply with_list_same, Hxs.
  - intros Hl. do 2 eexists.
    split; [eapply get_arrival_time_unknown; eassumption|].
    split; [|reflexivity].
    apply list_at_store, list_at_alloc.
Qed.

Lemma get_arrival_time_pads_witness :
  py_hash (JStr "27") = Ok (KStr "27") /\
  (exists s', get_arrival_time (JStr "27") sample_stop = (Ok 1%nat, s') /\
              list_at s' 1%nat = Some [JNull; JNull]) /\
  (exists a s', get_arrival_time (JStr "27") init = (Ok a, s') /\
                list_at s' a = Some [JNull; JNull]).
Proof.
  split; [reflexivity|].
  split.
  - destruct (get_arrival_time_pads sample_stop (JStr "27") (KStr "27") eq_refl)
      as [Hknown _].
    destruct (Hknown 2%nat sample_line_27 [] eq_refl eq_refl eq_refl)
      as (s' & Hget & Hlist & _).
    exists s'. split; assumption.
  - destruct (get_arrival_time_pads init (JStr "27") (KStr "27") eq_refl)
      as [_ Hunknown].
    destruct (Hunknown eq_refl) as (a & s' & Hget & Hlist & _).
    exists a, s'. split; assumption.
Defined.

(** C2 as stated fails: with three buses stored for line 27 the result has
    three elements, not two. *)
Lemma get_arrival_time_not_truncated :
  stored_arrivals sample_three (KStr "27") = Some [JInt 0; JInt 2; JInt 5] /\
  exists a s' xs,
    get_arrival_time (JStr "27") sample_three = (Ok a, s') /\
    list_at s' a = Some xs /\
    xs = [JInt 0; JInt 2; JInt 5] /\
    length xs <> 2%nat.
Proof.
  split; [reflexivity|].
  exists 6%nat, sample_three, [JInt 0; JInt 2; JInt 5].
  split; [vm_compute; reflexivity|]. split; [reflexivity|].
  split; [reflexivity|]. simpl. lia.
Qed.

(** ** Successful runs *)

Lemma bind_ok {A B} (m : M A) (k : A -> M B) s b s' :
  bind m k s = (Ok b, s') ->
  exists a s1, m s = (Ok a, s1) /\ k a s1 = (Ok b, s').
Proof.
  unfold bind. destruct (m s) as [[a|e] s1]; [eauto | discriminate].
Qed.

Lemma lift_ok {A} (r : result A) s a s' :
  lift r s = (Ok a, s') -> r = Ok a /\ s' = s.
Proof. unfold lift. intros H. inversion H. auto. Qed.

Lemma ret_ok {A} (x : A) s a s' : ret x s = (Ok a, s') -> a = x /\ s' = s.
Proof. unfold ret. intros H. inversion H. auto. Qed.

Lemma alloc_ok o s l s' :
  alloc o s = (Ok l, s') -> l = length (store s) /\ s' = set_store (store s ++ [o]) s.
Proof. unfold alloc. intros H. inversion H. auto. Qed.

Lemma get_state_ok s a s' : get_state s = (Ok a, s') -> a = s /\ s' = s.
Proof. unfold get_state. intros H. inversion H. auto. Qed.

(** Splits a successful run into the successful runs of its steps. *)
Ltac step H :=
  let a := fresh "a" in
  let s1 := fresh "s" in
  let H1 := fresh "Hstep" in
  apply bind_ok in H as (a & s1 & H1 & H);
  lazymatch type of H1 with
  | lift _ _ = _ => apply lift_ok in H1 as [H1 ->]
  | get_state _ = _ => apply get_state_ok in H1 as [-> ->]
  | alloc _ _ = _ => apply alloc_ok in H1 as [-> ->]
  | _ => idtac
  end.

(** ** [int] on strings *)

Lemma py_int_samples :
  py_int (JStr " 12 ") = Ok 12 /\
  py_int (JStr "-1_000") = Ok (-1000) /\
  py_int (JStr "007") = Ok 7 /\
  py_int (JStr "1__0") = Raise (InvalidLiteral "1__0") /\
  py_int (JStr "12a") = Raise (InvalidLiteral "12a") /\
  (* U+001C before a digit *)
  py_int (JStr (String (ascii_of_N 28) "7")) =
    Raise (InvalidLiteral (String (ascii_of_N 28) "7")) /\
  (* U+00A0, then the Arabic-Indic digit three, U+0663 *)
  py_int (JStr (String (ascii_of_N 194) (String (ascii_of_N 160)
                 (String (ascii_of_N 217) (String (ascii_of_N 163) ""))))) = Ok 3.
Proof. repeat split; vm_compute; reflexivity. Qed.

(** ** Line records *)

Lemma str_eq_true v t : str_eq v t = true <-> v = JStr t.
Proof.
  destruct v; simpl; try (split; [discriminate | intros H; discriminate H]).
  rewrite String.eqb_eq. split; congruence.
Qed.

Lemma str_eq_false v t : str_eq v t = false <-> v <> JStr t.
Proof.
  rewrite <- str_eq_true. destruct (str_eq v t); split; congruence.
Qed.

Lemma line_entry_swapped line s li s' :
  line_entry line s = (Ok li, s') -> swapped line li /\ extends s s'.
Proof.
  unfold line_entry. intros H.
  step H. step H. step H. step H. step H. step H. step H. step H. step H.
  step H. step H. step H. step H.
  apply ret_ok in H as [-> ->]. split.
  - exists a. split; [assumption|]. cbn [destination origin].
    rewrite Hstep1 in Hstep. injection Hstep as ->.
    split; [|split].
    + intros ->. simpl in Hstep0, Hstep2. auto.
    + intros ->. simpl in Hstep0, Hstep2. auto.
    + intros HA HB. apply str_eq_false in HA, HB. rewrite HA in Hstep0.
      rewrite HB in Hstep2. auto.
  - eexists. simpl. rewrite <- app_assoc. reflexivity.
Qed.

Lemma extends_refl s : extends s s.
Proof. exists []. symmetry. apply app_nil_r. Qed.

Lemma extends_trans s1 s2 s3 : extends s1 s2 -> extends s2 s3 -> extends s1 s3.
Proof.
  intros [e1 H1] [e2 H2]. exists (e1 ++ e2)%list. rewrite H2, H1.
  symmetry. apply app_assoc.
Qed.

Lemma extends_alloc s o : extends s (set_store (store s ++ [o]) s).
Proof. eexists. reflexivity. Qed.

Lemma line_at_extends s s' l li :
  extends s s' -> line_at s l = Some li -> line_at s' l = Some li.
Proof.
  intros [ext H] Hl. apply line_at_store. rewrite H.
  apply lookup_app_l_Some. apply line_at_store, Hl.
Qed.

Lemma key_eqb_eq a b : key_eqb a b = true <-> a = b.
Proof.
  destruct a, b; simpl; try (split; [discriminate | intros H; discriminate H]).
  - tauto.
  - rewrite Z.eqb_eq. split; congruence.
  - rewrite String.eqb_eq. split; congruence.
Qed.

Lemma lines_get_set k k' l d :
  lines_get k (lines_set k' l d) =
  if key_eqb k k' then Some l else lines_get k d.
Proof.
  induction d as [|[k0 l0] d IH]; simpl.
  - reflexivity.
  - destruct (key_eqb k' k0) eqn:E0; simpl.
    + apply key_eqb_eq in E0 as ->. destruct (key_eqb k k0); reflexivity.
    + rewrite IH. destruct (key_eqb k k0) eqn:E1; [|reflexivity].
      apply key_eqb_eq in E1 as ->.
      destruct (key_eqb k0 k') eqn:E2; [|reflexivity].
      apply key_eqb_eq in E2 as ->.
      assert (key_eqb k' k' = true) by (apply key_eqb_eq; reflexivity). congruence.
Qed.

Lemma parse_lines_loop_parsed all items d0 s d s' :
  (forall line, In line items -> In line all) ->
  (forall k l, lines_get k d0 = Some l -> parsed_from all s k l) ->
  parse_lines_loop items d0 s = (Ok d, s') ->
  forall k l, lines_get k d = Some l -> parsed_from all s' k l.
Proof.
  revert d0 s. induction items as [|line rest IH]; intros d0 s Hin Hd0 H.
  - apply ret_ok in H as [-> ->]. assumption.
  - cbn [parse_lines_loop] in H.
    step H. apply bind_ok in H as (entry & s1 & Hentry & H).
    step H. step H.
    apply line_entry_swapped in Hentry as [Hswap Hext].
    eapply IH; [| |exact H].
    + intros line' Hl. apply Hin. right. assumption.
    + intros k l. rewrite lines_get_set.
      destruct (key_eqb k a0) eqn:E.
      * apply key_eqb_eq in E as ->. intros [= <-].
        exists line, entry. split; [apply Hin; left; reflexivity|].
        split; [rewrite Hstep; assumption|]. split; [|assumption].
        apply line_at_store. simpl. apply list_lookup_middle. reflexivity.
      * intros Hl. destruct (Hd0 k l Hl) as (line' & li & ? & ? & Hat & ?).
        exists line', li. repeat split; try assumption.
        eapply line_at_extends; [|exact Hat].
        eapply extends_trans; [exact Hext | apply extends_alloc].
Qed.

(** C1, as the code has it: every line dictionary that [parse_lines] returns
    was built from a record of the input with that label, and for that
    record: direction "A" gives destination = headerA and origin = headerB;
    direction "B" gives destination = headerB and origin = headerA; any
    other direction gives destination = headerB and origin = headerB. *)
Theorem parse_lines_swap dataLine s d s' :
  parse_lines dataLine s = (Ok d, s') ->
  exists items,
    py_iter dataLine = Ok items /\
    forall k l, lines_get k d = Some l -> parsed_from items s' k l.
Proof.
  unfold parse_lines. intros H. step H. exists a. split; [assumption|].
  eapply parse_lines_loop_parsed; [| |exact H]; [auto|].
  intros k l Hl. discriminate Hl.
Qed.

Lemma parse_lines_swap_witness :
  let dataLine := JList [line_record "27" "A" "EMBAJADORES" "PLAZA CASTILLA";
                         line_record "53" "B" "SOL SEVILLA" "ARTURO SORIA"] in
  exists s',
    parse_lines dataLine init = (Ok [(KStr "27", 2%nat); (KStr "53", 5%nat)], s') /\
    parsed_from [line_record "27" "A" "EMBAJADORES" "PLAZA CASTILLA";
                 line_record "53" "B" "SOL SEVILLA" "ARTURO SORIA"]
      s' (KStr "53") 5%nat /\
    (exists li, line_at s' 5%nat = Some li /\
                destination li = JStr "ARTURO SORIA" /\
                origin li = JStr "SOL SEVILLA").
Proof.
  intros dataLine. eexists. split; [reflexivity|].
  destruct (parse_lines_swap dataLine init _ _ eq_refl) as (items & Hit & H).
  injection Hit as <-. split; [apply H; reflexivity|].
  eexists. split; [reflexivity|]. split; reflexivity.
Defined.

(** C1 as stated fails: a record whose direction is neither "A" nor "B"
    gets its origin from headerB, not from headerA. *)
Lemma other_direction_not_reversed :
  let line := line_record "27" "C" "EMBAJADORES" "PLAZA CASTILLA" in
  exists li s',
    parse_lines (JList [line]) init = (Ok [(KStr "27", 2%nat)], s') /\
    line_at s' 2%nat = Some li /\
    py_getitem line "direction" = Ok (JStr "C") /\
    py_getitem line "headerA" = Ok (JStr "EMBAJADORES") /\
    py_getitem line "headerB" = Ok (JStr "PLAZA CASTILLA") /\
    destination li = JStr "PLAZA CASTILLA" /\
    origin li = JStr "PLAZA CASTILLA" /\
    ~ (destination li = JStr "PLAZA CASTILLA" /\ origin li = JStr "EMBAJADORES").
Proof.
  intros line. eexists _, _. split; [reflexivity|].
  split; [reflexivity|]. do 5 (split; [reflexivity|]).
  intros [_ H]. discriminate H.
Qed.

(** The mapping that [parse_lines] returns gives every label a line
    dictionary of its own. *)
Lemma extends_length s s' : extends s s' -> (length (store s) <= length (store s'))%nat.
Proof. intros [ext ->]. rewrite length_app. lia. Qed.

Lemma parse_lines_loop_distinct items : forall d0 s d s',
  distinct_lines d0 ->
  (forall k l, lines_get k d0 = Some l -> (l < length (store s))%nat) ->
  parse_lines_loop items d0 s = (Ok d, s') ->
  distinct_lines d.
Proof.
  induction items as [|line rest IH]; intros d0 s d s' Hd Hlt H.
  - apply ret_ok in H as [-> _]. assumption.
  - cbn [parse_lines_loop] in H.
    step H. apply bind_ok in H as (entry & s1 & Hentry & H).
    step H. step H.
    apply line_entry_swapped in Hentry as [_ Hext].
    apply extends_length in Hext.
    eapply IH; [| |exact H].
    + intros k1 k2 l. rewrite !lines_get_set.
      destruct (key_eqb k1 a0) eqn:E1; destruct (key_eqb k2 a0) eqn:E2.
      * apply key_eqb_eq in E1, E2. congruence.
      * intros [= <-] H2. apply Hlt in H2. lia.
      * intros H1 [= <-]. apply Hlt in H1. lia.
      * apply Hd.
    + intros k l. rewrite lines_get_set. cbn [store set_store].
      rewrite length_app. cbn [length].
      destruct (key_eqb k a0).
      * intros [= <-]. lia.
      * intros Hl. apply Hlt in Hl. lia.
Qed.

Lemma parse_lines_distinct dataLine s d s' :
  parse_lines dataLine s = (Ok d, s') -> distinct_lines d.
Proof.
  unfold parse_lines. intros H. step H.
  eapply parse_lines_loop_distinct; [| |exact H].
  - intros k1 k2 l Hl. discriminate Hl.
  - intros k l Hl. discriminate Hl.
Qed.


(** ** Arrival records *)

Lemma line_at_alloc s o l li :
  line_at s l = Some li -> line_at (set_store (store s ++ [o])%list s) l = Some li.
Proof. apply line_at_extends. eexists. reflexivity. Qed.

Lemma line_at_write s l li :
  (l < length (store s))%nat ->
  line_at (set_store (<[l := PyLine li]> (store s)) s) l = Some li.
Proof.
  intros H. apply line_at_store. cbn [store set_store].
  apply list_lookup_insert_eq, H.
Qed.

Lemma clear_lines_cons l rest li s :
  line_at s l = Some li ->
  clear_lines (l :: rest) s = clear_lines rest (clear_one l li s).
Proof.
  intros H. apply line_at_store in H as Hs.
  assert (Hlt : (l < length (store s))%nat) by (eapply lookup_lt_Some, Hs).
  cbn [clear_lines]. unfold bind at 1, alloc.
  unfold bind at 1. rewrite (read_line_known _ _ li) by (apply line_at_alloc, H).
  unfold bind at 1, write, modify.
  unfold bind at 1.
  unfold bind at 1.
  erewrite read_line_known; cycle 1.
  { apply line_at_alloc. apply line_at_write. cbn [store set_store].
    rewrite length_app. lia. }
  unfold bind at 1.
  f_equal. unfold clear_one, set_store, set_lists. cbn. f_equal.
  rewrite length_insert, length_app. cbn [length].
  replace (length (store s) + 1)%nat with (S (length (store s))) by lia.
  rewrite insert_app_l by (rewrite length_insert, length_app; simpl; lia).
  rewrite list_insert_insert_eq.
  rewrite !insert_app_l by assumption.
  rewrite <- app_assoc. reflexivity.
Qed.

Lemma line_at_alloc_none s xs l :
  line_at s l = None -> line_at (set_store (store s ++ [PyList xs])%list s) l = None.
Proof.
  unfold line_at. cbn [store set_store]. intros H.
  destruct (decide (l < length (store s))%nat) as [Hlt|Hge].
  - rewrite lookup_app_l by assumption. assumption.
  - rewrite lookup_app_r by lia.
    destruct (l - length (store s))%nat as [|[|i]]; reflexivity.
Qed.

Lemma clear_lines_ok_cons l rest s s' :
  clear_lines (l :: rest) s = (Ok tt, s') -> exists li, line_at s l = Some li.
Proof.
  destruct (line_at s l) as [li|] eqn:E; [eauto|]. intros H. exfalso.
  cbn [clear_lines] in H. unfold bind at 1, alloc in H.
  apply (line_at_alloc_none _ []) in E. unfold bind at 1, read_line in H.
  unfold line_at in E.
  destruct (store _ !! l) as [[]|]; discriminate.
Qed.

Section ClearOne.

Variables (l : loc) (li : LineInfo) (s : APIEMT).

Hypothesis Hli : line_at s l = Some li.

Let n := length (store s).

Lemma clear_one_lt : (l < n)%nat.
Proof. apply line_at_store in Hli. eapply lookup_lt_Some, Hli. Qed.

Lemma line_at_clear_one_eq :
  line_at (clear_one l li s) l = Some (set_lists li (S n) n).
Proof.
  apply line_at_store. unfold clear_one. cbn [store set_store].
  apply list_lookup_insert_eq. rewrite length_app. pose proof clear_one_lt. lia.
Qed.

Lemma line_at_clear_one_ne l' : l' <> l -> line_at (clear_one l li s) l' = line_at s l'.
Proof.
  intros Hne. unfold line_at, clear_one. cbn [store set_store].
  rewrite list_lookup_insert_ne by congruence.
  destruct (decide (l' < length (store s))%nat) as [Hlt|Hge].
  - rewrite lookup_app_l by assumption. reflexivity.
  - rewrite lookup_app_r by lia. rewrite (lookup_ge_None_2 (store s)) by lia.
    destruct (l' - length (store s))%nat as [|[|i]]; reflexivity.
Qed.

Lemma list_at_clear_one_old a xs :
  list_at s a = Some xs -> list_at (clear_one l li s) a = Some xs.
Proof.
  intros H. apply list_at_store in H as Hs. apply list_at_store.
  unfold clear_one. cbn [store set_store].
  assert (a <> l).
  { intros ->. apply line_at_store in Hli. congruence. }
  rewrite list_lookup_insert_ne by congruence.
  apply lookup_app_l_Some, Hs.
Qed.

Lemma list_at_clear_one_new :
  list_at (clear_one l li s) n = Some [] /\
  list_at (clear_one l li s) (S n) = Some [].
Proof.
  pose proof clear_one_lt as Hlt. unfold list_at, clear_one. cbn [store set_store].
  rewrite !list_lookup_insert_ne by (subst n; lia).
  rewrite !lookup_app_r by (subst n; lia). subst n.
  replace (length (store s) - length (store s))%nat with 0%nat by lia.
  replace (S (length (store s)) - length (store s))%nat with 1%nat by lia.
  split; reflexivity.
Qed.

Lemma rebuilt_clear_one d V :
  rebuilt_from d [] s V -> rebuilt_from d [] (clear_one l li s) (l :: V).
Proof.
  intros [Hown Hsep].
  assert (Hold : forall l' li', In l' V -> l' <> l -> line_at s l' = Some li' ->
            (arrivals li' < n)%nat /\ (distance li' < n)%nat).
  { intros l' li' Hin _ Hl'. destruct (Hown l' Hin) as (li0 & H0 & Ha & Hd & _).
    rewrite Hl' in H0. injection H0 as <-.
    split; eapply list_at_lt; eassumption. }
  destruct list_at_clear_one_new as [Hn HSn].
  split.
  - intros l' Hin. destruct (decide (l' = l)) as [->|Hne].
    + eexists. split; [apply line_at_clear_one_eq|].
      cbn [set_lists arrivals distance]. repeat split; try assumption. lia.
    + destruct Hin as [->|Hin]; [congruence|].
      destruct (Hown l' Hin) as (li' & Hl' & Ha & Hd & Hne').
      exists li'. rewrite line_at_clear_one_ne by assumption.
      repeat split; try assumption; apply list_at_clear_one_old; assumption.
  - intros l1 l2 li1 li2 H1 H2 Hne Hl1 Hl2.
    destruct (decide (l1 = l)) as [->|Hne1]; destruct (decide (l2 = l)) as [->|Hne2];
      try congruence.
    + rewrite line_at_clear_one_eq in Hl1. injection Hl1 as <-.
      rewrite line_at_clear_one_ne in Hl2 by assumption.
      destruct H2 as [->|H2]; [congruence|].
      destruct (Hold l2 li2 H2 Hne2 Hl2). unfold separate. cbn [set_lists arrivals distance].
      repeat split; lia.
    + rewrite line_at_clear_one_eq in Hl2. injection Hl2 as <-.
      rewrite line_at_clear_one_ne in Hl1 by assumption.
      destruct H1 as [->|H1]; [congruence|].
      destruct (Hold l1 li1 H1 Hne1 Hl1). unfold separate. cbn [set_lists arrivals distance].
      repeat split; lia.
    + rewrite line_at_clear_one_ne in Hl1, Hl2 by assumption.
      destruct H1 as [->|H1]; [congruence|]. destruct H2 as [->|H2]; [congruence|].
      eapply (Hsep l1 l2); eassumption.
Qed.

End ClearOne.

Lemma rebuilt_from_incl d items s V V' :
  (forall l, In l V' -> In l V) ->
  rebuilt_from d items s V -> rebuilt_from d items s V'.
Proof.
  intros Hincl [Hown Hsep]. split.
  - intros l Hl. apply Hown, Hincl, Hl.
  - intros l1 l2 li1 li2 H1 H2. apply Hsep; apply Hincl; assumption.
Qed.

Lemma same_scalars_refl li : same_scalars li li.
Proof. destruct li; reflexivity. Qed.

Lemma same_scalars_set li d a : same_scalars li (set_lists li d a).
Proof. reflexivity. Qed.

Lemma same_scalars_trans li1 li2 li3 :
  same_scalars li1 li2 -> same_scalars li2 li3 -> same_scalars li1 li3.
Proof.
  unfold same_scalars. intros H12 H23. rewrite H23 at 1. rewrite H12 at 1.
  reflexivity.
Qed.

Lemma clear_lines_rebuilt d vs : forall V s s',
  rebuilt_from d [] s V ->
  clear_lines vs s = (Ok tt, s') ->
  rebuilt_from d [] s' (rev vs ++ V)%list /\
  stop_info s' = stop_info s /\
  (forall l li, line_at s l = Some li ->
     exists li', line_at s' l = Some li' /\ same_scalars li li') /\
  (forall l li', line_at s' l = Some li' -> exists li, line_at s l = Some li).
Proof.
  induction vs as [|l rest IH]; intros V s s' HV H.
  - apply ret_ok in H as [_ ->]. split; [assumption|]. split; [reflexivity|].
    split; [|eauto].
    intros l li Hl. exists li. split; [assumption | apply same_scalars_refl].
  - destruct (clear_lines_ok_cons _ _ _ _ H) as [li Hli].
    rewrite (clear_lines_cons _ _ _ _ Hli) in H.
    destruct (IH (l :: V) _ _ (rebuilt_clear_one l li s Hli d V HV) H)
      as (Hre & Hinfo & Hsc & Hback).
    split; [|split; [|split]].
    + cbn [rev]. rewrite <- app_assoc. exact Hre.
    + rewrite Hinfo. reflexivity.
    + intros l' li' Hl'. destruct (decide (l' = l)) as [->|Hne].
      * rewrite Hli in Hl'. injection Hl' as <-.
        destruct (Hsc l _ (line_at_clear_one_eq l li s Hli)) as (li2 & H2 & Hs2).
        exists li2. split; [assumption|].
        eapply same_scalars_trans; [apply same_scalars_set | exact Hs2].
      * apply Hsc. rewrite line_at_clear_one_ne; assumption.
    + intros l' li' Hl'. destruct (Hback l' li' Hl') as [li1 H1].
      destruct (decide (l' = l)) as [->|Hne]; [eauto|].
      rewrite line_at_clear_one_ne in H1 by assumption. eauto.
Qed.

Lemma rebuilt_from_nil d s : rebuilt_from d [] s [].
Proof. split; intros; contradiction. Qed.

(** *** Storing one record *)

Lemma arrivals_for_snoc d l pre item :
  arrivals_for d l (pre ++ [item]) =
  (arrivals_for d l pre ++
   if addressed_to d l item then [minutes_stored item] else [])%list.
Proof.
  unfold arrivals_for. rewrite List.filter_app, map_app. f_equal.
  cbn [List.filter]. destruct (addressed_to d l item); reflexivity.
Qed.

Lemma distances_for_snoc d l pre item :
  distances_for d l (pre ++ [item]) =
  (distances_for d l pre ++
   if addressed_to d l item then [distance_stored item] else [])%list.
Proof.
  unfold distances_for. rewrite List.filter_app, map_app. f_equal.
  cbn [List.filter]. destruct (addressed_to d l item); reflexivity.
Qed.

Lemma store_arrival_rebuilt d pre item V s s' :
  lines (stop_info s) = d ->
  (forall k l, lines_get k d = Some l -> In l V) ->
  rebuilt_from d pre s V ->
  store_arrival item s = (Ok tt, s') ->
  rebuilt_from d (pre ++ [item]) s' V /\
  stop_info s' = stop_info s /\
  (forall l, line_at s' l = line_at s l) /\
  (exists t, rbind (py_get item "estimateArrive") arrival_minutes = Ok t).
Proof.
  intros Hd HV [Hown Hsep] H. unfold store_arrival in H.
  step H. step H. step H. step H. step H.
  assert (Hmin : rbind (py_get item "estimateArrive") arrival_minutes = Ok a2)
    by (rewrite Hstep1; exact Hstep2).
  assert (Htarget : target d item = lines_get a0 d)
    by (unfold target; rewrite Hstep; cbn [rbind]; rewrite Hstep0; reflexivity).
  rewrite Hd in H.
  destruct (lines_get a0 d) as [l|] eqn:El.
  - pose proof (HV _ _ El) as Hin.
    destruct (Hown l Hin) as (li & Hli & Ha & Hdist & Hne).
    unfold bind at 1 in H. rewrite (read_line_known _ _ _ Hli) in H.
    unfold bind at 1 in H. rewrite (list_append_known _ _ _ _ Ha) in H.
    unfold bind at 1 in H. 
    rewrite (read_line_known _ _ li) in H
      by (rewrite (line_at_with_list _ _ _ _ _ Ha); exact Hli).
    step H.
    rewrite (list_append_known _ _ (distances_for d l pre)) in H
      by (rewrite list_at_with_list_ne by exact Hne; exact Hdist).
    injection H as <-.
    assert (Hline : forall l', line_at (with_list (distance li) (distances_for d l pre ++ [a3])
                      (with_list (arrivals li) (arrivals_for d l pre ++ [JInt a2]) s)) l'
                    = line_at s l').
    { intros l'. rewrite (line_at_with_list _ _ (distances_for d l pre))
        by (rewrite list_at_with_list_ne by exact Hne; exact Hdist).
      apply (line_at_with_list _ _ _ _ _ Ha). }
    split; [|split; [reflexivity|split; [exact Hline|eauto]]].
    split.
    + intros l' Hin'. rewrite Hline.
      rewrite arrivals_for_snoc, distances_for_snoc.
      unfold addressed_to. rewrite Htarget.
      destruct (decide (l' = l)) as [->|Hne'].
      * exists li. rewrite Nat.eqb_refl. split; [assumption|].
        unfold minutes_stored, distance_stored. rewrite Hmin, Hstep3.
        split; [|split; [|assumption]].
        -- rewrite list_at_with_list_ne by congruence.
           eapply list_at_with_list_eq, Ha.
        -- eapply list_at_with_list_eq.
           rewrite list_at_with_list_ne by exact Hne. exact Hdist.
      * destruct (Hown l' Hin') as (li' & Hli' & Ha' & Hd' & Hne2).
        destruct (Hsep l' l li' li Hin' Hin Hne' Hli' Hli) as (S1 & S2 & S3 & S4).
        exists li'. replace (l =? l')%nat with false
          by (symmetry; apply Nat.eqb_neq; congruence).
        rewrite !app_nil_r. split; [assumption|].
        rewrite !list_at_with_list_ne by congruence. auto.
    + intros l1 l2 li1 li2 H1 H2 Hne12. rewrite !Hline. apply Hsep; assumption.
  - apply ret_ok in H as [_ ->].
    split; [|split; [reflexivity|split; [reflexivity|eauto]]].
    split.
    + intros l Hin. destruct (Hown l Hin) as (li & Hli & Ha & Hdist & Hne).
      exists li. rewrite arrivals_for_snoc, distances_for_snoc.
      unfold addressed_to. rewrite Htarget, !app_nil_r. auto.
    + assumption.
Qed.

(** *** The quotient by 60 *)

Lemma round_half_even_bounds n d :
  0 <= n -> 0 < d ->
  n / d <= round_half_even n d <= n / d + 1 /\
  (2 * (n mod d) < d -> round_half_even n d = n / d).
Proof.
  intros Hn Hd. unfold round_half_even.
  destruct (2 * (n mod d) <? d) eqn:E1.
  - split; [lia|reflexivity].
  - apply Z.ltb_ge in E1. split; [|lia].
    destruct (d <? 2 * (n mod d)); [lia|]. destruct (Z.even (n / d)); lia.
Qed.

Lemma round_half_even_scaled a P :
  0 <= a -> 32 <= P -> round_half_even (a * P) 60 / P = a / 60.
Proof.
  intros Ha HP.
  pose proof (Z.div_mod a 60 ltac:(lia)) as Hdm.
  pose proof (Z.mod_pos_bound a 60 ltac:(lia)) as Hr.
  set (k := a / 60) in *. set (t := a mod 60) in *.
  pose proof (Z.div_mod (a * P) 60 ltac:(lia)) as Hdm2.
  pose proof (Z.mod_pos_bound (a * P) 60 ltac:(lia)) as Hr2.
  destruct (round_half_even_bounds (a * P) 60 ltac:(nia) ltac:(lia)) as [Hb Hlow].
  set (m := round_half_even (a * P) 60) in *.
  set (q := (a * P) / 60) in *. set (r := (a * P) mod 60) in *.
  symmetry. apply (Z.div_unique m P k (m - k * P)); [|lia].
  left. split.
  - nia.
  - destruct (Z_lt_ge_dec (2 * r) 60) as [Hs|Hs].
    + rewrite (Hlow Hs). nia.
    + assert (m <= q + 1) by lia. nia.
Qed.

Lemma pow2_nonpos k : k <= 0 -> pow2 k = 1.
Proof. intros H. unfold pow2. rewrite Z.max_l by lia. reflexivity. Qed.

Lemma pow2_ge k j : 0 <= j <= k -> 2 ^ j <= pow2 k.
Proof.
  intros H. unfold pow2. rewrite Z.max_r by lia.
  apply Z.pow_le_mono_r; lia.
Qed.

Lemma trunc_div_60_small a : 0 <= a < 2 ^ 53 -> trunc_div_60 a = a / 60.
Proof.
  intros [H0 H53]. unfold trunc_div_60.
  assert (Hlog : Z.log2 a <= 52).
  { destruct (Z.eq_dec a 0) as [->|Hne]; [vm_compute; discriminate|].
    assert (Z.log2 a < 53) by (apply Z.log2_lt_pow2; lia). lia. }
  set (e0 := Z.log2 a - 6).
  set (e := if _ <=? _ then e0 + 1 else e0).
  assert (He : e <= 47) by (subst e e0; destruct (_ <=? _); lia).
  set (shift := e - 52).
  rewrite (pow2_nonpos shift) by (subst shift; lia).
  rewrite Z.mul_1_r.
  apply round_half_even_scaled; [lia|].
  change 32 with (2 ^ 5). apply pow2_ge. subst shift. lia.
Qed.

Lemma int_div_60_small x :
  Z.abs x < 2 ^ 53 -> int_div_60 x = Ok (Z.quot x 60).
Proof.
  intros H. unfold int_div_60.
  assert (Hb : (overflow_60 <=? Z.abs x) = false).
  { apply Z.leb_gt. assert (2 ^ 53 < overflow_60) by (vm_compute; reflexivity). lia. }
  rewrite Hb, trunc_div_60_small by lia. f_equal.
  destruct (Z.lt_trichotomy x 0) as [Hx|[->|Hx]].
  - rewrite Z.abs_neq, Z.sgn_neg by lia.
    pose proof (Z.quot_opp_l x 60 ltac:(lia)) as Ho.
    rewrite Z.quot_div_nonneg in Ho by lia. lia.
  - reflexivity.
  - rewrite Z.abs_eq, Z.sgn_pos, Z.quot_div_nonneg by lia. lia.
Qed.

Lemma trunc_div_60_large a : 2 ^ 53 <= a -> 45 <= trunc_div_60 a.
Proof.
  intros H53. unfold trunc_div_60.
  assert (Ha : 0 < a) by (assert (0 < 2 ^ 53) by reflexivity; lia).
  destruct (Z.log2_spec a Ha) as [Hlo _].
  assert (HL : 53 <= Z.log2 a) by (apply Z.log2_le_pow2; lia).
  set (L := Z.log2 a) in *. set (e0 := L - 6).
  set (e := if _ <=? _ then e0 + 1 else e0).
  assert (He : 47 <= e /\ 60 * 2 ^ e <= a).
  { subst e. destruct (_ <=? _) eqn:E.
    - apply Z.leb_le in E. unfold pow2 in E.
      rewrite Z.max_r, Z.max_l, Z.mul_1_r in E by (subst e0; lia).
      split; [subst e0; lia | exact E].
    - split; [subst e0; lia|].
      replace L with (6 + e0) in Hlo by (subst e0; lia).
      rewrite Z.pow_add_r in Hlo by (subst e0; lia).
      change (2 ^ 6) with 64 in Hlo.
      assert (0 < 2 ^ e0) by (apply Z.pow_pos_nonneg; subst e0; lia). lia. }
  destruct He as [He47 Hea]. set (shift := e - 52).
  destruct (Z_le_gt_dec shift 0) as [Hs|Hs].
  - rewrite (pow2_nonpos shift) by exact Hs. rewrite !Z.mul_1_r.
    set (P := pow2 (- shift)).
    assert (HP : 0 < P) by (unfold P, pow2; apply Z.pow_pos_nonneg; lia).
    destruct (round_half_even_bounds (a * P) 60 ltac:(nia) ltac:(lia)) as [[Hm _] _].
    apply Z.div_le_lower_bound; [exact HP|].
    assert (45 * P <= a * P / 60); [|lia].
    apply Z.div_le_lower_bound; [lia|].
    assert (2700 <= a) by (assert (2700 < 2 ^ 53) by reflexivity; lia). nia.
  - rewrite (pow2_nonpos (- shift)) by lia. rewrite Z.mul_1_r, Z.div_1_r.
    set (Q := pow2 shift).
    assert (HQ : 2 ^ shift = Q) by (unfold Q, pow2; rewrite Z.max_r by lia; reflexivity).
    assert (HQ1 : 1 <= Q) by (rewrite <- HQ; apply (Z.pow_le_mono_r 2 0 shift); lia).
    replace e with (52 + shift) in Hea by (subst shift; lia).
    rewrite Z.pow_add_r, HQ in Hea by lia.
    destruct (round_half_even_bounds a (60 * Q) ltac:(lia) ltac:(lia)) as [[Hm _] _].
    assert (2 ^ 52 <= a / (60 * Q)) by (apply Z.div_le_lower_bound; lia).
    assert (45 <= 2 ^ 52) by (vm_compute; discriminate). nia.
Qed.

Lemma int_div_60_returns x :
  (exists t, int_div_60 x = Ok t) <-> Z.abs x < overflow_60.
Proof.
  unfold int_div_60. destruct (overflow_60 <=? Z.abs x) eqn:E.
  - apply Z.leb_le in E. split; [intros [t H]; discriminate H | lia].
  - apply Z.leb_gt in E. split; [intros _; exact E | eauto].
Qed.

Lemma int_div_60_nonneg x t :
  0 <= x -> int_div_60 x = Ok t -> Z.min t 45 = Z.min (x / 60) 45.
Proof.
  intros Hx H. destruct (Z_lt_ge_dec x (2 ^ 53)) as [Hs|Hl].
  - rewrite int_div_60_small in H by lia. injection H as <-.
    rewrite Z.quot_div_nonneg by lia. reflexivity.
  - unfold int_div_60 in H. destruct (overflow_60 <=? Z.abs x); [discriminate|].
    injection H as <-. rewrite Z.abs_eq by lia.
    assert (0 < 2 ^ 53) by reflexivity.
    rewrite Z.sgn_pos, Z.mul_1_l by lia.
    pose proof (trunc_div_60_large x ltac:(lia)).
    assert (45 <= x / 60).
    { apply Z.div_le_lower_bound; [lia|].
      assert (2700 < 2 ^ 53) by reflexivity. lia. }
    lia.
Qed.

Lemma arrival_minutes_seconds e :
  arrival_minutes e =
  match seconds e with
  | Some x => rbind (int_div_60 x) (fun t => Ok (Z.min t 45))
  | None => Raise TypeError
  end.
Proof. destruct e; reflexivity. Qed.

Lemma has_minutes_intro item t :
  rbind (py_get item "estimateArrive") arrival_minutes = Ok t -> has_minutes item.
Proof.
  intros H. unfold has_minutes, minutes_stored. rewrite H.
  destruct (py_get item "estimateArrive") as [e|]; [|discriminate].
  cbn [rbind] in H. rewrite arrival_minutes_seconds in H.
  destruct (seconds e) as [x|] eqn:Ex; [|discriminate].
  destruct (int_div_60 x) as [q|] eqn:Eq; [|discriminate].
  cbn [rbind] in H. injection H as <-.
  exists e, x, (Z.min q 45). split; [reflexivity|]. split; [exact Ex|].
  split; [apply int_div_60_returns; eauto|]. split; [reflexivity|].
  split; [lia|]. split.
  - intros Hs. rewrite int_div_60_small in Eq by exact Hs. congruence.
  - intros Hx. eapply int_div_60_nonneg; eassumption.
Qed.

Lemma store_arrivals_rebuilt d V items : forall pre s s',
  lines (stop_info s) = d ->
  (forall k l, lines_get k d = Some l -> In l V) ->
  rebuilt_from d pre s V ->
  store_arrivals items s = (Ok tt, s') ->
  rebuilt_from d (pre ++ items) s' V /\
  stop_info s' = stop_info s /\
  (forall l, line_at s' l = line_at s l) /\
  Forall has_minutes items.
Proof.
  induction items as [|item rest IH]; intros pre s s' Hd HV Hre H.
  - apply ret_ok in H as [_ ->]. rewrite app_nil_r. auto.
  - cbn [store_arrivals] in H. apply bind_ok in H as ([] & s1 & H1 & H).
    destruct (store_arrival_rebuilt _ _ _ _ _ _ Hd HV Hre H1)
      as (Hre1 & Hinfo1 & Hline1 & t & Ht).
    destruct (IH (pre ++ [item]) s1 s') as (Hre2 & Hinfo2 & Hline2 & Hall);
      try assumption; [congruence|].
    rewrite <- app_assoc in Hre2. split; [exact Hre2|].
    split; [congruence|]. split.
    + intros l. rewrite Hline2. apply Hline1.
    + constructor; [eapply has_minutes_intro, Ht | exact Hall].
Qed.

Lemma lines_get_In k d l : lines_get k d = Some l -> In l (map snd d).
Proof.
  induction d as [|[k' l'] d IH]; simpl; [discriminate|].
  destruct (key_eqb k k'); [intros [= ->]; auto | auto].
Qed.

Lemma rebuild_arrivals_rebuilt response s s' :
  rebuild_arrivals response s = (Ok tt, s') -> rebuilt s response s'.
Proof.
  unfold rebuild_arrivals. intros H. step H.
  apply bind_ok in H as ([] & s1 & Hclear & H).
  step H. step H. step H. step H.
  destruct (clear_lines_rebuilt (lines (stop_info s)) _ [] _ _
              (rebuilt_from_nil _ _) Hclear) as (Hre & Hinfo & Hsc & Hback).
  destruct (store_arrivals_rebuilt (lines (stop_info s))
              (rev (map snd (lines (stop_info s))) ++ []) a2 [] s1 s')
    as ((Hown & _) & Hinfo' & Hline & Hall); try assumption.
  { congruence. }
  { intros k l Hl. rewrite app_nil_r. apply in_rev. rewrite rev_involutive.
    eapply lines_get_In, Hl. }
  exists a2. split; [|split; [congruence|split; [exact Hall|]]].
  { unfold arrive_records. rewrite Hstep. cbn [rbind]. rewrite Hstep0.
    cbn [rbind]. rewrite Hstep1. exact Hstep2. }
  intros k l Hl.
  assert (Hin : In l (rev (map snd (lines (stop_info s))) ++ [])).
  { rewrite app_nil_r. apply in_rev. rewrite rev_involutive.
    eapply lines_get_In, Hl. }
  destruct (Hown l Hin) as (li' & Hli' & Ha & Hd & _).
  assert (Hknown : known_line s' k = Some li').
  { unfold known_line. rewrite Hinfo', Hinfo, Hl. exact Hli'. }
  split; [|split].
  - rewrite Hline in Hli'.
    destruct (line_at s l) as [li|] eqn:E.
    + destruct (Hsc l li E) as (li2 & H2 & Hs2). exists li, li'.
      rewrite Hline. split; [reflexivity|]. split; [exact Hli'|]. congruence.
    + destruct (Hback l li' Hli') as [li Hli]. congruence.
  - unfold stored_arrivals. rewrite Hknown. exact Ha.
  - unfold stored_distance. rewrite Hknown. exact Hd.
Qed.

Lemma parse_arrivals_snapshot response s s' :
  parse_arrivals response s = (Ok TheSnapshot, s') ->
  rebuild_arrivals response s = (Ok tt, s').
Proof.
  unfold parse_arrivals, handle_signals. intros H.
  match type of H with
  | context [match ?m s with _ => _ end] => destruct (m s) as [[r|e] s1] eqn:E
  end.
  - injection H as -> ->. step E. step E. step E. step E.
    apply bind_ok in E as ([] & s2 & Hre & E). apply ret_ok in E as [_ ->].
    rewrite Hstep in Hstep1. injection Hstep1 as <-.
    destruct (str_eq a "80"); [discriminate|].
    apply ret_ok in Hstep0 as [_ ->]. apply ret_ok in Hstep2 as [_ ->].
    exact Hre.
  - destruct e; discriminate.
Qed.

Lemma _parse_arrivals_done response c s s' :
  py_get response "code" = Ok c -> str_eq c "80" = false ->
  _parse_arrivals response s = (Ok tt, s') ->
  rebuild_arrivals response s = (Ok tt, s').
Proof.
  unfold _parse_arrivals, reraise_lookup, bind at 1, lift. intros Hc Hn.
  rewrite Hc, Hn.
  destruct (rebuild_arrivals response s) as [[[]|e] s1]; [auto|].
  destruct e; discriminate.
Qed.

Lemma parsed_arrivals_rebuilt response s s' :
  parsed_arrivals response s s' -> rebuilt s response s'.
Proof.
  intros [H|(c & Hc & Hn & H)]; apply rebuild_arrivals_rebuilt.
  - apply parse_arrivals_snapshot, H.
  - eapply _parse_arrivals_done; eassumption.
Qed.

(** In a mapping with a dictionary per label, the records addressed to the
    dictionary of label [k] are those whose [line] entry is [k]. *)
Lemma addressed_to_label d k l item :
  distinct_lines d ->
  lines_get k d = Some l ->
  addressed_to d l item = true <->
  exists v, py_get item "line" = Ok v /\ py_hash v = Ok k.
Proof.
  intros Hd Hk. unfold addressed_to, target. split.
  - destruct (py_get item "line") as [v|]; cbn [rbind]; [|discriminate].
    destruct (py_hash v) as [k'|] eqn:Ek; [|discriminate].
    destruct (lines_get k' d) as [l'|] eqn:El; [|discriminate].
    intros H. apply Nat.eqb_eq in H as ->.
    exists v. split; [reflexivity|]. rewrite Ek. f_equal.
    apply (Hd k' k l); assumption.
  - intros (v & -> & Hv). cbn [rbind]. rewrite Hv, Hk. apply Nat.eqb_refl.
Qed.

Lemma arrivals_distances_length d l items :
  length (arrivals_for d l items) = length (distances_for d l items).
Proof. unfold arrivals_for, distances_for. rewrite !length_map. reflexivity. Qed.

(** C5: after a successful arrivals parse the snapshot keeps its lines, and
    for every line in it the stored [arrivals] and [distance] lists are
    exactly what the records of this response addressed to the line give,
    in the order of the response: whatever the two lists held before is
    gone, and the two have the same length. *)
Theorem arrivals_rebuilt_from_latest response s s' :
  parsed_arrivals response s s' ->
  exists items,
    arrive_records response = Ok items /\
    stop_info s' = stop_info s /\
    forall k l,
      lines_get k (lines (stop_info s)) = Some l ->
      stored_arrivals s' k = Some (arrivals_for (lines (stop_info s)) l items) /\
      stored_distance s' k = Some (distances_for (lines (stop_info s)) l items) /\
      length (arrivals_for (lines (stop_info s)) l items) =
      length (distances_for (lines (stop_info s)) l items).
Proof.
  intros H. destruct (parsed_arrivals_rebuilt _ _ _ H) as (items & Hit & Hinfo & _ & Hl).
  exists items. split; [assumption|]. split; [assumption|].
  intros k l Hk. destruct (Hl k l Hk) as (_ & Ha & Hd).
  split; [assumption|]. split; [assumption|]. apply arrivals_distances_length.
Qed.

(** C7, as the code has it: the minutes stored for an arrival record are
    [min(math.trunc(estimateArrive / 60), 45)], with [/] the division in
    binary64, and at most 45.  For an integer [estimateArrive] of magnitude
    below 2^53 that is the quotient truncated toward zero, capped at 45; for
    every non-negative integer [estimateArrive] it is
    [min(floor(estimateArrive / 60), 45)]. *)
Theorem stored_minutes_truncate response s s' :
  parsed_arrivals response s s' ->
  exists items,
    arrive_records response = Ok items /\
    Forall has_minutes items /\
    forall k l,
      lines_get k (lines (stop_info s)) = Some l ->
      stored_arrivals s' k =
      Some (map minutes_stored (List.filter (addressed_to (lines (stop_info s)) l) items)).
Proof.
  intros H. destruct (parsed_arrivals_rebuilt _ _ _ H) as (items & Hit & _ & Hall & Hl).
  exists items. split; [assumption|]. split; [assumption|].
  intros k l Hk. destruct (Hl k l Hk) as (_ & Ha & _). exact Ha.
Qed.

Lemma stored_minutes_truncate_witness :
  let response := arrivals_response [arrival_record "27" 59 900;
                                     arrival_record "53" 125 40;
                                     arrival_record "27" 3600 5200] in
  let s' := snd (_parse_arrivals response sample_stop) in
  parsed_arrivals response sample_stop s' /\
  stored_arrivals s' (KStr "27") = Some [JInt 0; JInt 45] /\
  stored_arrivals s' (KStr "53") = Some [JInt 2] /\
  Forall has_minutes [arrival_record "27" 59 900; arrival_record "53" 125 40;
                      arrival_record "27" 3600 5200] /\
  (* beyond 2^53 the binary64 quotient is not the integer one *)
  arrival_minutes (JInt (-16888498602639419)) = Ok (-281474976710657) /\
  Z.quot (-16888498602639419) 60 = -281474976710656.
Proof.
  intros response s'.
  assert (H : parsed_arrivals response sample_stop s').
  { right. exists (JStr "00"). split; [reflexivity|]. split; [reflexivity|].
    vm_compute. reflexivity. }
  split; [exact H|].
  destruct (stored_minutes_truncate response sample_stop s' H)
    as (items & Hitems & Hall & Hstored).
  injection Hitems as <-.
  split; [apply (Hstored (KStr "27") 2%nat); reflexivity|].
  split; [apply (Hstored (KStr "53") 5%nat); reflexivity|].
  split; [exact Hall|].
  split; vm_compute; reflexivity.
Defined.

(** C7 as stated fails: for a negative [estimateArrive] the floor of the
    quotient is not what is stored. *)
Lemma negative_estimate_not_floored :
  let response := arrivals_response [arrival_record "27" (-30) 900] in
  let s' := snd (_parse_arrivals response sample_stop) in
  fst (_parse_arrivals response sample_stop) = Ok tt /\
  stored_arrivals s' (KStr "27") = Some [JInt 0] /\
  Z.min (-30 / 60) 45 = -1 /\
  stored_arrivals s' (KStr "27") <> Some [JInt (Z.min (-30 / 60) 45)].
Proof.
  intros response s'. split; [vm_compute; reflexivity|].
  split; [vm_compute; reflexivity|].
  split; [reflexivity|]. vm_compute. discriminate.
Qed.

(** Two fetches in a row: the second answer alone decides what is stored,
    and the scenario of the specification (30 s and 150 s for one line). *)
Lemma arrivals_rebuilt_from_latest_witness :
  let first := arrivals_response [arrival_record "27" 30 120;
                                  arrival_record "27" 150 800] in
  let second := arrivals_response [arrival_record "53" 600 2500] in
  let s1 := snd (parse_arrivals first sample_stop) in
  let s2 := snd (parse_arrivals second s1) in
  parsed_arrivals first sample_stop s1 /\
  parsed_arrivals second s1 s2 /\
  stored_arrivals s1 (KStr "27") = Some [JInt 0; JInt 2] /\
  stored_distance s1 (KStr "27") = Some [JInt 120; JInt 800] /\
  stored_arrivals s2 (KStr "27") = Some [] /\
  stored_distance s2 (KStr "27") = Some [] /\
  stored_arrivals s2 (KStr "53") = Some [JInt 10] /\
  stored_distance s2 (KStr "53") = Some [JInt 2500].
Proof.
  intros first second s1 s2.
  assert (H1 : parsed_arrivals first sample_stop s1) by (left; vm_compute; reflexivity).
  assert (H2 : parsed_arrivals second s1 s2) by (left; vm_compute; reflexivity).
  split; [exact H1|]. split; [exact H2|].
  destruct (arrivals_rebuilt_from_latest first sample_stop s1 H1)
    as (items1 & Hitems1 & _ & Hstored1).
  destruct (arrivals_rebuilt_from_latest second s1 s2 H2)
    as (items2 & Hitems2 & _ & Hstored2).
  injection Hitems1 as <-. injection Hitems2 as <-.
  destruct (Hstored1 (KStr "27") 2%nat eq_refl) as (Ha1 & Hd1 & _).
  destruct (Hstored2 (KStr "27") 2%nat eq_refl) as (Ha2 & Hd2 & _).
  destruct (Hstored2 (KStr "53") 5%nat eq_refl) as (Ha3 & Hd3 & _).
  do 5 (split; [assumption|]). split; assumption.
Defined.

(** * Further properties *)

Lemma _make_request_runs server url headers data method s :
  _make_request server url headers data method s =
  if String.eqb method "POST" || String.eqb method "GET" then
    let r := mkRequest method url headers
               (if String.eqb method "POST" then Some data else None) in
    answered (server (length (sent s)) r) (set_sent (sent s ++ [r]) s) ret
  else (Raise (ValueError ("Invalid HTTP method: " ++ method)%string), s).
Proof.
  unfold _make_request, bind at 1.
  destruct (String.eqb method "POST" || String.eqb method "GET"); cbn [negb].
  - unfold ret at 1. unfold bind, get_state, modify, answered, lift, raise, ret.
    destruct (server _ _) as [response|[]]; reflexivity.
  - reflexivity.
Qed.

Lemma authenticate_runs server user password s :
  authenticate server user password s =
  answered (server (length (sent s)) (login_request user password))
    (set_sent (sent s ++ [login_request user password]) s)
    (fun response => t <- _extract_token response ;; modify (set_token t) ;;; ret t).
Proof.
  unfold authenticate, bind at 1. rewrite _make_request_runs.
  cbn [String.eqb Ascii.eqb Bool.eqb orb]. cbv zeta.
  unfold login_request, answered.
  destruct (server _ _) as [response|[]]; reflexivity.
Qed.

(** X1: when the login answer has code "01" and the first entry of its
    [data] list holds an [accessToken], [authenticate] sends one GET request
    to the login endpoint with the credentials as headers, stores that token
    and returns it; nothing else of the client changes. *)
Theorem authenticate_success server user password s response data first t :
  server (length (sent s)) (login_request user password) = Ok response ->
  py_get response "code" = Ok (JStr "01") ->
  py_getitem response "data" = Ok data ->
  py_index0 data = Ok first ->
  py_getitem first "accessToken" = Ok t ->
  authenticate server user password s =
  (Ok t, set_token t (set_sent (sent s ++ [login_request user password]) s)).
Proof.
  intros Hs Hc Hd Hf Ht. rewrite authenticate_runs, Hs. unfold answered.
  unfold bind at 1, _extract_token. run. rewrite Hc.
  cbn [str_eq String.eqb Ascii.eqb Bool.eqb negb]. rewrite Hd, Hf, Ht.
  reflexivity.
Qed.

(** X2: when the login answer has any other code, [authenticate] raises
    nothing: it logs the error "Invalid email or password", stores and
    returns the string "Invalid token" and leaves the snapshot as it was.
    Both update methods are no-ops on the client it leaves. *)
Theorem authenticate_rejected server user password s response c :
  server (length (sent s)) (login_request user password) = Ok response ->
  py_get response "code" = Ok c ->
  str_eq c "01" = false ->
  exists s',
    authenticate server user password s = (Ok (JStr "Invalid token"), s') /\
    token s' = JStr "Invalid token" /\
    stop_info s' = stop_info s /\
    store s' = store s /\
    logged s' = logged s ++ [(ERROR, "Invalid email or password")] /\
    sent s' = sent s ++ [login_request user password] /\
    forall stop,
      update_stop_info server stop s' = (Ok tt, s') /\
      update_arrival_times server stop s' = (Ok tt, s').
Proof.
  intros Hs Hc Hn. rewrite authenticate_runs, Hs. unfold answered.
  unfold bind at 1, _extract_token. run. rewrite Hc, Hn. cbn [negb].
  eexists. split; [reflexivity|]. do 5 (split; [reflexivity|]).
  intros stop. rewrite update_stop_info_guard, update_arrival_times_guard.
  split; reflexivity.
Qed.

Lemma _extract_token_keeps {B} (field : APIEMT -> B) response :
  (forall l s, field (set_logged l s) = field s) ->
  keeps field (_extract_token response).
Proof. intros H. unfold _extract_token. frame. Qed.

Lemma _extract_token_raises_quietly response s e :
  fst (_extract_token response s) = Raise e ->
  logged (snd (_extract_token response s)) = logged s.
Proof.
  unfold _extract_token. run.
  destruct (py_get response "code") as [c|[]]; cbn [fst snd];
    try (intros _; reflexivity).
  destruct (negb (str_eq c "01")); cbn [fst snd]; [discriminate|].
  destruct (py_getitem response "data") as [d|[]]; cbn [fst snd];
    try (intros _; reflexivity).
  destruct (py_index0 d) as [f|[]]; cbn [fst snd]; try (intros _; reflexivity).
  destruct (py_getitem f "accessToken") as [t|[]]; cbn [fst snd];
    try (intros _; reflexivity); discriminate.
Qed.

(** X3: when [authenticate] raises, on a transport failure or on an answer
    it cannot read, the token stored before is still there: the assignment
    to [_token] is never reached.  Snapshot, store and log are unchanged;
    only the request has been made. *)
Theorem authenticate_failure_keeps_token server user password s e :
  fst (authenticate server user password s) = Raise e ->
  let s' := snd (authenticate server user password s) in
  token s' = token s /\ stop_info s' = stop_info s /\ store s' = store s /\
  logged s' = logged s /\
  sent s' = sent s ++ [login_request user password].
Proof.
  rewrite authenticate_runs. unfold answered.
  destruct (server _ _) as [response|e'].
  - set (s1 := set_sent (sent s ++ [login_request user password]) s).
    pose proof (_extract_token_keeps token response (fun _ _ => eq_refl) s1) as Ht.
    pose proof (_extract_token_keeps stop_info response (fun _ _ => eq_refl) s1) as Hi.
    pose proof (_extract_token_keeps store response (fun _ _ => eq_refl) s1) as Hst.
    pose proof (_extract_token_keeps sent response (fun _ _ => eq_refl) s1) as Hse.
    pose proof (_extract_token_raises_quietly response s1) as Hlog.
    cbv zeta. unfold bind.
    destruct (_extract_token response s1) as [[t|e1] s2]; [discriminate|].
    intros _. cbn [snd fst] in *. specialize (Hlog e1 eq_refl). auto.
  - intros _. destruct e'; cbn [snd]; auto.
Qed.

(** ** Objects are never removed *)

Lemma grows_bind {A B} (m : M A) (k : A -> M B) :
  grows m -> (forall a, grows (k a)) -> grows (bind m k).
Proof.
  intros Hm Hk s. unfold bind. specialize (Hm s).
  destruct (m s) as [[a|e] s1]; cbn [snd] in *; [|assumption].
  eapply extends_trans; [exact Hm | apply Hk].
Qed.

Lemma grows_same_store {A} (m : M A) :
  (forall s, store (snd (m s)) = store s) -> grows m.
Proof. intros H s. exists []. rewrite H. symmetry. apply app_nil_r. Qed.

Lemma grows_alloc o : grows (alloc o).
Proof. intros s. apply extends_alloc. Qed.

Ltac grow :=
  repeat first
    [ assumption
    | apply grows_alloc
    | apply grows_same_store; intros; reflexivity
    | apply grows_bind; [ | intros ] ].

Lemma grows_line_entry line : grows (line_entry line).
Proof. unfold line_entry. grow. Qed.

Lemma grows_parse_lines_loop items : forall d, grows (parse_lines_loop items d).
Proof.
  induction items as [|line rest IH]; intros d; cbn [parse_lines_loop].
  - grow.
  - apply grows_bind; [grow|]. intros.
    apply grows_bind; [apply grows_line_entry|]. intros. grow. apply IH.
Qed.

Lemma grows_parse_lines v : grows (parse_lines v).
Proof.
  unfold parse_lines. apply grows_bind; [grow|]. intros.
  apply grows_parse_lines_loop.
Qed.

Lemma list_at_extends s s' a xs :
  extends s s' -> list_at s a = Some xs -> list_at s' a = Some xs.
Proof.
  intros [ext H] Ha. apply list_at_store. rewrite H.
  apply lookup_app_l_Some. apply list_at_store, Ha.
Qed.

Lemma stored_extends s s' k :
  extends s s' -> stop_info s' = stop_info s ->
  (forall xs, stored_arrivals s k = Some xs -> stored_arrivals s' k = Some xs) /\
  (forall ys, stored_distance s k = Some ys -> stored_distance s' k = Some ys).
Proof.
  intros Hext Hinfo. unfold stored_arrivals, stored_distance, known_line.
  rewrite Hinfo. destruct (lines_get k (lines (stop_info s))) as [l|]; [|split; discriminate].
  destruct (line_at s l) as [li|] eqn:E; [|split; discriminate].
  rewrite (line_at_extends _ _ _ _ Hext E).
  split; intros; eapply list_at_extends; eassumption.
Qed.

(** ** A stop-detail answer is taken whole or not at all *)

Lemma _parse_stop_info_runs response stop_id s :
  _parse_stop_info response stop_id s =
  reraise_lookup "Unable to get bus stop information"
    (code <- lift (py_get response "code") ;;
     if negb (str_eq code "00") then log WARNING "Bus stop disabled or does not exist"
     else
       b <- lift (stop_detail_body response) ;;
       let '(_, name, coordinates, address, dataLine) := b in
       parsed <- parse_lines dataLine ;;
       modify (set_stop_info (mkSnapshot (JStr stop_id) name coordinates address parsed))) s.
Proof.
  unfold _parse_stop_info, reraise_lookup, stop_detail_body.
  match goal with
  | |- match ?a with _ => _ end = match ?b with _ => _ end =>
      replace a with b; [reflexivity|]
  end.
  unfold bind, lift.
  destruct (py_get response "code") as [code|]; [|reflexivity].
  destruct (negb (str_eq code "00")); [reflexivity|].
  repeat match goal with
  | |- context [rbind ?r _] => destruct r; cbn [rbind]; try reflexivity
  end.
Qed.

Lemma _parse_stop_info_raised response stop_id s e s' :
  _parse_stop_info response stop_id s = (Raise e, s') ->
  stop_info s' = stop_info s /\ extends s s' /\
  token s' = token s /\ logged s' = logged s /\ sent s' = sent s.
Proof.
  rewrite _parse_stop_info_runs.
  unfold reraise_lookup, bind at 1, lift at 1.
  destruct (py_get response "code") as [code|e0].
  - destruct (negb (str_eq code "00")); [discriminate|].
    unfold bind at 1, lift at 1.
    destruct (stop_detail_body response)
      as [[[[[rs name] coordinates] address] dataLine]|e0].
    + unfold bind.
      pose proof (keeps_parse_lines stop_info dataLine (fun _ _ => eq_refl) s) as Hi.
      pose proof (keeps_parse_lines token dataLine (fun _ _ => eq_refl) s) as Ht.
      pose proof (keeps_parse_lines logged dataLine (fun _ _ => eq_refl) s) as Hl.
      pose proof (keeps_parse_lines sent dataLine (fun _ _ => eq_refl) s) as Hs.
      pose proof (grows_parse_lines dataLine s) as Hg.
      destruct (parse_lines dataLine s) as [[d|e1] s1]; [discriminate|].
      cbn [snd] in *. intros H.
      assert (s' = s1) as -> by (destruct e1; congruence). auto.
    + intros H. assert (s' = s) as -> by (destruct e0; congruence).
      auto using extends_refl.
  - intros H. assert (s' = s) as -> by (destruct e0; congruence).
    auto using extends_refl.
Qed.

(** X4: when [_parse_stop_info] raises, the snapshot is the one it found:
    [update] is called only once every entry of the answer and every line
    record has been read, so a stop-detail answer is taken whole or not at
    all.  Nothing is logged, no object already in the store is changed, and
    every line keeps the arrivals and distances it had. *)
Theorem failed_stop_info_changes_nothing response stop_id s e :
  fst (_parse_stop_info response stop_id s) = Raise e ->
  let s' := snd (_parse_stop_info response stop_id s) in
  stop_info s' = stop_info s /\ extends s s' /\
  token s' = token s /\ logged s' = logged s /\ sent s' = sent s /\
  forall k,
    (forall xs, stored_arrivals s k = Some xs -> stored_arrivals s' k = Some xs) /\
    (forall ys, stored_distance s k = Some ys -> stored_distance s' k = Some ys).
Proof.
  destruct (_parse_stop_info response stop_id s) as [r s'] eqn:E.
  cbn [fst snd]. intros ->.
  destruct (_parse_stop_info_raised _ _ _ _ _ E) as (H1 & H2 & H3 & H4 & H5).
  repeat (split; [assumption|]). intros k. apply stored_extends; assumption.
Qed.

(** ** New lines *)

Lemma In_lines_set k l d l' :
  In l' (map snd (lines_set k l d)) -> l' = l \/ In l' (map snd d).
Proof.
  induction d as [|[k0 l0] d IH]; cbn [lines_set map snd In].
  - intros [<-|[]]. auto.
  - destruct (key_eqb k k0); cbn [map snd In]; intros [<-|H]; auto.
    destruct (IH H); auto.
Qed.

Lemma NoDup_lines_set k l d :
  NoDup (map snd d) -> ~ In l (map snd d) -> NoDup (map snd (lines_set k l d)).
Proof.
  induction d as [|[k0 l0] d IH]; cbn [lines_set map snd]; intros Hnd Hl.
  - apply NoDup_singleton.
  - apply NoDup_cons in Hnd as [H0 Hnd'].
    rewrite list_elem_of_In in H0. cbn [In] in Hl.
    destruct (key_eqb k k0); cbn [map snd].
    + apply NoDup_cons. split; [rewrite list_elem_of_In; tauto | assumption].
    + apply NoDup_cons. split; [|apply IH; tauto].
      rewrite list_elem_of_In. intros H. apply In_lines_set in H as [->|H]; tauto.
Qed.

Lemma NoDup_distinct_lines d : NoDup (map snd d) -> distinct_lines d.
Proof.
  induction d as [|[k0 l0] d IH]; intros Hnd k1 k2 l; cbn [lines_get].
  - discriminate.
  - cbn [map snd] in Hnd. apply NoDup_cons in Hnd as [H0 Hnd].
    rewrite list_elem_of_In in H0.
    destruct (key_eqb k1 k0) eqn:E1; destruct (key_eqb k2 k0) eqn:E2.
    + apply key_eqb_eq in E1, E2. congruence.
    + intros [= <-] H2. apply lines_get_In in H2. tauto.
    + intros H1 [= <-]. apply lines_get_In in H1. tauto.
    + apply IH, Hnd.
Qed.

Lemma line_entry_fresh line s li s' :
  line_entry line s = (Ok li, s') ->
  distance li = length (store s) /\ arrivals li = S (length (store s)) /\
  s' = set_store (store s ++ [PyList []; PyList []]) s.
Proof.
  unfold line_entry. intros H.
  do 13 step H. apply ret_ok in H as [-> ->].
  cbn [distance arrivals store set_store]. rewrite length_app. cbn [length].
  split; [reflexivity|]. split; [lia|].
  unfold set_store. cbn. rewrite <- app_assoc. reflexivity.
Qed.

Lemma parse_lines_loop_fresh items : forall d0 s d s',
  NoDup (map snd d0) ->
  rebuilt_from [] [] s (map snd d0) ->
  parse_lines_loop items d0 s = (Ok d, s') ->
  NoDup (map snd d) /\ rebuilt_from [] [] s' (map snd d).
Proof.
  induction items as [|line rest IH]; intros d0 s d s' Hnd Hre H.
  - apply ret_ok in H as [-> ->]. auto.
  - cbn [parse_lines_loop] in H.
    step H. apply bind_ok in H as (entry & s1 & Hentry & H).
    step H. step H.
    apply line_entry_fresh in Hentry as (Hd & Ha & ->).
    cbn [store set_store] in H. rewrite length_app in H. cbn [length] in H.
    set (s2 := set_store _ _) in H.
    assert (Hext : extends s s2).
    { exists [PyList []; PyList []; PyLine entry]. subst s2. cbn [store set_store].
      rewrite <- app_assoc. reflexivity. }
    assert (Hline : line_at s2 (length (store s) + 2)%nat = Some entry).
    { apply line_at_store. subst s2. cbn [store set_store].
      apply list_lookup_middle. rewrite length_app. reflexivity. }
    assert (Hlist0 : list_at s2 (length (store s)) = Some []).
    { unfold list_at. subst s2. cbn [store set_store]. rewrite <- app_assoc.
      rewrite lookup_app_r by lia.
      replace (length (store s) - length (store s))%nat with 0%nat by lia.
      reflexivity. }
    assert (Hlist1 : list_at s2 (S (length (store s))) = Some []).
    { unfold list_at. subst s2. cbn [store set_store]. rewrite <- app_assoc.
      rewrite lookup_app_r by lia.
      replace (S (length (store s)) - length (store s))%nat with 1%nat by lia.
      reflexivity. }
    set (n := length (store s)) in *.
    destruct Hre as [Hown Hsep].
    assert (Hold : forall l li, In l (map snd d0) -> line_at s l = Some li ->
              (l < n)%nat /\ (arrivals li < n)%nat /\ (distance li < n)%nat).
    { intros l li Hin Hl. destruct (Hown l Hin) as (li0 & H0 & Ha0 & Hd0 & _).
      rewrite Hl in H0. injection H0 as <-.
      split; [apply line_at_store in Hl; eapply lookup_lt_Some, Hl|].
      split; eapply list_at_lt; eassumption. }
    assert (Hfresh : ~ In (n + 2)%nat (map snd d0)).
    { intros Hin. destruct (Hown _ Hin) as (li0 & H0 & _).
      destruct (Hold _ _ Hin H0). lia. }
    eapply IH; [| |exact H].
    + apply NoDup_lines_set; assumption.
    + split.
      * intros l Hin. apply In_lines_set in Hin as [->|Hin].
        -- exists entry. rewrite Hd, Ha.
           repeat split; try assumption. lia.
        -- destruct (Hown l Hin) as (li & Hl & Ha0 & Hd0 & Hne).
           exists li. split; [eapply line_at_extends; eassumption|].
           split; [eapply list_at_extends; eassumption|].
           split; [eapply list_at_extends; eassumption|assumption].
      * intros l1 l2 li1 li2 H1 H2 Hne Hl1 Hl2.
        apply In_lines_set in H1, H2.
        assert (Hback : forall l li, In l (map snd d0) -> line_at s2 l = Some li ->
                  line_at s l = Some li).
        { intros l li Hin Hl. destruct (Hown l Hin) as (li0 & H0 & _).
          rewrite (line_at_extends _ _ _ _ Hext H0) in Hl. congruence. }
        destruct H1 as [->|H1]; destruct H2 as [->|H2]; try congruence.
        -- rewrite Hline in Hl1. injection Hl1 as <-.
           destruct (Hold _ _ H2 (Hback _ _ H2 Hl2)) as (_ & ? & ?).
           unfold separate. rewrite Hd, Ha. repeat split; lia.
        -- rewrite Hline in Hl2. injection Hl2 as <-.
           destruct (Hold _ _ H1 (Hback _ _ H1 Hl1)) as (_ & ? & ?).
           unfold separate. rewrite Hd, Ha. repeat split; lia.
        -- eapply (Hsep l1 l2); eauto.
Qed.

Lemma rebuilt_from_owns d items s V : rebuilt_from d items s V -> owns s V.
Proof.
  intros [Hown Hsep]. split; [|exact Hsep].
  intros l Hl. destruct (Hown l Hl) as (li & ? & ? & ? & ?). eauto 8.
Qed.

Lemma parse_lines_fresh dataLine s d s' :
  parse_lines dataLine s = (Ok d, s') ->
  NoDup (map snd d) /\ rebuilt_from [] [] s' (map snd d).
Proof.
  unfold parse_lines. intros H. step H.
  eapply parse_lines_loop_fresh; [| |exact H].
  - apply NoDup_nil. exact I.
  - apply rebuilt_from_nil.
Qed.

Lemma well_formed_init : well_formed init.
Proof.
  split; [apply NoDup_nil; exact I|]. split; intros; contradiction.
Qed.

Lemma _parse_stop_info_done response stop_id s s' :
  py_get response "code" = Ok (JStr "00") ->
  _parse_stop_info response stop_id s = (Ok tt, s') ->
  exists rs name coordinates address dataLine d,
    stop_detail_body response = Ok (rs, name, coordinates, address, dataLine) /\
    stop_info s' = mkSnapshot (JStr stop_id) name coordinates address d /\
    well_formed s' /\
    extends s s' /\
    forall k l, lines_get k d = Some l ->
      stored_arrivals s' k = Some [] /\ stored_distance s' k = Some [].
Proof.
  intros Hc. rewrite _parse_stop_info_runs.
  unfold reraise_lookup, bind at 1, lift at 1. rewrite Hc.
  cbn [str_eq String.eqb Ascii.eqb Bool.eqb negb].
  unfold bind at 1, lift at 1.
  destruct (stop_detail_body response)
    as [[[[[rs name] coordinates] address] dataLine]|e0];
    [|destruct e0; discriminate].
  unfold bind. pose proof (grows_parse_lines dataLine s) as Hg.
  destruct (parse_lines dataLine s) as [[d|e1] s1] eqn:E;
    [|destruct e1; discriminate].
  unfold modify. intros [= <-]. cbn [snd] in Hg.
  destruct (parse_lines_fresh _ _ _ _ E) as [Hnd Hre].
  exists rs, name, coordinates, address, dataLine, d.
  split; [reflexivity|]. split; [reflexivity|].
  assert (Hre' : rebuilt_from [] []
            (set_stop_info (mkSnapshot (JStr stop_id) name coordinates address d) s1)
            (map snd d)) by exact Hre.
  split; [split; [exact Hnd | eapply rebuilt_from_owns, Hre']|].
  split; [exact Hg|].
  intros k l Hl. destruct Hre' as [Hown _].
  destruct (Hown l (lines_get_In _ _ _ Hl)) as (li & Hli & Ha & Hd & _).
  unfold stored_arrivals, stored_distance, known_line.
  cbn [stop_info set_stop_info lines]. rewrite Hl, Hli. split; assumption.
Qed.

(** X5: a [_parse_stop_info] that returns on an answer with code "00" has
    replaced the five entries of the snapshot: the stop id is the argument
    [stop_id] (the answer's own [stop] entry is not read), name, coordinates
    and address are the answer's, and [lines] is a new mapping in which every
    line has an empty [arrivals] and an empty [distance] list.  The state is
    well formed, and the objects of the snapshot it replaced are untouched. *)
Theorem stop_info_success_replaces_snapshot response stop_id s s' :
  py_get response "code" = Ok (JStr "00") ->
  _parse_stop_info response stop_id s = (Ok tt, s') ->
  exists rs name coordinates address dataLine d,
    stop_detail_body response = Ok (rs, name, coordinates, address, dataLine) /\
    stop_info s' = mkSnapshot (JStr stop_id) name coordinates address d /\
    well_formed s' /\
    extends s s' /\
    forall k l, lines_get k d = Some l ->
      stored_arrivals s' k = Some [] /\ stored_distance s' k = Some [].
Proof. apply _parse_stop_info_done. Qed.

(** ** Labels *)

Lemma lines_get_set_is_Some k k' l d :
  is_Some (lines_get k (lines_set k' l d)) <-> k = k' \/ is_Some (lines_get k d).
Proof.
  rewrite lines_get_set. destruct (key_eqb k k') eqn:E.
  - apply key_eqb_eq in E. split; [auto | eauto].
  - split; [auto|]. intros [->|H]; [|assumption].
    assert (key_eqb k' k' = true) by (apply key_eqb_eq; reflexivity). congruence.
Qed.

Lemma length_lines_set k l d : (length (lines_set k l d) <= S (length d))%nat.
Proof.
  induction d as [|[k0 l0] d IH]; cbn [lines_set length]; [lia|].
  destruct (key_eqb k k0); cbn [length]; lia.
Qed.

Lemma parse_lines_loop_labels items : forall d0 s d s',
  parse_lines_loop items d0 s = (Ok d, s') ->
  (forall k, is_Some (lines_get k d) <->
     is_Some (lines_get k d0) \/
     exists line, In line items /\ rbind (py_getitem line "label") py_hash = Ok k) /\
  (length d <= length d0 + length items)%nat.
Proof.
  induction items as [|line rest IH]; intros d0 s d s' H.
  - apply ret_ok in H as [-> ->]. split; [|lia].
    intros k. split; [auto|]. intros [H|(line & [] & _)]. assumption.
  - cbn [parse_lines_loop] in H.
    step H. apply bind_ok in H as (entry & s1 & Hentry & H). step H. step H.
    destruct (IH _ _ _ _ H) as [Hk Hlen]. split.
    + intros k. rewrite Hk, lines_get_set_is_Some. split.
      * intros [[->|H0]|(line' & Hin & Hl)].
        -- right. exists line. split; [left; reflexivity|].
           rewrite Hstep. exact Hstep0.
        -- auto.
        -- right. exists line'. split; [right; assumption|assumption].
      * intros [H0|(line' & [<-|Hin] & Hl)].
        -- auto.
        -- left. left. rewrite Hstep in Hl. cbn [rbind] in Hl. congruence.
        -- right. eauto.
    + pose proof (length_lines_set a0 (length (store s1)) d0). cbn [length]. lia.
Qed.

(** X6: the mapping [parse_lines] returns has exactly the labels of the
    records it was given: a label is a key of the result if and only if some
    record carries it.  Labels given more than once give one key, so the
    mapping has at most as many lines as there are records. *)
Theorem parse_lines_labels dataLine s d s' :
  parse_lines dataLine s = (Ok d, s') ->
  exists items,
    py_iter dataLine = Ok items /\
    (forall k, is_Some (lines_get k d) <->
       exists line, In line items /\ rbind (py_getitem line "label") py_hash = Ok k) /\
    (length d <= length items)%nat.
Proof.
  unfold parse_lines. intros H. step H. exists a. split; [assumption|].
  destruct (parse_lines_loop_labels _ _ _ _ _ H) as [Hk Hlen]. split; [|exact Hlen].
  intros k. rewrite Hk. split; [|auto]. intros [[x Hx]|H0]; [discriminate|assumption].
Qed.

(** ** The other entries of a line *)

Lemma line_entry_copied line s li s' :
  line_entry line s = (Ok li, s') -> copied line li.
Proof.
  unfold line_entry. intros H. do 13 step H. apply ret_ok in H as [-> ->].
  unfold copied. cbn [start_time end_time day_type max_freq min_freq].
  repeat split; try assumption.
  - eexists. split; [|reflexivity]. rewrite Hstep3. assumption.
  - eexists. split; [|reflexivity]. rewrite Hstep5. assumption.
Qed.

Lemma parse_lines_loop_built (P : json -> LineInfo -> Prop) all items :
  (forall line s li s', line_entry line s = (Ok li, s') -> P line li) ->
  forall d0 s d s',
  (forall line, In line items -> In line all) ->
  (forall k l, lines_get k d0 = Some l ->
     exists line li, In line all /\
       rbind (py_getitem line "label") py_hash = Ok k /\
       line_at s l = Some li /\ P line li) ->
  parse_lines_loop items d0 s = (Ok d, s') ->
  forall k l, lines_get k d = Some l ->
    exists line li, In line all /\
      rbind (py_getitem line "label") py_hash = Ok k /\
      line_at s' l = Some li /\ P line li.
Proof.
  intros HP. induction items as [|line rest IH]; intros d0 s d s' Hin Hd0 H.
  - apply ret_ok in H as [-> ->]. assumption.
  - cbn [parse_lines_loop] in H.
    step H. apply bind_ok in H as (entry & s1 & Hentry & H).
    step H. step H.
    pose proof (HP _ _ _ _ Hentry) as HPe.
    pose proof (grows_line_entry line s) as Hext. rewrite Hentry in Hext.
    cbn [snd] in Hext.
    eapply IH; [| |exact H].
    + intros line' Hl. apply Hin. right. assumption.
    + intros k l. rewrite lines_get_set.
      destruct (key_eqb k a0) eqn:E.
      * apply key_eqb_eq in E as ->. intros [= <-].
        exists line, entry. split; [apply Hin; left; reflexivity|].
        split; [rewrite Hstep; assumption|]. split; [|assumption].
        apply line_at_store. cbn [store set_store].
        apply list_lookup_middle. reflexivity.
      * intros Hl. destruct (Hd0 k l Hl) as (line' & li & ? & ? & Hat & ?).
        exists line', li. repeat split; try assumption.
        eapply line_at_extends; [|exact Hat].
        eapply extends_trans; [exact Hext | apply extends_alloc].
Qed.

(** X7: every line dictionary [parse_lines] returns was built from a record
    with that label: [start_time], [end_time] and [day_type] are the
    record's [startTime], [stopTime] and [dayType], and [max_freq] and
    [min_freq] are its [maxFreq] and [minFreq] converted by [int]. *)
Theorem parse_lines_copies_fields dataLine s d s' :
  parse_lines dataLine s = (Ok d, s') ->
  exists items,
    py_iter dataLine = Ok items /\
    forall k l, lines_get k d = Some l ->
      exists line li, In line items /\
        rbind (py_getitem line "label") py_hash = Ok k /\
        line_at s' l = Some li /\ copied line li.
Proof.
  unfold parse_lines. intros H. step H. exists a. split; [assumption|].
  eapply (parse_lines_loop_built copied a a line_entry_copied); [| |exact H]; [auto|].
  intros k l Hl. discriminate Hl.
Qed.

(** ** Arrival answers: when the parse returns *)

Lemma clear_lines_total vs : forall s,
  (forall l, In l vs -> exists li, line_at s l = Some li) ->
  exists s', clear_lines vs s = (Ok tt, s').
Proof.
  induction vs as [|l rest IH]; intros s H.
  - eexists. reflexivity.
  - destruct (H l (or_introl eq_refl)) as [li Hli].
    rewrite (clear_lines_cons _ _ _ _ Hli). apply IH.
    intros l' Hin. destruct (decide (l' = l)) as [->|Hne].
    + eexists. apply line_at_clear_one_eq, Hli.
    + rewrite line_at_clear_one_ne by assumption.
      apply H. right. assumption.
Qed.

Lemma store_arrival_total d pre item V s :
  lines (stop_info s) = d ->
  (forall k l, lines_get k d = Some l -> In l V) ->
  rebuilt_from d pre s V ->
  well_shaped item ->
  exists s', store_arrival item s = (Ok tt, s').
Proof.
  intros Hd HV [Hown Hsep] (v & k & e & x & Hv & Hk & He & Hx & Hfit).
  apply int_div_60_returns in Hfit as [q Hq].
  unfold store_arrival. unfold bind at 1, lift at 1. rewrite Hv.
  unfold bind at 1, lift at 1. rewrite Hk.
  unfold bind at 1, get_state.
  unfold bind at 1, lift at 1. rewrite He.
  unfold bind at 1, lift at 1. rewrite arrival_minutes_seconds, Hx, Hq, Hd.
  cbn [rbind].
  destruct (lines_get k d) as [l|] eqn:El; [|eexists; reflexivity].
  destruct (Hown l (HV _ _ El)) as (li & Hli & Ha & Hdist & Hne).
  unfold bind at 1. rewrite (read_line_known _ _ _ Hli).
  unfold bind at 1. rewrite (list_append_known _ _ _ _ Ha).
  unfold bind at 1.
  rewrite (read_line_known _ _ li)
    by (rewrite (line_at_with_list _ _ _ _ _ Ha); exact Hli).
  assert (Hb : exists b, py_get item "DistanceBus" = Ok b).
  { destruct item; try discriminate. eexists. reflexivity. }
  destruct Hb as [b Hb]. unfold bind at 1, lift at 1. rewrite Hb.
  rewrite (list_append_known _ _ (distances_for d l pre))
    by (rewrite list_at_with_list_ne by exact Hne; exact Hdist).
  eexists. reflexivity.
Qed.

Lemma store_arrivals_total d V items : forall pre s,
  lines (stop_info s) = d ->
  (forall k l, lines_get k d = Some l -> In l V) ->
  rebuilt_from d pre s V ->
  Forall well_shaped items ->
  exists s', store_arrivals items s = (Ok tt, s').
Proof.
  induction items as [|item rest IH]; intros pre s Hd HV Hre Hall.
  - eexists. reflexivity.
  - apply Forall_cons in Hall as [Hitem Hrest].
    destruct (store_arrival_total _ _ _ _ _ Hd HV Hre Hitem) as [s1 H1].
    destruct (store_arrival_rebuilt _ _ _ _ _ _ Hd HV Hre H1) as (Hre1 & Hinfo & _).
    destruct (IH (pre ++ [item]) s1) as [s2 H2]; try assumption; [congruence|].
    exists s2. cbn [store_arrivals]. unfold bind. rewrite H1. exact H2.
Qed.


Lemma In_values s l :
  In l (rev (map snd (lines (stop_info s))) ++ []) <->
  In l (map snd (lines (stop_info s))).
Proof. rewrite app_nil_r, <- in_rev. reflexivity. Qed.

Lemma rebuild_arrivals_returns response s items :
  well_formed s ->
  arrive_records response = Ok items ->
  Forall well_shaped items ->
  exists s', rebuild_arrivals response s = (Ok tt, s').
Proof.
  intros [_ [Hown _]] Hrec Hall. unfold rebuild_arrivals.
  unfold bind at 1, get_state.
  destruct (clear_lines_total (map snd (lines (stop_info s))) s) as [s1 Hclear].
  { intros l Hl. destruct (Hown l Hl) as (li & xs & ys & Hli & _). eauto. }
  unfold bind at 1. rewrite Hclear.
  destruct (clear_lines_rebuilt (lines (stop_info s)) _ [] _ _
              (rebuilt_from_nil _ _) Hclear) as (Hre & Hinfo & _).
  unfold arrive_records in Hrec. unfold bind, lift.
  destruct (py_getitem response "data") as [data|]; cbn [rbind] in Hrec;
    [|discriminate].
  destruct (py_index0 data) as [first|]; cbn [rbind] in Hrec; [|discriminate].
  destruct (py_get_default first "Arrive" (JList [])) as [arrive|];
    cbn [rbind] in Hrec; [|discriminate].
  rewrite Hrec.
  apply (store_arrivals_total (lines (stop_info s))
           (rev (map snd (lines (stop_info s))) ++ []) items []);
    [congruence| |assumption|assumption].
  intros k l Hl. apply In_values. eapply lines_get_In, Hl.
Qed.

Lemma rebuild_arrivals_well_formed response s s' :
  well_formed s ->
  rebuild_arrivals response s = (Ok tt, s') ->
  well_formed s'.
Proof.
  intros [Hnd _] H. unfold rebuild_arrivals in H. step H.
  apply bind_ok in H as ([] & s1 & Hclear & H). do 4 step H.
  destruct (clear_lines_rebuilt (lines (stop_info s)) _ [] _ _
              (rebuilt_from_nil _ _) Hclear) as (Hre & Hinfo & _).
  destruct (store_arrivals_rebuilt (lines (stop_info s))
              (rev (map snd (lines (stop_info s))) ++ []) a2 [] s1 s')
    as (Hre' & Hinfo' & _); [congruence| |assumption|assumption|].
  { intros k l Hl. apply In_values. eapply lines_get_In, Hl. }
  split.
  - rewrite Hinfo', Hinfo. exact Hnd.
  - rewrite Hinfo', Hinfo. apply rebuilt_from_owns in Hre'.
    destruct Hre' as [Hown Hsep]. split.
    + intros l Hl. apply Hown, In_values, Hl.
    + intros l1 l2 li1 li2 H1 H2. apply Hsep; apply In_values; assumption.
Qed.

Lemma _parse_arrivals_runs response c s :
  py_get response "code" = Ok c -> str_eq c "80" = false ->
  _parse_arrivals response s =
  reraise_lookup "Unable to get the arrival times from the API"
    (rebuild_arrivals response) s.
Proof.
  intros Hc Hn. unfold _parse_arrivals, reraise_lookup, bind at 1, lift.
  rewrite Hc, Hn. reflexivity.
Qed.

Lemma parse_arrivals_runs response c s :
  py_get response "code" = Ok c -> str_eq c "80" = false ->
  parse_arrivals response s =
  handle_signals (rebuild_arrivals response ;;; ret TheSnapshot) s.
Proof.
  intros Hc Hn. unfold parse_arrivals, handle_signals.
  unfold bind at 1, lift at 1. rewrite Hc. cbv beta iota. rewrite Hn.
  unfold bind at 1, ret at 1. unfold bind at 1, lift at 1.
  cbv beta iota. rewrite Hn. unfold bind at 1, ret at 1. reflexivity.
Qed.


(** ** Arrival answers: edge cases *)

Lemma clear_lines_cleared s s1 :
  clear_lines (map snd (lines (stop_info s))) s = (Ok tt, s1) ->
  all_cleared s s1.
Proof.
  intros Hclear.
  destruct (clear_lines_rebuilt (lines (stop_info s)) _ [] _ _
              (rebuilt_from_nil _ _) Hclear) as ([Hown _] & Hinfo & _).
  split; [exact Hinfo|]. intros k l Hl.
  destruct (Hown l) as (li & Hli & Ha & Hd & _).
  { apply In_values. eapply lines_get_In, Hl. }
  unfold stored_arrivals, stored_distance, known_line.
  rewrite Hinfo, Hl, Hli. split; assumption.
Qed.

Lemma lookup_raises response e :
  rbind (py_getitem response "data") py_index0 = Raise e ->
  e = KeyError \/ e = IndexError \/ e = TypeError.
Proof.
  destruct response; cbn; try (intros [= <-]; auto).
  destruct (dict_lookup "data" members) as [data|]; cbn; [|intros [= <-]; auto].
  destruct data as [| | |str|[|]|]; cbn [rbind py_index0];
    try (intros [= <-]; auto).
  destruct (characters str) as [|[c cp] rest]; intros [= <-]; auto.
Qed.

(** X9: when the answer's code is not "80" and [data[0]] cannot be read,
    both arrival parsers raise, but only after the loop that empties the
    lists has run: every line of the snapshot is left with empty [arrivals]
    and [distance].  The method raises [ValueError("Unable to get the
    arrival times from the API")] for a missing [data] or an empty list, the
    function of [parser.py] lets the lookup error through. *)
Theorem arrivals_without_data_clears_lines response c s e :
  well_formed s ->
  py_get response "code" = Ok c -> str_eq c "80" = false ->
  rbind (py_getitem response "data") py_index0 = Raise e ->
  exists s1,
    _parse_arrivals response s =
      (Raise (if is_lookup_error e
              then ValueError "Unable to get the arrival times from the API"
              else e), s1) /\
    parse_arrivals response s = (Raise e, s1) /\
    all_cleared s s1.
Proof.
  intros [_ [Hown _]] Hc Hn He.
  destruct (clear_lines_total (map snd (lines (stop_info s))) s) as [s1 Hclear].
  { intros l Hl. destruct (Hown l Hl) as (li & xs & ys & Hli & _). eauto. }
  assert (Hre : rebuild_arrivals response s = (Raise e, s1)).
  { unfold rebuild_arrivals. unfold bind at 1, get_state. unfold bind at 1.
    rewrite Hclear. unfold bind, lift.
    destruct (py_getitem response "data") as [data|e0]; cbn [rbind] in He.
    - rewrite He. reflexivity.
    - congruence. }
  exists s1. split; [|split; [|apply clear_lines_cleared, Hclear]].
  - rewrite (_parse_arrivals_runs _ _ _ Hc Hn). unfold reraise_lookup.
    rewrite Hre. destruct (lookup_raises _ _ He) as [->|[->| ->]]; reflexivity.
  - rewrite (parse_arrivals_runs _ _ _ Hc Hn). unfold handle_signals, bind.
    rewrite Hre. destruct (lookup_raises _ _ He) as [->|[->| ->]]; reflexivity.
Qed.

(** X10: when the first [data] entry is a dictionary without [Arrive], the
    default [[]] of [.get("Arrive", [])] is used: both arrival parsers
    return, and every line of the snapshot has empty [arrivals] and
    [distance]. *)
Theorem arrivals_without_Arrive_empties_lines response c data first s :
  well_formed s ->
  py_get response "code" = Ok c -> str_eq c "80" = false ->
  py_getitem response "data" = Ok data ->
  py_index0 data = Ok (JDict first) ->
  dict_lookup "Arrive" first = None ->
  exists s',
    _parse_arrivals response s = (Ok tt, s') /\
    parse_arrivals response s = (Ok TheSnapshot, s') /\
    all_cleared s s'.
Proof.
  intros Hwf Hc Hn Hdata Hfirst Harrive.
  assert (Hrec : arrive_records response = Ok []).
  { unfold arrive_records. rewrite Hdata. cbn [rbind]. rewrite Hfirst.
    cbn [rbind py_get_default]. rewrite Harrive. reflexivity. }
  destruct (rebuild_arrivals_returns _ _ _ Hwf Hrec (Forall_nil_2 _)) as [s' Hre].
  exists s'. split; [|split].
  - rewrite (_parse_arrivals_runs _ _ _ Hc Hn). unfold reraise_lookup.
    rewrite Hre. reflexivity.
  - rewrite (parse_arrivals_runs _ _ _ Hc Hn). unfold handle_signals, bind.
    rewrite Hre. reflexivity.
  - destruct (rebuild_arrivals_rebuilt _ _ _ Hre) as (items & Hit & Hinfo & _ & Hl).
    rewrite Hrec in Hit. injection Hit as <-. split; [exact Hinfo|].
    intros k l Hk. destruct (Hl k l Hk) as (_ & Ha & Hd). split; assumption.
Qed.

(** X11: after a successful arrivals parse, every element of a line's
    stored [arrivals] is an integer, and none exceeds 45. *)
Theorem stored_minutes_at_most_45 response s s' k l xs :
  parsed_arrivals response s s' ->
  lines_get k (lines (stop_info s)) = Some l ->
  stored_arrivals s' k = Some xs ->
  Forall (fun m => exists t, m = JInt t /\ t <= 45) xs.
Proof.
  intros H Hk Hxs.
  destruct (parsed_arrivals_rebuilt _ _ _ H) as (items & _ & _ & Hall & Hl).
  destruct (Hl k l Hk) as (_ & Ha & _). rewrite Hxs in Ha. injection Ha as ->.
  unfold arrivals_for. apply Forall_map.
  apply List.Forall_forall. intros item Hin.
  apply List.filter_In in Hin as [Hin _].
  rewrite List.Forall_forall in Hall.
  destruct (Hall item Hin) as (e & x & t & _ & _ & _ & Hm & Ht & _).
  cbn. rewrite Hm. exists t. split; [reflexivity | exact Ht].
Qed.

(** ** The two flavours of each parser *)

Lemma plain_bind {A B} (m : M A) (k : A -> M B) :
  plain m -> (forall a, plain (k a)) -> plain (bind m k).
Proof.
  intros Hm Hk s e. unfold bind. specialize (Hm s).
  destruct (m s) as [[a|e0] s1]; cbn [fst] in *; [apply Hk|].
  intros [= <-]. apply Hm. reflexivity.
Qed.

Lemma plain_lift {A} (r : result A) : plain_result r -> plain (lift r).
Proof. intros H s e. unfold lift. cbn [fst]. apply H. Qed.

Lemma plain_total {A} (m : M A) : (forall s, exists a, fst (m s) = Ok a) -> plain m.
Proof. intros H s e He. destruct (H s) as [a Ha]. congruence. Qed.

Ltac not_signal := intros e [= <-]; intros [H|H]; discriminate H.

Lemma plain_py_getitem v k : plain_result (py_getitem v k).
Proof.
  destruct v; cbn; try destruct (dict_lookup k members);
    first [ intros e H; discriminate H | not_signal ].
Qed.

Lemma plain_py_index0 v : plain_result (py_index0 v).
Proof.
  destruct v as [| | |str|[|]|]; cbn [py_index0];
    try destruct (characters str) as [|[c cp] rest];
    first [ intros e H; discriminate H | not_signal ].
Qed.

Lemma plain_py_get_default v k d : plain_result (py_get_default v k d).
Proof. destruct v; cbn; first [ intros e H; discriminate H | not_signal ]. Qed.

Lemma plain_py_iter v : plain_result (py_iter v).
Proof. destruct v; cbn; first [ intros e H; discriminate H | not_signal ]. Qed.

Lemma plain_py_hash v : plain_result (py_hash v).
Proof. destruct v; cbn; first [ intros e H; discriminate H | not_signal ]. Qed.

Lemma plain_arrival_minutes v : plain_result (arrival_minutes v).
Proof.
  rewrite arrival_minutes_seconds. destruct (seconds v) as [x|]; [|not_signal].
  unfold int_div_60. destruct (overflow_60 <=? Z.abs x); cbn [rbind];
    first [ intros e H; discriminate H | not_signal ].
Qed.

Lemma plain_read_line l : plain (read_line l).
Proof.
  intros s e. unfold read_line.
  destruct (store s !! l) as [[]|]; cbn [fst]; intros [= <-]; intros [H|H];
    discriminate H.
Qed.

Lemma plain_read_list l : plain (read_list l).
Proof.
  intros s e. unfold read_list.
  destruct (store s !! l) as [[]|]; cbn [fst]; intros [= <-]; intros [H|H];
    discriminate H.
Qed.

Ltac plainly :=
  repeat first
    [ apply plain_read_line | apply plain_read_list
    | apply plain_lift;
      first [ apply plain_py_getitem | apply plain_py_index0
            | apply plain_py_get_default | apply plain_py_iter
            | apply plain_py_hash | apply plain_arrival_minutes ]
    | apply plain_total; intros; eexists; reflexivity
    | apply plain_bind; [ | intros ] ].

Lemma plain_clear_lines vs : plain (clear_lines vs).
Proof. induction vs as [|l rest IH]; cbn [clear_lines]; plainly. exact IH. Qed.

Lemma plain_store_arrival item : plain (store_arrival item).
Proof.
  unfold store_arrival, py_get, list_append. plainly.
  match goal with |- plain (match ?o with _ => _ end) => destruct o end; plainly.
Qed.

Lemma plain_store_arrivals items : plain (store_arrivals items).
Proof.
  induction items as [|item rest IH]; cbn [store_arrivals].
  - plainly.
  - apply plain_bind; [apply plain_store_arrival | intros; exact IH].
Qed.

Lemma plain_rebuild_arrivals response : plain (rebuild_arrivals response).
Proof.
  unfold rebuild_arrivals.
  apply plain_bind; [plainly|]. intros.
  apply plain_bind; [apply plain_clear_lines|]. intros.
  do 4 (apply plain_bind; [plainly|]; intros).
  apply plain_store_arrivals.
Qed.

(** X12: on an answer whose code is not "80", [APIEMT._parse_arrivals] and
    [parser.parse_arrivals] leave the same state and succeed on the same
    answers; when the function raises [e], the method raises [ValueError]
    in place of a [KeyError] or [IndexError] and [e] itself otherwise. *)
Theorem arrival_parsers_agree response c s :
  py_get response "code" = Ok c -> str_eq c "80" = false ->
  snd (_parse_arrivals response s) = snd (parse_arrivals response s) /\
  fst (_parse_arrivals response s) =
    match fst (parse_arrivals response s) with
    | Ok _ => Ok tt
    | Raise e => Raise (wrapped "Unable to get the arrival times from the API" e)
    end /\
  (forall s', parse_arrivals response s = (Ok TheSnapshot, s') <->
              _parse_arrivals response s = (Ok tt, s')).
Proof.
  intros Hc Hn.
  rewrite (_parse_arrivals_runs _ _ _ Hc Hn), (parse_arrivals_runs _ _ _ Hc Hn).
  unfold reraise_lookup, handle_signals, bind.
  pose proof (plain_rebuild_arrivals response s) as Hp.
  destruct (rebuild_arrivals response s) as [[[]|e] s1]; cbn [fst snd] in *.
  - split; [reflexivity|]. split; [reflexivity|].
    intros s'. unfold ret. split; intros [= <-]; reflexivity.
  - specialize (Hp e eq_refl).
    destruct e; try (exfalso; apply Hp; unfold signal; auto; fail);
      (split; [reflexivity|]); (split; [reflexivity|]);
      intros s'; split; discriminate.
Qed.

Lemma dict_lookup_set k k' v d :
  dict_lookup k (dict_set k' v d) =
  if String.eqb k k' then Some v else dict_lookup k d.
Proof.
  induction d as [|[k0 v0] d IH]; cbn [dict_set dict_lookup].
  - destruct (String.eqb k k'); reflexivity.
  - destruct (String.eqb k' k0) eqn:E0; cbn [dict_lookup].
    + apply String.eqb_eq in E0 as ->. destruct (String.eqb k k0); reflexivity.
    + rewrite IH. destruct (String.eqb k k0) eqn:E1; [|reflexivity].
      apply String.eqb_eq in E1 as ->.
      rewrite String.eqb_sym, E0. reflexivity.
Qed.

(** X13: on an answer with code "00" whose stop record can be read and has
    a [stop] entry, [APIEMT._parse_stop_info] returns exactly when
    [parser.parse_stop_info] returns the snapshot, and the two leave the
    same lines and the same objects.  They differ in the entries they
    write: the method replaces [bus_stop_id] (by its argument),
    [bus_stop_name], [bus_stop_coordinates] and [bus_stop_address]; the
    function leaves those four as they were and writes [stop_id] (the
    answer's [stop]), [stop_name], [stop_coordinates] and [stop_address]. *)
Theorem stop_info_parsers_differ_in_keys
    response stop_id s rs name coordinates address dataLine stop :
  py_get response "code" = Ok (JStr "00") ->
  stop_detail_body response = Ok (rs, name, coordinates, address, dataLine) ->
  py_getitem rs "stop" = Ok stop ->
  ((exists s1, _parse_stop_info response stop_id s = (Ok tt, s1)) <->
   (exists s2, parse_stop_info response s = (Ok TheSnapshot, s2))) /\
  forall s1 s2,
    _parse_stop_info response stop_id s = (Ok tt, s1) ->
    parse_stop_info response s = (Ok TheSnapshot, s2) ->
    lines (stop_info s2) = lines (stop_info s1) /\
    store s2 = store s1 /\
    stop_info s1 =
      mkSnapshot (JStr stop_id) name coordinates address (lines (stop_info s1)) /\
    other_entries s1 = other_entries s /\
    bus_stop_id (stop_info s2) = bus_stop_id (stop_info s) /\
    bus_stop_name (stop_info s2) = bus_stop_name (stop_info s) /\
    bus_stop_coordinates (stop_info s2) = bus_stop_coordinates (stop_info s) /\
    bus_stop_address (stop_info s2) = bus_stop_address (stop_info s) /\
    dict_lookup "stop_id" (other_entries s2) = Some stop /\
    dict_lookup "stop_name" (other_entries s2) = Some name /\
    dict_lookup "stop_coordinates" (other_entries s2) = Some coordinates /\
    dict_lookup "stop_address" (other_entries s2) = Some address.
Proof.
  intros Hc Hbody Hstop.
  pose proof (keeps_parse_lines stop_info dataLine (fun _ _ => eq_refl) s) as Ki.
  pose proof (keeps_parse_lines other_entries dataLine (fun _ _ => eq_refl) s) as Ko.
  assert (Hclass : forall s1,
            _parse_stop_info response stop_id s = (Ok tt, s1) <->
            exists d s0, parse_lines dataLine s = (Ok d, s0) /\
              s1 = set_stop_info
                     (mkSnapshot (JStr stop_id) name coordinates address d) s0).
  { intros s1. rewrite _parse_stop_info_runs.
    unfold reraise_lookup, bind, lift, modify. rewrite Hc.
    cbn [str_eq String.eqb Ascii.eqb Bool.eqb negb]. rewrite Hbody.
    destruct (parse_lines dataLine s) as [[d|e] s0].
    - split; [intros [= <-]; eauto | intros (? & ? & [= <- <-] & ->); reflexivity].
    - split; [destruct e; discriminate | intros (? & ? & [=] & _)]. }
  assert (Hfun : forall s2,
            parse_stop_info response s = (Ok TheSnapshot, s2) <->
            exists d s0, parse_lines dataLine s = (Ok d, s0) /\
              s2 = update_parsed stop name coordinates address d s0).
  { intros s2. unfold parse_stop_info, handle_signals, bind, lift, ret, raise, modify.
    rewrite Hc. cbn [str_eq String.eqb Ascii.eqb Bool.eqb].
    unfold stop_detail_body in Hbody.
    destruct (py_getitem response "data") as [data|];
      cbn [rbind] in Hbody; [|discriminate].
    destruct (py_index0 data) as [first|]; cbn [rbind] in Hbody; [|discriminate].
    destruct (py_getitem first "stops") as [stops|];
      cbn [rbind] in Hbody; [|discriminate].
    destruct (py_index0 stops) as [rs'|]; cbn [rbind] in Hbody; [|discriminate].
    destruct (py_getitem rs' "name") as [name'|] eqn:En;
      cbn [rbind] in Hbody; [|discriminate].
    destruct (py_getitem rs' "geometry") as [geometry|] eqn:Eg;
      cbn [rbind] in Hbody; [|discriminate].
    destruct (py_getitem geometry "coordinates") as [coordinates'|] eqn:Eco;
      cbn [rbind] in Hbody; [|discriminate].
    destruct (py_getitem rs' "postalAddress") as [address'|] eqn:Ea;
      cbn [rbind] in Hbody; [|discriminate].
    destruct (py_getitem rs' "dataLine") as [dataLine'|] eqn:Ed;
      cbn [rbind] in Hbody; [|discriminate].
    injection Hbody as -> -> -> -> ->.
    rewrite Hstop.
    destruct (parse_lines dataLine s) as [[d|e] s0].
    - split; [intros [= <-]; eauto | intros (? & ? & [= <- <-] & ->); reflexivity].
    - split; [destruct e; discriminate | intros (? & ? & [=] & _)]. }
  split.
  - split; intros [s' H].
    + apply Hclass in H as (d & s0 & Hp & _). eexists. apply Hfun. eauto.
    + apply Hfun in H as (d & s0 & Hp & _). eexists. apply Hclass. eauto.
  - intros s1 s2 H1 H2.
    apply Hclass in H1 as (d & s0 & Hp & ->).
    apply Hfun in H2 as (d' & s0' & Hp' & ->).
    rewrite Hp in Hp'. injection Hp' as <- <-.
    rewrite Hp in Ki, Ko. cbn [snd] in Ki, Ko.
    unfold update_parsed.
    cbn [stop_info other_entries store set_stop_info set_other_entries lines
         bus_stop_id bus_stop_name bus_stop_coordinates bus_stop_address].
    rewrite Ki, Ko, !dict_lookup_set.
    repeat split; reflexivity.
Qed.

(** ** The accessors, again *)

Lemma lookup_after {A} (h t : list A) (i : nat) :
  (h ++ t) !! (length h + i)%nat = t !! i.
Proof.
  rewrite lookup_app_r by lia. f_equal. lia.
Qed.

(** X14: for a line the snapshot does not hold, [get_line_info] logs a
    warning and returns a new dictionary whose seven scalar entries are
    [None], whose [distance] is [[None]] and whose [arrivals] is
    [[None, None]].  The dictionary is not added to the snapshot, and no
    object of the store is changed. *)
Theorem get_line_info_unknown line k s :
  py_hash line = Ok k ->
  lines_get k (lines (stop_info s)) = None ->
  exists l li s',
    get_line_info line s = (Ok l, s') /\
    line_at s' l = Some li /\ placeholder li /\
    list_at s' (distance li) = Some [JNull] /\
    list_at s' (arrivals li) = Some [JNull; JNull] /\
    line_at s l = None /\
    stop_info s' = stop_info s /\ extends s s' /\
    logged s' = logged s ++ [(WARNING, "The bus line %s does not exist at this stop.")].
Proof.
  intros Hk Hl.
  set (n := length (store s)).
  set (li := mkLineInfo JNull JNull JNull JNull JNull JNull JNull n (n + 1)%nat).
  set (s' := set_store (store s ++ [PyList [JNull]; PyList [JNull; JNull]; PyLine li])
               (set_logged (logged s ++
                  [(WARNING, "The bus line %s does not exist at this stop.")]) s)).
  exists (n + 1 + 1)%nat, li, s'.
  split.
  { unfold get_line_info, bind at 1, get_state.
    unfold bind at 1, lift. rewrite Hk, Hl.
    unfold bind, log, modify, alloc. cbn [store set_store set_logged].
    rewrite !length_app. cbn [length]. fold n. subst s' li. unfold set_store.
    cbn. rewrite <- !app_assoc. reflexivity. }
  split; [apply line_at_store; subst s' n; cbn [store set_store];
          rewrite <- Nat.add_assoc; rewrite lookup_after; reflexivity|].
  split; [repeat split|].
  split; [apply list_at_store; subst s' n li; cbn [store set_store distance];
          rewrite lookup_app_r by lia; rewrite Nat.sub_diag; reflexivity|].
  split; [apply list_at_store; subst s' n li; cbn [store set_store arrivals];
          rewrite lookup_after; reflexivity|].
  split.
  { unfold line_at. rewrite lookup_ge_None_2; [reflexivity|]. subst n. lia. }
  split; [reflexivity|]. split; [|reflexivity].
  eexists. reflexivity.
Qed.

(** X15: for a known line, a second call of [get_arrival_time], or of
    [get_line_info], returns what the first returned and changes nothing:
    the padding is done once. *)
Theorem accessors_are_idempotent line k l li s :
  py_hash line = Ok k ->
  lines_get k (lines (stop_info s)) = Some l ->
  line_at s l = Some li ->
  (forall xs, list_at s (arrivals li) = Some xs ->
     let s1 := snd (get_arrival_time line s) in
     get_arrival_time line s1 = (Ok (arrivals li), s1)) /\
  (forall ys, list_at s (distance li) = Some ys ->
     let s1 := snd (get_line_info line s) in
     get_line_info line s1 = (Ok l, s1)).
Proof.
  intros Hk Hl Hli. split.
  - intros xs Hxs. rewrite (get_arrival_time_known _ _ _ _ _ _ Hk Hl Hli Hxs).
    cbn [snd]. pose proof (list_at_with_list_eq _ _ _ (padded xs) Hxs) as Hp.
    rewrite (get_arrival_time_known _ _ k l li (padded xs)); try assumption.
    + rewrite padded_long by (rewrite padded_length; lia).
      rewrite with_list_twice. reflexivity.
    + rewrite (line_at_with_list _ _ _ _ _ Hxs). exact Hli.
  - intros ys Hys. rewrite (get_line_info_known _ _ _ _ _ _ Hk Hl Hli Hys).
    cbn [snd]. destruct ys as [|y ys].
    + pose proof (list_at_with_list_eq _ _ _ [JNull] Hys) as Hp.
      rewrite (get_line_info_known _ _ k l li [JNull]); try assumption.
      * reflexivity.
      * rewrite (line_at_with_list _ _ _ _ _ Hys). exact Hli.
    + rewrite (get_line_info_known _ _ k l li (y :: ys)); try assumption.
      reflexivity.
Qed.

Lemma well_formed_with_list s a xs ys :
  list_at s a = Some xs -> well_formed s -> well_formed (with_list a ys s).
Proof.
  intros Ha [Hnd [Hown Hsep]]. split; [exact Hnd|].
  change (stop_info (with_list a ys s)) with (stop_info s). split.
  - intros l Hl. destruct (Hown l Hl) as (li & xs0 & ys0 & Hli & Ha0 & Hd0 & Hne).
    exists li. rewrite (line_at_with_list _ _ _ _ _ Ha).
    destruct (decide (a = arrivals li)) as [E1|N1];
      destruct (decide (a = distance li)) as [E2|N2]; try congruence.
    + subst a. exists ys, ys0. rewrite (list_at_with_list_eq _ _ _ _ Ha0).
      rewrite list_at_with_list_ne by assumption. auto.
    + subst a. exists xs0, ys. rewrite (list_at_with_list_eq _ _ _ _ Hd0).
      rewrite list_at_with_list_ne by assumption. auto.
    + exists xs0, ys0. rewrite !list_at_with_list_ne by assumption. auto.
  - intros l1 l2 li1 li2 H1 H2 Hne.
    rewrite !(line_at_with_list _ _ _ _ _ Ha). apply Hsep; assumption.
Qed.

Lemma stored_with_list_other s a xs ys k :
  list_at s a = Some xs ->
  (forall li, known_line s k = Some li -> arrivals li <> a) ->
  stored_arrivals (with_list a ys s) k = stored_arrivals s k.
Proof.
  intros Ha Hne. unfold stored_arrivals. rewrite (known_line_with_list _ _ _ _ _ Ha).
  destruct (known_line s k) as [li|] eqn:E; [|reflexivity].
  apply list_at_with_list_ne. intros Eq. apply (Hne li eq_refl). symmetry. exact Eq.
Qed.

Lemma stored_distance_with_list_other s a xs ys k :
  list_at s a = Some xs ->
  (forall li, known_line s k = Some li -> distance li <> a) ->
  stored_distance (with_list a ys s) k = stored_distance s k.
Proof.
  intros Ha Hne. unfold stored_distance. rewrite (known_line_with_list _ _ _ _ _ Ha).
  destruct (known_line s k) as [li|] eqn:E; [|reflexivity].
  apply list_at_with_list_ne. intros Eq. apply (Hne li eq_refl). symmetry. exact Eq.
Qed.

Lemma other_line_separate s k k' l li li' :
  well_formed s ->
  lines_get k (lines (stop_info s)) = Some l ->
  line_at s l = Some li ->
  k' <> k ->
  known_line s k' = Some li' ->
  separate li' li.
Proof.
  intros [Hnd [_ Hsep]] Hl Hli Hne Hk'. unfold known_line in Hk'.
  destruct (lines_get k' (lines (stop_info s))) as [l'|] eqn:El'; [|discriminate].
  apply (Hsep l' l); try assumption; try (eapply lines_get_In; eassumption).
  intros ->. apply Hne. eapply (NoDup_distinct_lines _ Hnd); eassumption.
Qed.

(** X16: on a well-formed state, [get_arrival_time] for a known line
    changes that line's [arrivals] list and nothing else: its [distance]
    and both lists of every other line are as before, and the state is
    still well formed. *)
Theorem get_arrival_time_touches_one_list line k l li xs s :
  well_formed s ->
  py_hash line = Ok k ->
  lines_get k (lines (stop_info s)) = Some l ->
  line_at s l = Some li ->
  list_at s (arrivals li) = Some xs ->
  let s1 := snd (get_arrival_time line s) in
  well_formed s1 /\
  stop_info s1 = stop_info s /\
  stored_distance s1 k = stored_distance s k /\
  forall k', k' <> k ->
    stored_arrivals s1 k' = stored_arrivals s k' /\
    stored_distance s1 k' = stored_distance s k'.
Proof.
  intros Hwf Hk Hl Hli Hxs.
  rewrite (get_arrival_time_known _ _ _ _ _ _ Hk Hl Hli Hxs). cbn [snd].
  split; [eapply well_formed_with_list; eassumption|]. split; [reflexivity|].
  split.
  - eapply stored_distance_with_list_other; [exact Hxs|].
    intros li0 H0. unfold known_line in H0. rewrite Hl, Hli in H0.
    injection H0 as <-. destruct Hwf as [_ [Hown _]].
    destruct (Hown l (lines_get_In _ _ _ Hl)) as (li0 & ? & ? & H0 & _ & _ & Hne).
    rewrite Hli in H0. injection H0 as <-. congruence.
  - intros k' Hne. split.
    + eapply stored_with_list_other; [exact Hxs|]. intros li' Hk'.
      destruct (other_line_separate _ _ _ _ _ _ Hwf Hl Hli Hne Hk') as (S1 & _).
      exact S1.
    + eapply stored_distance_with_list_other; [exact Hxs|]. intros li' Hk'.
      destruct (other_line_separate _ _ _ _ _ _ Hwf Hl Hli Hne Hk') as (_ & _ & S3 & _).
      exact S3.
Qed.

(** ** The substring test *)

Lemma is_prefix_spec p s : is_prefix p s = true <-> exists b, s = (p ++ b)%string.
Proof.
  revert s. induction p as [|a p IH]; intros s; cbn [is_prefix].
  - split; [eauto | reflexivity].
  - destruct s as [|c s].
    + split; [discriminate | intros [b H]; discriminate H].
    + rewrite andb_true_iff, Ascii.eqb_eq, IH. split.
      * intros [-> [b ->]]. exists b. reflexivity.
      * intros [b H]. cbn in H. injection H as -> ->. eauto.
Qed.

Lemma contains_spec p s :
  contains p s = true <-> exists a b, s = (a ++ p ++ b)%string.
Proof.
  induction s as [|c s IH]; cbn [contains]; rewrite orb_true_iff, is_prefix_spec.
  - split.
    + intros [[b H]|H]; [|discriminate]. exists "", b. exact H.
    + intros (a & b & H). left. destruct a; [eauto|discriminate].
  - rewrite IH. split.
    + intros [[b H]|(a & b & ->)].
      * exists "", b. exact H.
      * exists (String c a), b. reflexivity.
    + intros (a & b & H). destruct a as [|c' a].
      * left. eauto.
      * right. cbn in H. injection H as -> ->. eauto.
Qed.

(** X17: on an answer with code "80" and a string description,
    [parser.parse_arrivals] returns the marker [{"error": "Invalid token"}]
    if and only if the description contains "token" as a substring. *)
Theorem invalid_token_iff_substring response d s :
  py_get response "code" = Ok (JStr "80") ->
  py_get response "description" = Ok (JStr d) ->
  fst (parse_arrivals response s) = Ok (Value invalid_token_marker) <->
  exists a b, d = (a ++ "token" ++ b)%string.
Proof.
  intros Hc Hd. rewrite (parse_arrivals_code_80 _ _ _ Hc Hd), <- contains_spec.
  unfold invalid_token_marker.
  destruct (contains "token" d); cbn [fst]; split; congruence.
Qed.

(** ** Well-formed states *)

Lemma get_line_info_placeholder_runs line k s :
  py_hash line = Ok k ->
  lines_get k (lines (stop_info s)) = None ->
  exists l s',
    get_line_info line s = (Ok l, s') /\ stop_info s' = stop_info s /\ extends s s'.
Proof.
  intros Hk Hl. unfold get_line_info, bind at 1, get_state.
  unfold bind at 1, lift. rewrite Hk, Hl.
  unfold bind, log, modify, alloc. cbn [store set_store set_logged].
  eexists _, _. split; [reflexivity|]. split; [reflexivity|].
  eexists. cbn [store set_store]. rewrite <- !app_assoc. reflexivity.
Qed.

Lemma well_formed_extends s s' :
  extends s s' -> stop_info s' = stop_info s -> well_formed s -> well_formed s'.
Proof.
  intros Hext Hinfo [Hnd [Hown Hsep]]. unfold well_formed. rewrite Hinfo.
  split; [exact Hnd|]. split.
  - intros l Hl. destruct (Hown l Hl) as (li & xs & ys & Hli & Ha & Hd & Hne).
    exists li, xs, ys. split; [eapply line_at_extends; eassumption|].
    split; [eapply list_at_extends; eassumption|].
    split; [eapply list_at_extends; eassumption|assumption].
  - intros l1 l2 li1 li2 H1 H2 Hne Hl1 Hl2.
    destruct (Hown l1 H1) as (li1' & _ & _ & Hli1 & _).
    destruct (Hown l2 H2) as (li2' & _ & _ & Hli2 & _).
    rewrite (line_at_extends _ _ _ _ Hext Hli1) in Hl1.
    rewrite (line_at_extends _ _ _ _ Hext Hli2) in Hl2.
    injection Hl1 as <-. injection Hl2 as <-. eapply (Hsep l1 l2); eassumption.
Qed.

Lemma well_formed_same s s' :
  store s' = store s -> stop_info s' = stop_info s -> well_formed s -> well_formed s'.
Proof.
  intros Hst. apply well_formed_extends. exists []. rewrite Hst.
  symmetry. apply app_nil_r.
Qed.

Lemma _parse_stop_info_well_formed response stop_id s :
  well_formed s -> well_formed (snd (_parse_stop_info response stop_id s)).
Proof.
  intros Hwf. destruct (_parse_stop_info response stop_id s) as [[[]|e] s'] eqn:E;
    cbn [snd].
  - destruct (py_get response "code") as [c|e] eqn:Ec.
    + destruct (str_eq c "00") eqn:E00.
      * apply str_eq_true in E00 as ->.
        destruct (_parse_stop_info_done _ _ _ _ Ec E) as (? & ? & ? & ? & ? & ? & _ & _ & H & _).
        exact H.
      * rewrite (_parse_stop_info_not_00 _ _ _ _ Ec E00) in E. injection E as <-.
        eapply well_formed_same; [| |exact Hwf]; reflexivity.
    + exfalso. unfold _parse_stop_info, reraise_lookup, bind, lift in E.
      rewrite Ec in E. destruct e; discriminate.
  - destruct (_parse_stop_info_raised _ _ _ _ _ E) as (Hinfo & Hext & _).
    eapply well_formed_extends; eassumption.
Qed.

Lemma store_arrival_raised d pre item V s e s' :
  lines (stop_info s) = d ->
  (forall k l, lines_get k d = Some l -> In l V) ->
  rebuilt_from d pre s V ->
  store_arrival item s = (Raise e, s') ->
  s' = s.
Proof.
  intros Hd HV [Hown Hsep]. unfold store_arrival.
  unfold bind at 1, lift at 1.
  destruct (py_get item "line") as [v|]; [|intros [= _ <-]; reflexivity].
  unfold bind at 1, lift at 1.
  destruct (py_hash v) as [k|]; [|intros [= _ <-]; reflexivity].
  unfold bind at 1, get_state. unfold bind at 1, lift at 1.
  destruct (py_get item "estimateArrive") as [est|] eqn:Eest;
    [|intros [= _ <-]; reflexivity].
  unfold bind at 1, lift at 1.
  destruct (arrival_minutes est) as [t|]; [|intros [= _ <-]; reflexivity].
  rewrite Hd. destruct (lines_get k d) as [l|] eqn:El; [|discriminate].
  destruct (Hown l (HV _ _ El)) as (li & Hli & Ha & Hdist & Hne).
  unfold bind at 1. rewrite (read_line_known _ _ _ Hli).
  unfold bind at 1. rewrite (list_append_known _ _ _ _ Ha).
  unfold bind at 1.
  rewrite (read_line_known _ _ li)
    by (rewrite (line_at_with_list _ _ _ _ _ Ha); exact Hli).
  assert (Hb : exists b, py_get item "DistanceBus" = Ok b).
  { destruct item; try discriminate. eexists. reflexivity. }
  destruct Hb as [b Hb]. unfold bind at 1, lift at 1. rewrite Hb.
  rewrite (list_append_known _ _ (distances_for d l pre))
    by (rewrite list_at_with_list_ne by exact Hne; exact Hdist).
  discriminate.
Qed.

Lemma store_arrivals_owns d V items : forall pre s,
  lines (stop_info s) = d ->
  (forall k l, lines_get k d = Some l -> In l V) ->
  rebuilt_from d pre s V ->
  let s' := snd (store_arrivals items s) in
  stop_info s' = stop_info s /\ owns s' V.
Proof.
  induction items as [|item rest IH]; intros pre s Hd HV Hre; cbn [store_arrivals].
  - cbn. split; [reflexivity | eapply rebuilt_from_owns, Hre].
  - unfold bind. destruct (store_arrival item s) as [[[]|e] s1] eqn:E1.
    + destruct (store_arrival_rebuilt _ _ _ _ _ _ Hd HV Hre E1) as (Hre1 & Hinfo & _).
      destruct (IH (pre ++ [item]) s1) as [Hi Ho]; try assumption; [congruence|].
      cbv beta iota zeta in *. split; [rewrite Hi; exact Hinfo | exact Ho].
    + cbn [snd]. rewrite (store_arrival_raised _ _ _ _ _ _ _ Hd HV Hre E1).
      split; [reflexivity | eapply rebuilt_from_owns, Hre].
Qed.

Lemma owns_values s s' :
  stop_info s' = stop_info s ->
  NoDup (map snd (lines (stop_info s))) ->
  owns s' (rev (map snd (lines (stop_info s))) ++ []) ->
  well_formed s'.
Proof.
  intros Hinfo Hnd [Hown Hsep]. unfold well_formed. rewrite Hinfo.
  split; [exact Hnd|]. split.
  - intros l Hl. apply Hown, In_values, Hl.
  - intros l1 l2 li1 li2 H1 H2. apply Hsep; apply In_values; assumption.
Qed.

Lemma rebuild_arrivals_always_well_formed response s :
  well_formed s -> well_formed (snd (rebuild_arrivals response s)).
Proof.
  intros Hwf. pose proof Hwf as [Hnd [Hown _]]. unfold rebuild_arrivals.
  unfold bind at 1, get_state.
  destruct (clear_lines_total (map snd (lines (stop_info s))) s) as [s1 Hclear].
  { intros l Hl. destruct (Hown l Hl) as (li & xs & ys & Hli & _). eauto. }
  unfold bind at 1. rewrite Hclear.
  destruct (clear_lines_rebuilt (lines (stop_info s)) _ [] _ _
              (rebuilt_from_nil _ _) Hclear) as (Hre & Hinfo & _).
  assert (Hwf1 : well_formed s1).
  { eapply owns_values; [exact Hinfo|exact Hnd|eapply rebuilt_from_owns, Hre]. }
  unfold bind, lift.
  destruct (py_getitem response "data") as [data|]; [|exact Hwf1].
  destruct (py_index0 data) as [first|]; [|exact Hwf1].
  destruct (py_get_default first "Arrive" (JList [])) as [arrive|]; [|exact Hwf1].
  destruct (py_iter arrive) as [items|]; [|exact Hwf1].
  destruct (store_arrivals_owns (lines (stop_info s))
              (rev (map snd (lines (stop_info s))) ++ []) items [] s1)
    as [Hi Ho]; [congruence| |exact Hre|].
  { intros k l Hl. apply In_values. eapply lines_get_In, Hl. }
  cbv zeta in *. eapply owns_values; [rewrite Hi; exact Hinfo|exact Hnd|exact Ho].
Qed.

Lemma _parse_arrivals_well_formed response s :
  well_formed s -> well_formed (snd (_parse_arrivals response s)).
Proof.
  intros Hwf. unfold _parse_arrivals, reraise_lookup, bind at 1, lift.
  destruct (py_get response "code") as [c|e]; [|destruct e; exact Hwf].
  destruct (str_eq c "80").
  - eapply well_formed_same; [| |exact Hwf]; reflexivity.
  - pose proof (rebuild_arrivals_always_well_formed response s Hwf) as H.
    destruct (rebuild_arrivals response s) as [[[]|e] s1]; cbn [snd] in *;
      [exact H|destruct e; exact H].
Qed.

Lemma answered_well_formed {A} answer s1 (k : json -> M A) :
  well_formed s1 ->
  (forall response, well_formed (snd (k response s1))) ->
  well_formed (snd (answered answer s1 k)).
Proof.
  intros H1 Hk. unfold answered. destruct answer as [response|[]]; cbn [snd]; auto.
Qed.

Lemma authenticate_well_formed server user password s :
  well_formed s -> well_formed (snd (authenticate server user password s)).
Proof.
  intros Hwf. rewrite authenticate_runs. apply answered_well_formed.
  - eapply well_formed_same; [| |exact Hwf]; reflexivity.
  - intros response. set (s1 := set_sent _ s).
    assert (Hwf1 : well_formed s1)
      by (eapply well_formed_same; [| |exact Hwf]; reflexivity).
    pose proof (_extract_token_keeps store response (fun _ _ => eq_refl) s1) as Hst.
    pose proof (_extract_token_keeps stop_info response (fun _ _ => eq_refl) s1) as Hi.
    unfold bind. destruct (_extract_token response s1) as [[t|e] s2]; cbn [snd] in *;
      eapply well_formed_same; try exact Hwf1; assumption.
Qed.

Lemma update_stop_info_well_formed server stop_id s :
  well_formed s -> well_formed (snd (update_stop_info server stop_id s)).
Proof.
  intros Hwf. rewrite update_stop_info_guard.
  destruct (str_eq (token s) "Invalid token"); [exact Hwf|].
  apply answered_well_formed.
  - eapply well_formed_same; [| |exact Hwf]; reflexivity.
  - intros response. apply _parse_stop_info_well_formed.
    eapply well_formed_same; [| |exact Hwf]; reflexivity.
Qed.

Lemma update_arrival_times_well_formed server stop s :
  well_formed s -> well_formed (snd (update_arrival_times server stop s)).
Proof.
  intros Hwf. rewrite update_arrival_times_guard.
  destruct (str_eq (token s) "Invalid token"); [exact Hwf|].
  apply answered_well_formed.
  - eapply well_formed_same; [| |exact Hwf]; reflexivity.
  - intros response. apply _parse_arrivals_well_formed.
    eapply well_formed_same; [| |exact Hwf]; reflexivity.
Qed.

(** X18: well-formedness is an invariant of the client.  It holds when the
    client is created ([well_formed_init]), and every public method keeps
    it, whether it returns or raises: no call makes two lines share a list
    or a dictionary. *)
Theorem well_formed_is_invariant server s :
  well_formed s ->
  (forall user password, well_formed (snd (authenticate server user password s))) /\
  (forall stop_id, well_formed (snd (update_stop_info server stop_id s))) /\
  (forall stop, well_formed (snd (update_arrival_times server stop s))) /\
  (forall line, well_formed (snd (get_arrival_time line s))) /\
  (forall line, well_formed (snd (get_line_info line s))) /\
  well_formed (snd (get_stop_info s)).
Proof.
  intros Hwf. split; [|split; [|split; [|split; [|split]]]].
  - intros user password. apply authenticate_well_formed, Hwf.
  - intros stop_id. apply update_stop_info_well_formed, Hwf.
  - intros stop. apply update_arrival_times_well_formed, Hwf.
  - intros line. pose proof Hwf as [_ [Hown _]].
    destruct (py_hash line) as [k|e] eqn:Ek.
    + destruct (lines_get k (lines (stop_info s))) as [l|] eqn:El.
      * destruct (Hown l (lines_get_In _ _ _ El)) as (li & xs & ys & Hli & Ha & _).
        rewrite (get_arrival_time_known _ _ _ _ _ _ Ek El Hli Ha). cbn [snd].
        eapply well_formed_with_list; eassumption.
      * rewrite (get_arrival_time_unknown _ _ _ Ek El). cbn [snd].
        eapply well_formed_extends; [apply extends_alloc|reflexivity|exact Hwf].
    + unfold get_arrival_time, bind, lift. rewrite Ek. exact Hwf.
  - intros line. pose proof Hwf as [_ [Hown _]].
    destruct (py_hash line) as [k|e] eqn:Ek.
    + destruct (lines_get k (lines (stop_info s))) as [l|] eqn:El.
      * destruct (Hown l (lines_get_In _ _ _ El)) as (li & xs & ys & Hli & _ & Hd & _).
        rewrite (get_line_info_known _ _ _ _ _ _ Ek El Hli Hd). cbn [snd].
        destruct ys; [eapply well_formed_with_list; eassumption | exact Hwf].
      * destruct (get_line_info_placeholder_runs _ _ s Ek El)
          as (l & s' & -> & Hinfo & Hext).
        cbn [snd]. eapply well_formed_extends; eassumption.
    + unfold get_line_info, bind, lift, get_state. rewrite Ek. exact Hwf.
  - exact Hwf.
Qed.

(** ** A stop update, then a read *)

Lemma _parse_stop_info_inv response stop_id s s' :
  py_get response "code" = Ok (JStr "00") ->
  _parse_stop_info response stop_id s = (Ok tt, s') ->
  exists rs name coordinates address dataLine d s1,
    stop_detail_body response = Ok (rs, name, coordinates, address, dataLine) /\
    parse_lines dataLine s = (Ok d, s1) /\
    s' = set_stop_info (mkSnapshot (JStr stop_id) name coordinates address d) s1.
Proof.
  intros Hc. rewrite _parse_stop_info_runs.
  unfold reraise_lookup, bind at 1, lift at 1. rewrite Hc.
  cbn [str_eq String.eqb Ascii.eqb Bool.eqb negb].
  unfold bind at 1, lift at 1.
  destruct (stop_detail_body response)
    as [[[[[rs name] coordinates] address] dataLine]|e0];
    [|destruct e0; discriminate].
  unfold bind.
  destruct (parse_lines dataLine s) as [[d|e1] s1] eqn:E;
    [|destruct e1; discriminate].
  unfold modify. intros [= <-]. eauto 10.
Qed.

(** X19: when the token is not the marker and the transport answers with
    code "00", an [update_stop_info] that returns has sent one GET request
    for the stop with the stored token, and left a snapshot whose stop id is
    the argument and whose lines are exactly the labels of the answer's
    [dataLine]; [get_arrival_time] for any of them then gives
    [[None, None]]. *)
Theorem update_stop_info_replaces_lines server stop_id s response s' :
  str_eq (token s) "Invalid token" = false ->
  server (length (sent s)) (stop_request (token s) stop_id) = Ok response ->
  py_get response "code" = Ok (JStr "00") ->
  update_stop_info server stop_id s = (Ok tt, s') ->
  sent s' = sent s ++ [stop_request (token s) stop_id] /\
  token s' = token s /\
  bus_stop_id (stop_info s') = JStr stop_id /\
  exists rs name coordinates address dataLine items,
    stop_detail_body response = Ok (rs, name, coordinates, address, dataLine) /\
    py_iter dataLine = Ok items /\
    (forall k, is_Some (lines_get k (lines (stop_info s'))) <->
       exists line, In line items /\
         rbind (py_getitem line "label") py_hash = Ok k) /\
    (forall line k, py_hash line = Ok k ->
       is_Some (lines_get k (lines (stop_info s'))) ->
       exists a s'', get_arrival_time line s' = (Ok a, s'') /\
                     list_at s'' a = Some [JNull; JNull]).
Proof.
  intros Htok Hs Hc. rewrite update_stop_info_guard, Htok, Hs. unfold answered.
  intros H.
  destruct (_parse_stop_info_inv _ _ _ _ Hc H)
    as (rs & name & coordinates & address & dataLine & d & s1 & Hbody & Hparse & ->).
  pose proof (keeps_parse_lines sent dataLine (fun _ _ => eq_refl)
                (set_sent (sent s ++ [stop_request (token s) stop_id]) s)) as Hsent.
  pose proof (keeps_parse_lines token dataLine (fun _ _ => eq_refl)
                (set_sent (sent s ++ [stop_request (token s) stop_id]) s)) as Htoken.
  rewrite Hparse in Hsent, Htoken. cbn [snd] in Hsent, Htoken.
  split; [exact Hsent|]. split; [exact Htoken|]. split; [reflexivity|].
  destruct (parse_lines_fresh _ _ _ _ Hparse) as [_ [Hown _]].
  unfold parse_lines in Hparse. step Hparse.
  destruct (parse_lines_loop_labels _ _ _ _ _ Hparse) as [Hk _].
  exists rs, name, coordinates, address, dataLine, a.
  split; [exact Hbody|]. split; [assumption|]. split.
  - intros k. cbn [stop_info set_stop_info lines]. rewrite Hk.
    split; [|auto]. intros [[x Hx]|H0]; [discriminate|assumption].
  - intros line k Hline [l Hl]. cbn [stop_info set_stop_info lines] in Hl.
    destruct (Hown l (lines_get_In _ _ _ Hl)) as (li & Hli & Ha & _).
    eexists _, _. split.
    + eapply (get_arrival_time_known _ line k l li []); try eassumption.
    + eapply list_at_with_list_eq. exact Ha.
Qed.

(** ** A label given twice *)

Lemma parse_lines_loop_other post : forall d0 s d s' k,
  parse_lines_loop post d0 s = (Ok d, s') ->
  (forall line', In line' post -> rbind (py_getitem line' "label") py_hash <> Ok k) ->
  lines_get k d = lines_get k d0.
Proof.
  induction post as [|line rest IH]; intros d0 s d s' k H Hno.
  - apply ret_ok in H as [-> ->]. reflexivity.
  - cbn [parse_lines_loop] in H.
    step H. apply bind_ok in H as (entry & s1 & Hentry & H). step H. step H.
    rewrite (IH _ _ _ _ k H) by (intros line' Hin; apply Hno; right; exact Hin).
    rewrite lines_get_set. destruct (key_eqb k a0) eqn:E; [|reflexivity].
    apply key_eqb_eq in E as ->. exfalso. apply (Hno line); [left; reflexivity|].
    rewrite Hstep. exact Hstep0.
Qed.

Lemma parse_lines_loop_last pre : forall line post d0 s d s' k,
  parse_lines_loop (pre ++ line :: post) d0 s = (Ok d, s') ->
  rbind (py_getitem line "label") py_hash = Ok k ->
  (forall line', In line' post -> rbind (py_getitem line' "label") py_hash <> Ok k) ->
  exists l li,
    lines_get k d = Some l /\ line_at s' l = Some li /\
    swapped line li /\ copied line li.
Proof.
  induction pre as [|line0 pre IH]; intros line post d0 s d s' k H Hk Hno.
  - cbn [app parse_lines_loop] in H.
    step H. apply bind_ok in H as (entry & s1 & Hentry & H). step H. step H.
    assert (a0 = k) as ->.
    { rewrite Hstep in Hk. cbn [rbind] in Hk. congruence. }
    exists (length (store s1)), entry.
    split.
    { rewrite (parse_lines_loop_other _ _ _ _ _ k H Hno), lines_get_set.
      assert (key_eqb k k = true) as -> by (apply key_eqb_eq; reflexivity).
      reflexivity. }
    split.
    { pose proof (grows_parse_lines_loop post (lines_set k (length (store s1)) d0)
                    (set_store (store s1 ++ [PyLine entry]) s1)) as Hg.
      rewrite H in Hg. cbn [snd] in Hg.
      eapply line_at_extends; [exact Hg|].
      apply line_at_store. cbn [store set_store]. apply list_lookup_middle. reflexivity. }
    split; [eapply line_entry_swapped, Hentry | eapply line_entry_copied, Hentry].
  - cbn [app parse_lines_loop] in H.
    step H. apply bind_ok in H as (entry & s1 & Hentry & H). step H. step H.
    eapply IH; eassumption.
Qed.

(** X20: when several records carry the same label, the line is the one
    built from the last of them: its destination and origin follow that
    record's direction, its other entries are copied from it, and its two
    lists are empty. *)
Theorem parse_lines_last_record_wins dataLine pre line post k s d s' :
  py_iter dataLine = Ok (pre ++ line :: post) ->
  rbind (py_getitem line "label") py_hash = Ok k ->
  (forall line', In line' post -> rbind (py_getitem line' "label") py_hash <> Ok k) ->
  parse_lines dataLine s = (Ok d, s') ->
  exists l li,
    lines_get k d = Some l /\ line_at s' l = Some li /\
    swapped line li /\ copied line li /\
    list_at s' (arrivals li) = Some [] /\ list_at s' (distance li) = Some [].
Proof.
  intros Hit Hk Hno H.
  destruct (parse_lines_fresh _ _ _ _ H) as [_ [Hown _]].
  unfold parse_lines in H. step H. rewrite Hit in Hstep. injection Hstep as <-.
  destruct (parse_lines_loop_last _ _ _ _ _ _ _ _ H Hk Hno)
    as (l & li & Hl & Hli & Hsw & Hco).
  exists l, li. repeat (split; [assumption|]).
  destruct (Hown l (lines_get_In _ _ _ Hl)) as (li' & Hli' & Ha & Hd & _).
  rewrite Hli in Hli'. injection Hli' as <-. split; assumption.
Qed.

(** ** Transport failures *)

(** X21: when the token is not the marker and the request fails with an
    [HTTPError], each update method raises [HTTPError("Error while
    connecting to EMT API: ...")] around the transport's message and
    changes nothing but the record of the requests made: token, snapshot
    and every stored list are as before. *)
Theorem updates_propagate_transport_failure server stop s error :
  str_eq (token s) "Invalid token" = false ->
  (server (length (sent s)) (stop_request (token s) stop) = Raise (HTTPError error) ->
   update_stop_info server stop s =
     (Raise (HTTPError ("Error while connecting to EMT API: " ++ error)%string),
      set_sent (sent s ++ [stop_request (token s) stop]) s)) /\
  (server (length (sent s)) (arrivals_request (token s) stop) = Raise (HTTPError error) ->
   update_arrival_times server stop s =
     (Raise (HTTPError ("Error while connecting to EMT API: " ++ error)%string),
      set_sent (sent s ++ [arrivals_request (token s) stop]) s)).
Proof.
  intros Htok. split; intros Hs.
  - rewrite update_stop_info_guard, Htok, Hs. reflexivity.
  - rewrite update_arrival_times_guard, Htok, Hs. reflexivity.
Qed.

(** ** An arrivals update, then a read *)

(** X22: on a well-formed state with a usable token, after an
    [update_arrival_times] that returns on an answer whose code is not "80",
    [get_arrival_time] gives, for every line of the snapshot, the minutes of
    the answer's records for that line, in the answer's order, padded with
    [None] up to two elements; the line's distances are the records'
    [DistanceBus] entries, unpadded. *)
Theorem arrival_times_after_update server stop s response c s' :
  well_formed s ->
  str_eq (token s) "Invalid token" = false ->
  server (length (sent s)) (arrivals_request (token s) stop) = Ok response ->
  py_get response "code" = Ok c -> str_eq c "80" = false ->
  update_arrival_times server stop s = (Ok tt, s') ->
  exists items,
    arrive_records response = Ok items /\
    stop_info s' = stop_info s /\
    sent s' = sent s ++ [arrivals_request (token s) stop] /\
    forall line k l,
      py_hash line = Ok k ->
      lines_get k (lines (stop_info s)) = Some l ->
      exists a s'',
        get_arrival_time line s' = (Ok a, s'') /\
        list_at s'' a = Some (padded (arrivals_for (lines (stop_info s)) l items)) /\
        stored_distance s'' k = Some (distances_for (lines (stop_info s)) l items).
Proof.
  intros Hwf Htok Hs Hc Hn. rewrite update_arrival_times_guard, Htok, Hs.
  unfold answered. set (s0 := set_sent _ s). intros H.
  assert (Hwf0 : well_formed s0)
    by (eapply well_formed_same; [| |exact Hwf]; reflexivity).
  pose proof (_parse_arrivals_well_formed response s0 Hwf0) as Hwf'.
  pose proof (_parse_arrivals_keeps_sent response s0) as Hsent.
  rewrite H in Hwf', Hsent. cbn [snd] in Hwf', Hsent.
  destruct (rebuild_arrivals_rebuilt _ _ _ (_parse_arrivals_done _ _ _ _ Hc Hn H))
    as (items & Hit & Hinfo & _ & Hl).
  exists items. split; [exact Hit|]. split; [exact Hinfo|]. split; [exact Hsent|].
  intros line k l Hk Hlk.
  destruct (Hl k l Hlk) as ((li & li' & _ & Hli' & _) & Ha & Hd).
  change (stop_info s0) with (stop_info s) in *.
  unfold stored_arrivals, stored_distance, known_line in Ha, Hd.
  rewrite Hinfo, Hlk, Hli' in Ha, Hd.
  assert (Hlk' : lines_get k (lines (stop_info s')) = Some l) by (rewrite Hinfo; exact Hlk).
  exists (arrivals li'), (with_list (arrivals li') (padded (arrivals_for (lines (stop_info s)) l items)) s').
  split; [eapply get_arrival_time_known; eassumption|].
  split; [eapply list_at_with_list_eq; exact Ha|].
  unfold stored_distance. rewrite (known_line_with_list _ _ _ _ _ Ha).
  unfold known_line. rewrite Hlk', Hli'.
  rewrite list_at_with_list_ne; [exact Hd|].
  destruct Hwf' as [_ [Hown _]].
  destruct (Hown l) as (li0 & ? & ? & Hli0 & _ & _ & Hne).
  { eapply lines_get_In. exact Hlk'. }
  rewrite Hli' in Hli0. injection Hli0 as <-. congruence.
Qed.

(** ** The guard, again *)

(** C10: only the exact marker suppresses the updates.  With the token
    equal to the string "Invalid token" both methods return at once.  With
    any other token, the null token that [__init__] stores included, each
    method sends its request with that token as [accessToken], and the
    answer is parsed: a stop-detail answer with code "00" on which the
    update returns has replaced the snapshot (stop id, name, coordinates,
    address, and lines with exactly the labels of its [dataLine]); an
    arrivals answer with a code other than "80" on which the update returns
    has rebuilt the two lists of every line from its records. *)
Theorem updates_run_on_null_token server stop_id s :
  token init = JNull /\
  (token s = JStr "Invalid token" ->
     update_stop_info server stop_id s = (Ok tt, s) /\
     update_arrival_times server stop_id s = (Ok tt, s)) /\
  (token s <> JStr "Invalid token" ->
     sent (snd (update_stop_info server stop_id s)) =
       sent s ++ [stop_request (token s) stop_id] /\
     sent (snd (update_arrival_times server stop_id s)) =
       sent s ++ [arrivals_request (token s) stop_id] /\
     (forall response s',
        server (length (sent s)) (stop_request (token s) stop_id) = Ok response ->
        py_get response "code" = Ok (JStr "00") ->
        update_stop_info server stop_id s = (Ok tt, s') ->
        exists rs name coordinates address dataLine items,
          stop_detail_body response =
            Ok (rs, name, coordinates, address, dataLine) /\
          py_iter dataLine = Ok items /\
          stop_info s' =
            mkSnapshot (JStr stop_id) name coordinates address
              (lines (stop_info s')) /\
          forall k, is_Some (lines_get k (lines (stop_info s'))) <->
            exists line, In line items /\
              rbind (py_getitem line "label") py_hash = Ok k) /\
     (forall response c s',
        server (length (sent s)) (arrivals_request (token s) stop_id) = Ok response ->
        py_get response "code" = Ok c -> str_eq c "80" = false ->
        update_arrival_times server stop_id s = (Ok tt, s') ->
        rebuilt s response s')).
Proof.
  split; [reflexivity|]. split.
  - intros Ht. rewrite update_stop_info_guard, update_arrival_times_guard, Ht.
    split; reflexivity.
  - intros Ht. apply str_eq_false in Ht.
    split; [|split; [|split]].
    + rewrite update_stop_info_guard, Ht.
      rewrite sent_answered; [reflexivity|].
      intros. apply _parse_stop_info_keeps_sent.
    + rewrite update_arrival_times_guard, Ht.
      rewrite sent_answered; [reflexivity|].
      intros. apply _parse_arrivals_keeps_sent.
    + intros response s' Hs Hc. rewrite update_stop_info_guard, Ht, Hs.
      unfold answered. intros H.
      destruct (_parse_stop_info_inv _ _ _ _ Hc H)
        as (rs & name & coordinates & address & dataLine & d & s1
            & Hbody & Hparse & ->).
      unfold parse_lines in Hparse. step Hparse.
      destruct (parse_lines_loop_labels _ _ _ _ _ Hparse) as [Hk _].
      exists rs, name, coordinates, address, dataLine, a.
      split; [exact Hbody|]. split; [assumption|]. split; [reflexivity|].
      intros k. cbn [stop_info set_stop_info lines]. rewrite Hk.
      split; [|auto]. intros [[x Hx]|H0]; [discriminate|assumption].
    + intros response c s' Hs Hc Hn. rewrite update_arrival_times_guard, Ht, Hs.
      unfold answered. intros H.
      exact (rebuild_arrivals_rebuilt _ _ _ (_parse_arrivals_done _ _ _ _ Hc Hn H)).
Qed.

(** A client that never logged in: the stop update fills the snapshot, the
    arrivals update that follows fills the lists of line 27. *)
Lemma updates_run_on_null_token_witness :
  let s1 := snd (update_stop_info sample_server "72" init) in
  let s2 := snd (update_arrival_times sample_server "72" s1) in
  token init = JNull /\
  token s1 = JNull /\
  sent s1 = [stop_request JNull "72"] /\
  sent s2 = [stop_request JNull "72"; arrivals_request JNull "72"] /\
  bus_stop_name (stop_info s1) = JStr "Cibeles-Casa de America" /\
  is_Some (lines_get (KStr "27") (lines (stop_info s1))) /\
  stored_arrivals s1 (KStr "27") = Some [] /\
  stored_arrivals s2 (KStr "27") = Some [JInt 0; JInt 2] /\
  stored_distance s2 (KStr "27") = Some [JInt 120; JInt 800].
Proof.
  intros s1 s2.
  assert (N0 : token init <> JStr "Invalid token") by discriminate.
  assert (N1 : token s1 <> JStr "Invalid token") by (vm_compute; discriminate).
  assert (H1 : update_stop_info sample_server "72" init = (Ok tt, s1))
    by (vm_compute; reflexivity).
  assert (H2 : update_arrival_times sample_server "72" s1 = (Ok tt, s2))
    by (vm_compute; reflexivity).
  destruct (updates_run_on_null_token sample_server "72" init)
    as (Hinit & _ & Hrun0).
  destruct (Hrun0 N0) as (Hsent1 & _ & Hstop & _).
  destruct (updates_run_on_null_token sample_server "72" s1) as (_ & _ & Hrun1).
  destruct (Hrun1 N1) as (_ & Hsent2 & _ & Harr).
  destruct (Hstop stop_detail_ok s1 eq_refl eq_refl H1)
    as (rs & name & co & ad & dl & items & Hbody & Hitems & Hinfo & Hlab).
  destruct (Harr (arrivals_response [arrival_record "27" 30 120;
                                     arrival_record "27" 150 800])
              (JStr "00") s2 eq_refl eq_refl eq_refl H2)
    as (recs & Hrecs & _ & _ & Hlists).
  change (Ok [arrival_record "27" 30 120; arrival_record "27" 150 800] = Ok recs)
    in Hrecs.
  injection Hrecs as <-.
  destruct (Hlists (KStr "27") 2%nat) as (_ & Ha & Hd); [vm_compute; reflexivity|].
  split; [exact Hinit|]. split; [reflexivity|].
  split; [exact Hsent1|].
  split; [fold s2 in Hsent2; rewrite Hsent2; vm_compute; reflexivity|].
  split; [vm_compute; reflexivity|].
  split.
  { apply Hlab. vm_compute in Hbody. injection Hbody as _ _ _ _ <-.
    vm_compute in Hitems. injection Hitems as <-.
    eexists. split; [left; reflexivity | reflexivity]. }
  split; [vm_compute; reflexivity|].
  split; [rewrite Ha | rewrite Hd]; vm_compute; reflexivity.
Defined.

(** ** Instances *)

Lemma well_formed_sample_stop : well_formed sample_stop.
Proof. apply _parse_stop_info_well_formed, well_formed_init. Qed.

Lemma well_formed_sample_three : well_formed sample_three.
Proof. apply _parse_arrivals_well_formed, well_formed_sample_stop. Qed.

Lemma authenticate_success_witness :
  accepting_server 0 (login_request "user" "secret") = Ok login_ok /\
  authenticate accepting_server "user" "secret" init =
    (Ok (JStr "3bd5855a"),
     set_token (JStr "3bd5855a") (set_sent [login_request "user" "secret"] init)).
Proof.
  split; [reflexivity|].
  apply (authenticate_success accepting_server "user" "secret" init login_ok
           (JList [JDict [("accessToken", JStr "3bd5855a")]])
           (JDict [("accessToken", JStr "3bd5855a")]) (JStr "3bd5855a"));
    reflexivity.
Defined.

Lemma authenticate_rejected_witness :
  sample_server 0 (login_request "user" "wrong") = Ok login_rejected /\
  py_get login_rejected "code" = Ok (JStr "92") /\
  exists s',
    authenticate sample_server "user" "wrong" init = (Ok (JStr "Invalid token"), s') /\
    update_stop_info sample_server "72" s' = (Ok tt, s').
Proof.
  split; [reflexivity|]. split; [reflexivity|].
  destruct (authenticate_rejected sample_server "user" "wrong" init login_rejected
              (JStr "92") eq_refl eq_refl eq_refl)
    as (s' & Hauth & _ & _ & _ & _ & _ & Hupd).
  exists s'. split; [exact Hauth | apply (Hupd "72")].
Defined.

Lemma authenticate_failure_keeps_token_witness :
  let s := set_token (JStr "3bd5855a") init in
  fst (authenticate failing_server "user" "secret" s) =
    Raise (HTTPError "Error while connecting to EMT API: 503 Server Error") /\
  token (snd (authenticate failing_server "user" "secret" s)) = JStr "3bd5855a".
Proof.
  intros s. split; [reflexivity|].
  apply (authenticate_failure_keeps_token failing_server "user" "secret" s
           (HTTPError "Error while connecting to EMT API: 503 Server Error")).
  reflexivity.
Defined.

Lemma failed_stop_info_changes_nothing_witness :
  fst (_parse_stop_info no_data "72" sample_three) =
    Raise (ValueError "Unable to get bus stop information") /\
  stored_arrivals (snd (_parse_stop_info no_data "72" sample_three)) (KStr "27") =
    Some [JInt 0; JInt 2; JInt 5].
Proof.
  split; [reflexivity|].
  destruct (failed_stop_info_changes_nothing no_data "72" sample_three
              (ValueError "Unable to get bus stop information") eq_refl)
    as (_ & _ & _ & _ & _ & Hk).
  apply (Hk (KStr "27")). vm_compute. reflexivity.
Defined.

Lemma stop_info_success_replaces_snapshot_witness :
  py_get stop_detail_ok "code" = Ok (JStr "00") /\
  fst (_parse_stop_info stop_detail_ok "72" sample_three) = Ok tt /\
  stored_arrivals sample_three (KStr "27") = Some [JInt 0; JInt 2; JInt 5] /\
  stored_arrivals (snd (_parse_stop_info stop_detail_ok "72" sample_three)) (KStr "27") =
    Some [].
Proof.
  split; [reflexivity|]. split; [vm_compute; reflexivity|].
  split; [vm_compute; reflexivity|].
  destruct (_parse_stop_info stop_detail_ok "72" sample_three) as [r s'] eqn:E.
  assert (Hr : r = Ok tt) by (apply (f_equal fst) in E; vm_compute in E; congruence).
  subst r.
  destruct (stop_info_success_replaces_snapshot stop_detail_ok "72" sample_three s'
              eq_refl E)
    as (rs & name & co & ad & dl & d & _ & Hinfo & _ & _ & Hl).
  cbn [snd].
  assert (Hd : lines_get (KStr "27") d = Some 12%nat).
  { apply (f_equal snd) in E. cbn [snd] in E. rewrite <- E in Hinfo.
    vm_compute in Hinfo. inversion Hinfo. reflexivity. }
  apply (Hl _ _ Hd).
Defined.

Lemma update_stop_info_replaces_lines_witness :
  let s' := snd (update_stop_info accepting_server "72" authenticated) in
  str_eq (token authenticated) "Invalid token" = false /\
  accepting_server 1 (stop_request (JStr "3bd5855a") "72") = Ok stop_detail_ok /\
  update_stop_info accepting_server "72" authenticated = (Ok tt, s') /\
  sent s' = [login_request "user" "secret"; stop_request (JStr "3bd5855a") "72"] /\
  exists a s'', get_arrival_time (JStr "53") s' = (Ok a, s'') /\
                list_at s'' a = Some [JNull; JNull].
Proof.
  intros s'. split; [reflexivity|]. split; [reflexivity|].
  assert (H : update_stop_info accepting_server "72" authenticated = (Ok tt, s'))
    by (vm_compute; reflexivity).
  split; [exact H|].
  destruct (update_stop_info_replaces_lines accepting_server "72" authenticated
              stop_detail_ok s' eq_refl eq_refl eq_refl H)
    as (Hsent & _ & _ & rs & name & co & ad & dl & items & _ & _ & _ & Hget).
  split; [exact Hsent|].
  apply (Hget (JStr "53") (KStr "53") eq_refl). eexists. vm_compute. reflexivity.
Defined.

Lemma parse_lines_labels_witness :
  exists d s',
    parse_lines two_records init = (Ok d, s') /\
    length d = 2%nat /\
    is_Some (lines_get (KStr "27") d) /\
    lines_get (KStr "146") d = None.
Proof.
  destruct (parse_lines two_records init) as [r s'] eqn:E.
  assert (Hr : r = Ok [(KStr "27", 5%nat); (KStr "53", 8%nat)])
    by (apply (f_equal fst) in E; vm_compute in E; congruence).
  subst r. eexists _, s'. split; [reflexivity|]. split; [reflexivity|].
  destruct (parse_lines_labels two_records init _ s' E) as (items & Hit & Hk & _).
  injection Hit as <-. split; [|reflexivity].
  apply Hk. eexists. split; [left; reflexivity | reflexivity].
Defined.

Lemma parse_lines_copies_fields_witness :
  exists d s' li,
    parse_lines two_records init = (Ok d, s') /\
    lines_get (KStr "53") d = Some 8%nat /\
    line_at s' 8%nat = Some li /\
    copied (line_record "53" "B" "SOL SEVILLA" "ARTURO SORIA") li /\
    end_time li = JStr "22:58" /\ max_freq li = JInt 12.
Proof.
  destruct (parse_lines two_records init) as [r s'] eqn:E.
  assert (Hr : r = Ok [(KStr "27", 5%nat); (KStr "53", 8%nat)])
    by (apply (f_equal fst) in E; vm_compute in E; congruence).
  subst r.
  destruct (parse_lines_copies_fields two_records init _ s' E) as (items & Hit & Hk).
  destruct (Hk (KStr "53") 8%nat eq_refl) as (line & li & Hin & Hlab & Hat & Hcop).
  injection Hit as <-.
  assert (line = line_record "53" "B" "SOL SEVILLA" "ARTURO SORIA") as ->.
  { destruct Hin as [<-|[<-|[<-|[]]]]; try discriminate Hlab. reflexivity. }
  exists [(KStr "27", 5%nat); (KStr "53", 8%nat)], s', li.
  split; [reflexivity|]. split; [reflexivity|].
  split; [exact Hat|]. split; [exact Hcop|].
  destruct Hcop as (_ & Hend & _ & (z & Hz & Hmax) & _).
  split.
  - change (Ok (JStr "22:58") = Ok (end_time li)) in Hend.
    injection Hend as <-. reflexivity.
  - rewrite Hmax. change (Ok 12 = Ok z) in Hz. injection Hz as <-. reflexivity.
Defined.


Lemma arrivals_without_data_clears_lines_witness :
  well_formed sample_three /\
  rbind (py_getitem no_data "data") py_index0 = Raise KeyError /\
  stored_arrivals sample_three (KStr "27") = Some [JInt 0; JInt 2; JInt 5] /\
  exists s1,
    _parse_arrivals no_data sample_three =
      (Raise (ValueError "Unable to get the arrival times from the API"), s1) /\
    stored_arrivals s1 (KStr "27") = Some [].
Proof.
  split; [exact well_formed_sample_three|]. split; [reflexivity|].
  split; [vm_compute; reflexivity|].
  destruct (arrivals_without_data_clears_lines no_data (JStr "00") sample_three
              KeyError well_formed_sample_three eq_refl eq_refl eq_refl)
    as (s1 & Hm & _ & _ & Hl).
  exists s1. split; [exact Hm|].
  apply (Hl (KStr "27") 2%nat). vm_compute. reflexivity.
Defined.

Lemma arrivals_without_Arrive_empties_lines_witness :
  well_formed sample_three /\
  py_getitem no_arrive "data" = Ok (JList [JDict [("Extra", JList [])]]) /\
  exists s',
    _parse_arrivals no_arrive sample_three = (Ok tt, s') /\
    stored_arrivals s' (KStr "27") = Some [] /\
    stored_distance s' (KStr "27") = Some [].
Proof.
  split; [exact well_formed_sample_three|]. split; [reflexivity|].
  destruct (arrivals_without_Arrive_empties_lines no_arrive (JStr "00")
              (JList [JDict [("Extra", JList [])]]) [("Extra", JList [])]
              sample_three well_formed_sample_three
              eq_refl eq_refl eq_refl eq_refl eq_refl)
    as (s' & Hm & _ & _ & Hl).
  exists s'. split; [exact Hm|].
  apply (Hl (KStr "27") 2%nat). vm_compute. reflexivity.
Defined.

Lemma stored_minutes_at_most_45_witness :
  let response := arrivals_response [arrival_record "27" 3600 5200;
                                     arrival_record "27" 86400 90000] in
  let s' := snd (_parse_arrivals response sample_stop) in
  parsed_arrivals response sample_stop s' /\
  stored_arrivals s' (KStr "27") = Some [JInt 45; JInt 45] /\
  Forall (fun m => exists t, m = JInt t /\ t <= 45) [JInt 45; JInt 45].
Proof.
  intros response s'.
  assert (H : parsed_arrivals response sample_stop s').
  { right. exists (JStr "00"). split; [reflexivity|]. split; [reflexivity|].
    vm_compute. reflexivity. }
  assert (Hs : stored_arrivals s' (KStr "27") = Some [JInt 45; JInt 45])
    by (vm_compute; reflexivity).
  split; [exact H|]. split; [exact Hs|].
  exact (stored_minutes_at_most_45 response sample_stop s' (KStr "27") 2%nat _
           H eq_refl Hs).
Defined.

Lemma arrival_parsers_agree_witness :
  py_get three_buses "code" = Ok (JStr "00") /\
  snd (_parse_arrivals three_buses sample_stop) =
    snd (parse_arrivals three_buses sample_stop) /\
  fst (parse_arrivals no_data sample_stop) = Raise KeyError /\
  fst (_parse_arrivals no_data sample_stop) =
    Raise (ValueError "Unable to get the arrival times from the API").
Proof.
  split; [reflexivity|].
  destruct (arrival_parsers_agree three_buses (JStr "00") sample_stop eq_refl eq_refl)
    as (Hsnd & _ & _).
  split; [exact Hsnd|].
  destruct (arrival_parsers_agree no_data (JStr "00") sample_stop eq_refl eq_refl)
    as (_ & Hfst & _).
  assert (Hp : fst (parse_arrivals no_data sample_stop) = Raise KeyError)
    by (vm_compute; reflexivity).
  split; [exact Hp|]. rewrite Hfst, Hp. reflexivity.
Defined.

Lemma stop_info_parsers_differ_in_keys_witness :
  let s1 := snd (_parse_stop_info stop_detail_ok "0072" init) in
  let s2 := snd (parse_stop_info stop_detail_ok init) in
  py_get stop_detail_ok "code" = Ok (JStr "00") /\
  _parse_stop_info stop_detail_ok "0072" init = (Ok tt, s1) /\
  parse_stop_info stop_detail_ok init = (Ok TheSnapshot, s2) /\
  bus_stop_id (stop_info s1) = JStr "0072" /\
  bus_stop_id (stop_info s2) = JNull /\
  dict_lookup "stop_id" (other_entries s2) = Some (JStr "72") /\
  other_entries s1 = [] /\
  lines (stop_info s2) = lines (stop_info s1).
Proof.
  intros s1 s2.
  assert (H1 : _parse_stop_info stop_detail_ok "0072" init = (Ok tt, s1))
    by (vm_compute; reflexivity).
  assert (H2 : parse_stop_info stop_detail_ok init = (Ok TheSnapshot, s2))
    by (vm_compute; reflexivity).
  split; [reflexivity|]. split; [exact H1|]. split; [exact H2|].
  destruct (stop_detail_body stop_detail_ok)
    as [[[[[rs name] coordinates] address] dataLine]|] eqn:Hbody;
    [|vm_compute in Hbody; discriminate Hbody].
  assert (Hstop : py_getitem rs "stop" = Ok (JStr "72")).
  { vm_compute in Hbody. injection Hbody as <- _ _ _ _. reflexivity. }
  destruct (stop_info_parsers_differ_in_keys stop_detail_ok "0072" init
              rs name coordinates address dataLine (JStr "72")
              eq_refl Hbody Hstop) as [_ H].
  destruct (H s1 s2 H1 H2)
    as (Hl & _ & Hi & Ho & Hid & _ & _ & _ & Hsid & _).
  split; [rewrite Hi; reflexivity|]. split; [exact Hid|].
  split; [exact Hsid|]. split; [exact Ho | exact Hl].
Defined.

Lemma get_line_info_unknown_witness :
  py_hash (JStr "146") = Ok (KStr "146") /\
  lines_get (KStr "146") (lines (stop_info sample_stop)) = None /\
  exists l li s',
    get_line_info (JStr "146") sample_stop = (Ok l, s') /\
    line_at s' l = Some li /\ destination li = JNull /\
    list_at s' (arrivals li) = Some [JNull; JNull] /\
    stop_info s' = stop_info sample_stop.
Proof.
  split; [reflexivity|]. split; [reflexivity|].
  destruct (get_line_info_unknown (JStr "146") (KStr "146") sample_stop
              eq_refl eq_refl)
    as (l & li & s' & Hget & Hli & (Hdest & _) & _ & Ha & _ & Hinfo & _).
  exists l, li, s'. repeat (split; [assumption|]). assumption.
Defined.

Lemma accessors_are_idempotent_witness :
  line_at sample_stop 2%nat = Some sample_line_27 /\
  list_at sample_stop 1%nat = Some [] /\
  let s1 := snd (get_arrival_time (JStr "27") sample_stop) in
  s1 <> sample_stop /\
  get_arrival_time (JStr "27") s1 = (Ok 1%nat, s1).
Proof.
  split; [reflexivity|]. split; [reflexivity|]. intros s1.
  split; [vm_compute; discriminate|].
  destruct (accessors_are_idempotent (JStr "27") (KStr "27") 2%nat sample_line_27
              sample_stop eq_refl eq_refl eq_refl) as [Ha _].
  exact (Ha [] eq_refl).
Defined.

Lemma get_arrival_time_touches_one_list_witness :
  well_formed sample_three /\
  let s1 := snd (get_arrival_time (JStr "53") sample_three) in
  stored_arrivals s1 (KStr "53") = Some [JNull; JNull] /\
  stored_arrivals s1 (KStr "27") = Some [JInt 0; JInt 2; JInt 5] /\
  stored_distance s1 (KStr "53") = Some [].
Proof.
  split; [exact well_formed_sample_three|]. intros s1.
  split; [vm_compute; reflexivity|].
  destruct (get_arrival_time_touches_one_list (JStr "53") (KStr "53") 5%nat
              (set_lists (mkLineInfo (JStr "ARTURO SORIA") (JStr "SOL SEVILLA")
                            (JInt 12) (JInt 4) (JStr "07:00") (JStr "22:58")
                            (JStr "LA") 0%nat 0%nat) 9%nat 8%nat)
              [] sample_three well_formed_sample_three)
    as (_ & _ & Hd & Hother); try (vm_compute; reflexivity).
  split.
  - destruct (Hother (KStr "27")) as [Ha _]; [discriminate|].
    fold s1 in Ha. rewrite Ha. vm_compute. reflexivity.
  - fold s1 in Hd. rewrite Hd. vm_compute. reflexivity.
Defined.

Lemma invalid_token_iff_substring_witness :
  py_get token_expired "code" = Ok (JStr "80") /\
  fst (parse_arrivals token_expired init) = Ok (Value invalid_token_marker) /\
  fst (parse_arrivals stop_disabled init) <> Ok (Value invalid_token_marker).
Proof.
  split; [reflexivity|]. split.
  - apply (invalid_token_iff_substring token_expired
             "Invalid token: token not found in cache" init eq_refl eq_refl).
    exists "Invalid ", ": token not found in cache". reflexivity.
  - intros H.
    apply (invalid_token_iff_substring stop_disabled
             "Bus stop disabled or not exists" init eq_refl eq_refl) in H.
    apply contains_spec in H. discriminate H.
Defined.

Lemma well_formed_is_invariant_witness :
  well_formed init /\
  well_formed (snd (update_arrival_times accepting_server "72"
                      (snd (update_stop_info accepting_server "72" authenticated)))).
Proof.
  split; [exact well_formed_init|].
  assert (H1 : well_formed authenticated).
  { destruct (well_formed_is_invariant accepting_server init well_formed_init)
      as (Hauth & _). apply Hauth. }
  assert (H2 : well_formed (snd (update_stop_info accepting_server "72" authenticated))).
  { destruct (well_formed_is_invariant accepting_server authenticated H1)
      as (_ & Hupd & _). apply Hupd. }
  destruct (well_formed_is_invariant accepting_server _ H2) as (_ & _ & Harr & _).
  apply Harr.
Defined.

Lemma parse_lines_last_record_wins_witness :
  exists d s' l li,
    parse_lines two_records init = (Ok d, s') /\
    lines_get (KStr "27") d = Some l /\ line_at s' l = Some li /\
    destination li = JStr "PLAZA CASTILLA" /\ origin li = JStr "EMBAJADORES".
Proof.
  destruct (parse_lines two_records init) as [r s'] eqn:E.
  assert (Hr : r = Ok [(KStr "27", 5%nat); (KStr "53", 8%nat)])
    by (apply (f_equal fst) in E; vm_compute in E; congruence).
  subst r.
  destruct (parse_lines_last_record_wins two_records
              [line_record "27" "A" "EMBAJADORES" "PLAZA CASTILLA"]
              (line_record "27" "B" "EMBAJADORES" "PLAZA CASTILLA")
              [line_record "53" "B" "SOL SEVILLA" "ARTURO SORIA"]
              (KStr "27") init [(KStr "27", 5%nat); (KStr "53", 8%nat)] s'
              eq_refl eq_refl)
    as (l & li & Hl & Hli & (dir & Hdir & _ & HB & _) & _); [|exact E|].
  { intros line' [<-|[]]. discriminate. }
  exists [(KStr "27", 5%nat); (KStr "53", 8%nat)], s', l, li.
  split; [reflexivity|]. split; [exact Hl|]. split; [exact Hli|].
  change (Ok (JStr "B") = Ok dir) in Hdir. injection Hdir as <-.
  destruct (HB eq_refl) as [Hd Ho].
  change (Ok (JStr "PLAZA CASTILLA") = Ok (destination li)) in Hd.
  change (Ok (JStr "EMBAJADORES") = Ok (origin li)) in Ho.
  injection Hd as <-. injection Ho as <-. split; reflexivity.
Defined.

Lemma updates_propagate_transport_failure_witness :
  let s := set_token (JStr "3bd5855a") init in
  str_eq (token s) "Invalid token" = false /\
  update_arrival_times failing_server "72" s =
    (Raise (HTTPError "Error while connecting to EMT API: 503 Server Error"),
     set_sent [arrivals_request (JStr "3bd5855a") "72"] s).
Proof.
  intros s. split; [reflexivity|].
  destruct (updates_propagate_transport_failure failing_server "72" s
              "503 Server Error" eq_refl) as [_ H].
  apply H. reflexivity.
Defined.

Lemma well_formed_at_stop : well_formed at_stop.
Proof.
  apply update_stop_info_well_formed, authenticate_well_formed, well_formed_init.
Qed.

Lemma arrival_times_after_update_witness :
  well_formed at_stop /\
  str_eq (token at_stop) "Invalid token" = false /\
  exists s' a a' s1 s2,
    update_arrival_times accepting_server "72" at_stop = (Ok tt, s') /\
    get_arrival_time (JStr "27") s' = (Ok a, s1) /\
    list_at s1 a = Some [JInt 0; JInt 2] /\
    get_arrival_time (JStr "53") s' = (Ok a', s2) /\
    list_at s2 a' = Some [JNull; JNull].
Proof.
  split; [exact well_formed_at_stop|]. split; [reflexivity|].
  destruct (update_arrival_times accepting_server "72" at_stop) as [r s'] eqn:E.
  assert (Hr : r = Ok tt) by (apply (f_equal fst) in E; vm_compute in E; congruence).
  subst r.
  destruct (arrival_times_after_update accepting_server "72" at_stop
              (arrivals_response [arrival_record "27" 30 120;
                                  arrival_record "27" 150 800])
              (JStr "00") s' well_formed_at_stop eq_refl eq_refl eq_refl eq_refl E)
    as (items & Hit & _ & _ & Hget).
  change (Ok [arrival_record "27" 30 120; arrival_record "27" 150 800] = Ok items) in Hit.
  injection Hit as <-.
  destruct (Hget (JStr "27") (KStr "27") 2%nat eq_refl) as (a & s1 & H1 & L1 & _);
    [vm_compute; reflexivity|].
  destruct (Hget (JStr "53") (KStr "53") 5%nat eq_refl) as (a' & s2 & H2 & L2 & _);
    [vm_compute; reflexivity|].
  exists s', a, a', s1, s2. split; [reflexivity|].
  split; [exact H1|]. split; [|split; [exact H2|]].
  - rewrite L1. vm_compute. reflexivity.
  - rewrite L2. vm_compute. reflexivity.
Defined.
